(** * STRR application lifecycle

    A shallow embedding of the application lifecycle of the STRR API:
    - [strr_api/models/application.py]      (module [Application]),
    - [strr_api/services/application_service.py] (module [ApplicationService]),
    - [strr_api/resources/application.py]   (module [Resource]).

    Python objects are mutable and exceptions leave every mutation made
    before the raise in place, so the service functions run in a small
    state-and-exception monad whose state is kept when an exception is
    raised.  The state holds the in-memory [Application] object and the
    trace of the effects performed on the database so far (rows saved,
    events logged, registrations provisioned). *)

From stdpp Require Import gmap strings list sorting relations.

Open Scope string_scope.
Open Scope list_scope.
Open Scope nat_scope.

(** ** Python values used by the code *)

(** JSON documents ([application_json] is a JSONB column). *)
#[local] Unset Elimination Schemes.
Inductive json :=
| JNull
| JBool (b : bool)
| JNum (z : Z)
| JStr (s : string)
| JList (l : list json)
| JDict (d : list (string * json)).
#[local] Set Elimination Schemes.

(** [str.upper] is a builtin that maps Unicode text; the functions that
    call it take it as a parameter, [upper].  On ASCII text it changes the
    letters a to z only: [ascii_upper] is that restriction, the instance
    used on the ASCII strings of the scenarios. *)
Definition upper_ascii (c : Ascii.ascii) : Ascii.ascii :=
  let n := Ascii.nat_of_ascii c in
  if ((97 <=? n) && (n <=? 122))%nat then Ascii.ascii_of_nat (n - 32) else c.

Fixpoint ascii_upper (s : string) : string :=
  match s with
  | EmptyString => EmptyString
  | String c s' => String (upper_ascii c) (ascii_upper s')
  end.

(** Truthiness of an optional string: [None] and [""] are falsy. *)
Definition truthy (o : option string) : bool :=
  match o with
  | None => false
  | Some s => negb (String.eqb s "")
  end.

(** [o == s] for a value [o] that is either [None] or a [str]. *)
Definition py_eq (o : option string) (s : string) : bool :=
  match o with
  | None => false
  | Some s' => String.eqb s' s
  end.

(** Exceptions the modelled code can raise. *)
Inductive exn :=
| KeyError
| AttributeError
| TypeError
| ValueError
| UnboundLocalError
| ValidationError
| ProvisioningError
| NotFound
| DataError.

Inductive outcome (A : Type) :=
| Returned (x : A)
| Raised (e : exn).
Arguments Returned {A} x.
Arguments Raised {A} e.

(** ** models/application.py *)

Module Status.

(** [Application.Status], the eleven members in the order of the class. *)
Inductive t :=
| DRAFT
| PAYMENT_DUE
| PAID
| AUTO_APPROVED
| PROVISIONALLY_APPROVED
| FULL_REVIEW_APPROVED
| PROVISIONAL_REVIEW
| ADDITIONAL_INFO_REQUESTED
| FULL_REVIEW
| DECLINED
| PROVISIONAL.

#[global] Instance eq_dec : EqDecision t.
Proof. solve_decision. Defined.

Definition eqb (a b : t) : bool := bool_decide (a = b).

Definition all : list t :=
  [DRAFT; PAYMENT_DUE; PAID; AUTO_APPROVED; PROVISIONALLY_APPROVED;
   FULL_REVIEW_APPROVED; PROVISIONAL_REVIEW; ADDITIONAL_INFO_REQUESTED;
   FULL_REVIEW; DECLINED; PROVISIONAL].

(** Modelled from the spec: the value of a member.  [BaseEnum] and its
    [auto()] (strr_api/common/enum.py) are not among the sources; the spec
    has the statuses as an enumeration matched by name against status
    strings, so a member is the string of its name. *)
Definition name (s : t) : string :=
  match s with
  | DRAFT => "DRAFT"
  | PAYMENT_DUE => "PAYMENT_DUE"
  | PAID => "PAID"
  | AUTO_APPROVED => "AUTO_APPROVED"
  | PROVISIONALLY_APPROVED => "PROVISIONALLY_APPROVED"
  | FULL_REVIEW_APPROVED => "FULL_REVIEW_APPROVED"
  | PROVISIONAL_REVIEW => "PROVISIONAL_REVIEW"
  | ADDITIONAL_INFO_REQUESTED => "ADDITIONAL_INFO_REQUESTED"
  | FULL_REVIEW => "FULL_REVIEW"
  | DECLINED => "DECLINED"
  | PROVISIONAL => "PROVISIONAL"
  end.

(** The member a string compares equal to, if any. *)
Definition of_string (s : string) : option t :=
  List.find (fun st => String.eqb s (name st)) all.

(** [s in l] for a string [s] and a list [l] of members. *)
Definition str_in (s : string) (l : list t) : bool :=
  existsb (fun st => String.eqb s (name st)) l.

(** [s in l] for a member [s]. *)
Definition mem (s : t) (l : list t) : bool :=
  existsb (eqb s) l.

End Status.

Module Application.

(** A row of the [application] table / an in-memory [Application]. *)
Record t := mk {
  id : nat;
  application_json : json;
  application_date : Z;
  type : string;
  status : Status.t;
  decision_date : option Z;
  invoice_id : option Z;
  payment_status_code : option string;
  payment_completion_date : option Z;
  payment_account : option string;
  registration_id : option nat;
  submitter_id : option nat;
  reviewer_id : option nat
}.

(** Attribute assignments [application.f = v]. *)
Definition set_status (v : Status.t) (a : t) : t :=
  mk (id a) (application_json a) (application_date a) (type a) v
     (decision_date a) (invoice_id a) (payment_status_code a)
     (payment_completion_date a) (payment_account a) (registration_id a)
     (submitter_id a) (reviewer_id a).

Definition set_decision_date (v : option Z) (a : t) : t :=
  mk (id a) (application_json a) (application_date a) (type a) (status a)
     v (invoice_id a) (payment_status_code a)
     (payment_completion_date a) (payment_account a) (registration_id a)
     (submitter_id a) (reviewer_id a).

Definition set_invoice_id (v : option Z) (a : t) : t :=
  mk (id a) (application_json a) (application_date a) (type a) (status a)
     (decision_date a) v (payment_status_code a)
     (payment_completion_date a) (payment_account a) (registration_id a)
     (submitter_id a) (reviewer_id a).

Definition set_payment_status_code (v : option string) (a : t) : t :=
  mk (id a) (application_json a) (application_date a) (type a) (status a)
     (decision_date a) (invoice_id a) v
     (payment_completion_date a) (payment_account a) (registration_id a)
     (submitter_id a) (reviewer_id a).

Definition set_payment_completion_date (v : option Z) (a : t) : t :=
  mk (id a) (application_json a) (application_date a) (type a) (status a)
     (decision_date a) (invoice_id a) (payment_status_code a)
     v (payment_account a) (registration_id a)
     (submitter_id a) (reviewer_id a).

Definition set_payment_account (v : option string) (a : t) : t :=
  mk (id a) (application_json a) (application_date a) (type a) (status a)
     (decision_date a) (invoice_id a) (payment_status_code a)
     (payment_completion_date a) v (registration_id a)
     (submitter_id a) (reviewer_id a).

Definition set_registration_id (v : option nat) (a : t) : t :=
  mk (id a) (application_json a) (application_date a) (type a) (status a)
     (decision_date a) (invoice_id a) (payment_status_code a)
     (payment_completion_date a) (payment_account a) v
     (submitter_id a) (reviewer_id a).

Definition set_reviewer_id (v : option nat) (a : t) : t :=
  mk (id a) (application_json a) (application_date a) (type a) (status a)
     (decision_date a) (invoice_id a) (payment_status_code a)
     (payment_completion_date a) (payment_account a) (registration_id a)
     (submitter_id a) v.

(** [ApplicationSearch] (strr_api/models/dataclass.py): the fields the
    queries read. *)
Record ApplicationSearch := {
  filter_status : option string;
  page : Z;
  limit : Z
}.

(** The object [Query.paginate] returns: the page's rows and the number
    of rows of the whole query. *)
Record Pagination := {
  items : list t;
  total : nat
}.

(** [Query.paginate(page=, per_page=)] of Flask-SQLAlchemy, library code
    that the model calls with the page and the page size only, so that
    [error_out] is the library's default, on.  The page size is first cut
    to [max_per_page], the cap the library applies when it has one; a page
    or page size below 1 then aborts with 404, and so does a page other
    than the first that holds no row.  With [error_out] off, the page
    falls back to 1 and the page size to 20. *)
Definition paginate (max_per_page : option Z) (error_out : bool)
    (rows : list t) (per_page page : Z) : outcome Pagination :=
  let per_page :=
    match max_per_page with
    | Some cap => Z.min per_page cap
    | None => per_page
    end in
  if error_out && ((page <? 1)%Z || (per_page <? 1)%Z) then Raised NotFound
  else
    let page := if (page <? 1)%Z then 1%Z else page in
    let per_page := if (per_page <? 1)%Z then 20%Z else per_page in
    let its := take (Z.to_nat per_page)
                    (drop (Z.to_nat ((page - 1) * per_page)) rows) in
    if error_out && bool_decide (its = []) && negb (page =? 1)%Z
    then Raised NotFound
    else Returned {| items := its; total := length rows |}.

(** The page size is within the library's cap, when there is one. *)
Definition within_cap (max_per_page : option Z) (per_page : Z) : Prop :=
  forall cap, max_per_page = Some cap -> (per_page <= cap)%Z.

(** [ORDER BY id DESC]. *)
Definition id_desc (a b : t) : Prop := id b ≤ id a.

#[global] Instance id_desc_dec : RelDecision id_desc.
Proof. intros a b. unfold id_desc. apply _. Defined.

Definition order_by_id_desc (rows : list t) : list t :=
  merge_sort id_desc rows.

Section Text.

(** [str.upper]. *)
Variable upper : string -> string.

(** The rows [find_by_user_and_account] selects, before ordering. *)
Definition matching (user_id : nat) (account_id : option string)
    (filter_criteria : ApplicationSearch) (is_examiner : bool)
    (rows : list t) : list t :=
  let query := rows in
  let query :=
    if negb is_examiner then
      List.filter (fun a => bool_decide (payment_account a = account_id))
        (List.filter (fun a => bool_decide (submitter_id a = Some user_id))
           query)
    else query in
  if truthy (filter_status filter_criteria) then
    List.filter
      (fun a => py_eq (upper <$> filter_status filter_criteria)
                      (Status.name (status a)))
      query
  else query.

(** [max_per_page] is the library's default cap, which the call leaves
    in force; [rows] is the content of the table. *)
Definition find_by_user_and_account (max_per_page : option Z)
    (rows : list t) (user_id : nat) (account_id : option string)
    (filter_criteria : ApplicationSearch) (is_examiner : bool)
  : outcome Pagination :=
  let query :=
    matching user_id account_id filter_criteria is_examiner rows in
  let query := order_by_id_desc query in
  paginate max_per_page true query (limit filter_criteria)
    (page filter_criteria).

End Text.

End Application.

Module Registration.

(** What the lifecycle reads of a [Registration]: its primary key. *)
Record t := { id : nat }.

End Registration.

Module User.

Record t := { id : nat }.

End User.

Module Events.

Inductive EventType := APPLICATION | REGISTRATION.

Inductive EventName :=
| APPLICATION_SUBMITTED
| PAYMENT_COMPLETE
| REGISTRATION_CREATED
| MANUALLY_APPROVED
| MANUALLY_DENIED
| MORE_INFORMATION_REQUESTED.

#[global] Instance name_eq_dec : EqDecision EventName.
Proof. solve_decision. Defined.

Record t := {
  event_type : EventType;
  event_name : EventName;
  application_id : nat;
  registration_id : option nat
}.

End Events.

(** ** services/application_service.py *)

Module ApplicationService.

Import Status.

Definition APPLICATION_TERMINAL_STATES : list Status.t :=
  [FULL_REVIEW_APPROVED; PROVISIONALLY_APPROVED; AUTO_APPROVED; DECLINED].

Definition APPLICATION_STATES_STAFF_ACTION : list Status.t :=
  [FULL_REVIEW_APPROVED; PROVISIONALLY_APPROVED; DECLINED;
   ADDITIONAL_INFO_REQUESTED].

Definition APPLICATION_UNPAID_STATES : list Status.t :=
  [DRAFT; PAYMENT_DUE].

(** Modelled from the spec: the values of the [PaymentStatus] enum
    (strr_api/enums/enum.py is not among the sources); the spec names the
    payment status codes CREATED, COMPLETED and APPROVED. *)
Definition PaymentStatus_CREATED : string := "CREATED".
Definition PaymentStatus_COMPLETED : string := "COMPLETED".
Definition PaymentStatus_APPROVED : string := "APPROVED".

(** The keys of the [invoice_details] dict the service reads.
    [inv_id = None]: no ["id"] key; [Some o]: the value under the key,
    [None] for a JSON null.  [inv_paymentAccount = None]: no dict under
    ["paymentAccount"]; [Some o]: a dict whose ["accountId"] is [o]. *)
Record InvoiceDetails := {
  inv_id : option (option Z);
  inv_paymentAccount : option (option string);
  inv_statusCode : option string;
  inv_paymentDate : option string
}.

(** What the code does to the database, in the order it does it. *)
Inductive Effect :=
| Saved (a : Application.t)
| Logged (e : Events.t)
| Provisioned (submitter_id : option nat) (account_id : option string)
              (data : json) (r : Registration.t).

(** The interpreter state: the in-memory application object and the
    effects performed so far. *)
Record Mem := {
  obj : Application.t;
  effects : list Effect
}.

Definition M (A : Type) : Type := Mem -> outcome A * Mem.

Definition ret {A} (x : A) : M A := fun m => (Returned x, m).

Definition raise {A} (e : exn) : M A := fun m => (Raised e, m).

Definition bind {A B} (c : M A) (k : A -> M B) : M B :=
  fun m =>
    match c m with
    | (Returned x, m') => k x m'
    | (Raised e, m') => (Raised e, m')
    end.

Declare Scope py_scope.
Notation "x ← c ; k" := (bind c (fun x => k))
  (at level 20, c at level 100, k at level 200, only parsing) : py_scope.
Notation "c ;; k" := (bind c (fun _ => k))
  (at level 100, k at level 200, only parsing, right associativity)
  : py_scope.
Open Scope py_scope.

(** Reading and assigning attributes of the application object. *)
Definition get {A} (f : Application.t -> A) : M A :=
  fun m => (Returned (f (obj m)), m).

(** The application object itself ([return application]). *)
Definition this : M Application.t :=
  fun m => (Returned (obj m), m).

Definition assign (f : Application.t -> Application.t) : M unit :=
  fun m => (Returned tt, {| obj := f (obj m); effects := effects m |}).

Definition perform (e : Effect) : M unit :=
  fun m => (Returned tt, {| obj := obj m; effects := effects m ++ [e] |}).

(** A value that must be present, else the given exception. *)
Definition expect {A} (o : option A) (e : exn) : M A :=
  match o with
  | Some x => ret x
  | None => raise e
  end.

(** The [status] column is declared [db.String(20)]: the database takes
    a status of at most twenty characters. *)
Definition status_fits (a : Application.t) : bool :=
  (String.length (Status.name (Application.status a)) <=? 20)%nat.

(** Modelled from the spec: [application.save()] ([BaseModel.save] is
    not among the sources) persists the application: the row takes the
    object's current fields.  The database refuses a status that does not
    fit its column; the save then raises and writes nothing.  Otherwise
    the save is taken to succeed. *)
Definition save : M unit :=
  fun m =>
    if status_fits (obj m)
    then (Returned tt,
          {| obj := obj m; effects := effects m ++ [Saved (obj m)] |})
    else (Raised DataError, m).

(** Modelled from the spec: [EventsService.save_event] (not among the
    sources) appends one event, of the given type and name, tied to the
    application and optionally to a registration.  It is taken to
    succeed. *)
Definition save_event (event_type : Events.EventType)
    (event_name : Events.EventName) (application_id : nat)
    (registration_id : option nat) : M unit :=
  perform (Logged {| Events.event_type := event_type;
                     Events.event_name := event_name;
                     Events.application_id := application_id;
                     Events.registration_id := registration_id |}).

Section Collaborators.

(** [datetime.fromisoformat] on a string; [None] when it raises
    [ValueError]. *)
Variable fromisoformat : string -> option Z.

(** The [registration] part of the [RegistrationRequest] built from the
    entries of [application_json]; [None] when the request model rejects
    them. *)
Variable registration_request : json -> option json.

(** [RegistrationService.create_registration]; it may consult the
    database, hence the effects so far; [None] when it fails. *)
Variable create_registration :
  list Effect -> option nat -> option string -> json ->
  option Registration.t.

Definition update_application_payment_details_and_status
    (now : Z) (invoice_details : InvoiceDetails) : M Application.t :=
  code ← get Application.payment_status_code;
  if py_eq code "COMPLETED" then this
  else
    invoice ← expect (inv_id invoice_details) KeyError;
    assign (Application.set_invoice_id invoice);;
    account ← expect (inv_paymentAccount invoice_details) AttributeError;
    assign (Application.set_payment_account account);;
    assign (Application.set_payment_status_code
              (inv_statusCode invoice_details));;
    st ← get Application.status;
    code ← get Application.payment_status_code;
    (if Status.eqb st DRAFT && py_eq code PaymentStatus_CREATED then
       assign (Application.set_status PAYMENT_DUE);;
       application_id ← get Application.id;
       save_event Events.APPLICATION Events.APPLICATION_SUBMITTED
                  application_id None
     else if py_eq code PaymentStatus_COMPLETED then
       assign (Application.set_status PAID);;
       text ← expect (inv_paymentDate invoice_details) TypeError;
       date ← expect (fromisoformat text) ValueError;
       assign (Application.set_payment_completion_date (Some date))
     else if py_eq code PaymentStatus_APPROVED then
       assign (Application.set_payment_status_code
                 (Some PaymentStatus_COMPLETED));;
       assign (Application.set_status PAID);;
       assign (Application.set_payment_completion_date (Some now))
     else ret tt);;
    save;;
    code ← get Application.payment_status_code;
    (if py_eq code PaymentStatus_COMPLETED then
       application_id ← get Application.id;
       save_event Events.APPLICATION Events.PAYMENT_COMPLETE
                  application_id None
     else ret tt);;
    this.

(** [event_name] is bound in three branches only; the [return] reads
    an unbound local for every other status. *)
Definition _get_event_name (application_status : Status.t)
  : outcome Events.EventName :=
  if Status.eqb application_status FULL_REVIEW_APPROVED then
    Returned Events.MANUALLY_APPROVED
  else if Status.eqb application_status DECLINED then
    Returned Events.MANUALLY_DENIED
  else if Status.eqb application_status ADDITIONAL_INFO_REQUESTED then
    Returned Events.MORE_INFORMATION_REQUESTED
  else Raised UnboundLocalError.

Definition update_application_status (now : Z)
    (application_status : Status.t) (reviewer : User.t)
  : M Application.t :=
  assign (Application.set_status application_status);;
  st ← get Application.status;
  (if Status.eqb st FULL_REVIEW_APPROVED then
     payload ← get Application.application_json;
     data ← match payload with
            | JDict _ => expect (registration_request payload) ValidationError
            | _ => raise TypeError
            end;
     submitter ← get Application.submitter_id;
     account ← get Application.payment_account;
     registration ←
       (fun m => expect (create_registration (effects m) submitter
                                             account data)
                        ProvisioningError m);
     perform (Provisioned submitter account data registration);;
     application_id ← get Application.id;
     save_event Events.REGISTRATION Events.REGISTRATION_CREATED
                application_id (Some (Registration.id registration));;
     assign (Application.set_registration_id
               (Some (Registration.id registration)))
   else ret tt);;
  st ← get Application.status;
  (if Status.mem st APPLICATION_TERMINAL_STATES then
     assign (Application.set_decision_date (Some now));;
     assign (Application.set_reviewer_id (Some (User.id reviewer)))
   else ret tt);;
  save;;
  st ← get Application.status;
  event_name ← (fun m => (_get_event_name st, m));
  application_id ← get Application.id;
  save_event Events.APPLICATION event_name application_id None;;
  this.

End Collaborators.

(** *** The database as seen through a trace *)

(** The event log: the events of the trace, oldest first. *)
Definition events_of (w : list Effect) : list Events.t :=
  omap (fun e => match e with Logged ev => Some ev | _ => None end) w.

(** The rows saved, oldest first. *)
Definition saves_of (w : list Effect) : list Application.t :=
  omap (fun e => match e with Saved a => Some a | _ => None end) w.

(** The [application] table: each save writes the row of its primary
    key. *)
Definition write (t : gmap nat Application.t) (e : Effect)
  : gmap nat Application.t :=
  match e with
  | Saved a => <[Application.id a := a]> t
  | _ => t
  end.

Definition applications (w : list Effect) : gmap nat Application.t :=
  foldl write ∅ w.

(** [Application.find_by_id]: [one_or_none] on the primary key. *)
Definition find_by_id (w : list Effect) (application_id : nat)
  : option Application.t :=
  applications w !! application_id.

(** [UserContext] (strr_api/utils/user_context.py): what the service
    reads of it, with the user [get_or_create_user_by_jwt] resolves. *)
Record UserContext := {
  user : User.t;
  is_examiner : bool;
  is_system : bool
}.

(** [Application.get_application]: the class [Application]
    (models/application.py) has no attribute of that name, so the call
    raises [AttributeError]. *)
Definition Application_get_application (w : list Effect) (user_id : nat)
    (account_id : option string) (application_id : nat)
  : outcome (option Application.t) :=
  Raised AttributeError.

Definition is_user_authorized_for_application (ctx : UserContext)
    (w : list Effect) (user_id : nat) (account_id : option string)
    (application_id : nat) : outcome bool :=
  if is_examiner ctx || is_system ctx then Returned true
  else
    match Application_get_application w user_id account_id application_id with
    | Returned (Some _) => Returned true
    | Returned None => Returned false
    | Raised e => Raised e
    end.

Definition get_application (ctx : UserContext) (w : list Effect)
    (application_id : nat) (account_id : option string)
  : outcome (option Application.t) :=
  match is_user_authorized_for_application ctx w (User.id (user ctx))
          account_id application_id with
  | Returned true => Returned (find_by_id w application_id)
  | Returned false => Returned None
  | Raised e => Raised e
  end.

(** Modelled from the spec: the value of [ApplicationType.REGISTRATION]
    (strr_api/enums/enum.py is not among the sources). *)
Definition ApplicationType_REGISTRATION : string := "REGISTRATION".

(** [save_application]: a new object, whose unset columns are [None]
    and whose status takes the column default; the insert gives it a
    primary key no row has. *)
Definition save_application (ctx : UserContext) (now : Z)
    (account_id : option string) (request_json : json) (w : list Effect)
  : Application.t * list Effect :=
  let application :=
    Application.mk (fresh (dom (applications w))) request_json now
      ApplicationType_REGISTRATION DRAFT None None None None account_id
      None (Some (User.id (user ctx))) None in
  (application, w ++ [Saved application]).

(** *** Abbreviations used to state what the functions leave behind *)

(** The effect of one [save_event]. *)
Definition logged (type : Events.EventType) (name : Events.EventName)
    (application_id : nat) (registration_id : option nat) : Effect :=
  Logged {| Events.event_type := type; Events.event_name := name;
            Events.application_id := application_id;
            Events.registration_id := registration_id |}.

(** The effects performed between the states [m] and [m']. *)
Definition appended (m m' : Mem) : list Effect :=
  drop (length (effects m)) (effects m').

(** The assignments of the APPROVED branch, in the order of the code. *)
Definition paid_on_approval (now : Z) (invoice : option Z)
    (account : option string) (a : Application.t) : Application.t :=
  Application.set_payment_completion_date (Some now)
    (Application.set_status PAID
       (Application.set_payment_status_code (Some "COMPLETED")
          (Application.set_payment_status_code (Some "APPROVED")
             (Application.set_payment_account account
                (Application.set_invoice_id invoice a))))).

(** The assignments of the DRAFT-and-CREATED branch. *)
Definition due_on_creation (invoice : option Z) (account : option string)
    (a : Application.t) : Application.t :=
  Application.set_status PAYMENT_DUE
    (Application.set_payment_status_code (Some "CREATED")
       (Application.set_payment_account account
          (Application.set_invoice_id invoice a))).

(** The two assignments of the terminal-state branch. *)
Definition decided (now : Z) (reviewer : User.t) (a : Application.t)
  : Application.t :=
  Application.set_reviewer_id (Some (User.id reviewer))
    (Application.set_decision_date (Some now) a).

(** The assignments of a successful approval. *)
Definition approved_with (now : Z) (reviewer : User.t)
    (registration : Registration.t) (a : Application.t) : Application.t :=
  decided now reviewer
    (Application.set_registration_id (Some (Registration.id registration))
       (Application.set_status FULL_REVIEW_APPROVED a)).

(** Every logged event whose name satisfies [p] comes before every save
    of the call and is followed by one. *)
Definition is_save (e : Effect) : bool :=
  match e with Saved _ => true | _ => false end.

Definition is_logged (p : Events.EventName -> bool) (e : Effect) : bool :=
  match e with Logged ev => p (Events.event_name ev) | _ => false end.

Fixpoint logged_before_save (p : Events.EventName -> bool)
    (l : list Effect) : bool :=
  match l with
  | [] => true
  | Saved _ :: l' => negb (existsb (is_logged p) l')
  | Logged ev :: l' =>
      (negb (p (Events.event_name ev)) || existsb is_save l')
      && logged_before_save p l'
  | Provisioned _ _ _ _ :: l' => logged_before_save p l'
  end.

(** A row with a completed payment is no draft. *)
Definition settled (a : Application.t) : Prop :=
  Application.payment_status_code a = Some "COMPLETED" ->
  Application.status a <> DRAFT.

(** Every logged event whose name satisfies [p] comes after a save of the
    same call ([saved]: a save was seen already). *)
Fixpoint logged_after_save (p : Events.EventName -> bool) (saved : bool)
    (l : list Effect) : bool :=
  match l with
  | [] => true
  | Saved _ :: l' => logged_after_save p true l'
  | Logged ev :: l' =>
      (negb (p (Events.event_name ev)) || saved)
      && logged_after_save p saved l'
  | Provisioned _ _ _ _ :: l' => logged_after_save p saved l'
  end.

(** The events that close a call: the payment event and the three
    status events. *)
Definition closing_event (n : Events.EventName) : bool :=
  match n with
  | Events.APPLICATION_SUBMITTED | Events.REGISTRATION_CREATED => false
  | _ => true
  end.

End ApplicationService.

(** ** The serializer of models/application.py *)

Module ApplicationSerializer.

Definition HOST_STATUSES : list (Status.t * string) :=
  [(Status.DRAFT, "Draft");
   (Status.PAYMENT_DUE, "Payment Due");
   (Status.PAID, "Pending Review");
   (Status.AUTO_APPROVED, "Approved");
   (Status.PROVISIONALLY_APPROVED, "Provisionally Approved");
   (Status.FULL_REVIEW_APPROVED, "Approved");
   (Status.PROVISIONAL_REVIEW, "Provisionally Approved");
   (Status.FULL_REVIEW, "Pending Review");
   (Status.DECLINED, "Declined")].

Definition EXAMINER_STATUSES : list (Status.t * string) :=
  [(Status.DRAFT, "Draft");
   (Status.PAYMENT_DUE, "Payment Due");
   (Status.PAID, "Paid");
   (Status.AUTO_APPROVED, "Automatic Approval");
   (Status.PROVISIONALLY_APPROVED, "Provisional Approval");
   (Status.FULL_REVIEW_APPROVED, "Full Review Approval");
   (Status.PROVISIONAL_REVIEW, "Provisional Review");
   (Status.FULL_REVIEW, "Full Review");
   (Status.DECLINED, "Declined")].

(** [labels.get(status, default)]. *)
Fixpoint get (labels : list (Status.t * string)) (status : Status.t)
    (default : string) : string :=
  match labels with
  | [] => default
  | (st, label) :: labels' =>
      if Status.eqb st status then label else get labels' status default
  end.

(** The values [to_dict] writes under [hostStatus] and
    [examinerStatus]. *)
Definition hostStatus (application : Application.t) : string :=
  get HOST_STATUSES (Application.status application) "".

Definition examinerStatus (application : Application.t) : string :=
  get EXAMINER_STATUSES (Application.status application) "".

(** Truthiness of a JSON value. *)
Definition json_truthy (v : json) : bool :=
  match v with
  | JNull => false
  | JBool b => b
  | JNum z => negb (z =? 0)%Z
  | JStr s => negb (String.eqb s "")
  | JList l => match l with [] => false | _ => true end
  | JDict d => match d with [] => false | _ => true end
  end.

(** [d.get(key)] and [d[key] = value] on a dict kept in insertion order:
    an assignment to a key of the dict replaces its value in place, an
    assignment to a new key adds it at the end. *)
Fixpoint dict_get (key : string) (d : list (string * json))
  : option json :=
  match d with
  | [] => None
  | (k, v) :: d' => if String.eqb k key then Some v else dict_get key d'
  end.

Fixpoint dict_set (key : string) (value : json) (d : list (string * json))
  : list (string * json) :=
  match d with
  | [] => [(key, value)]
  | (k, v) :: d' =>
      if String.eqb k key then (k, value) :: d'
      else (k, v) :: dict_set key value d'
  end.

(** Modelled from the use [to_dict] makes of them (the models of the
    users and of the registrations are not among the sources): the
    columns read of [application.submitter] and [application.reviewer],
    and of [application.registration]. *)
Record Person := {
  username : option string;
  firstname : option string;
  lastname : option string
}.

Record Details := {
  start_date : Z;
  expiry_date : Z;
  registration_status : string;
  registration_number : option string
}.

Definition of_str (o : option string) : json :=
  match o with
  | Some s => JStr s
  | None => JNull
  end.

Section Relationships.

(** [datetime.isoformat]. *)
Variable isoformat : Z -> string.

(** The rows the relationships of an application lead to, by primary
    key. *)
Variable users : nat -> option Person.
Variable registrations : nat -> option Details.

(** The display name of a user, as the two f-strings build it. *)
Definition display_name (p : Person) : string :=
  let display_name := "" in
  let display_name :=
    if truthy (firstname p)
    then display_name +:+ default "" (firstname p)
    else display_name in
  if truthy (lastname p)
  then display_name +:+ " " +:+ default "" (lastname p)
  else display_name.

(** The dict left under [submitter] and under [reviewer]: empty when the
    foreign key is [None] or 0, else the two entries of the related user;
    without a related user the attribute access raises ([None]). *)
Definition related (user_id : option nat) : option json :=
  match user_id with
  | Some (S _ as i) =>
      match users i with
      | Some p =>
          Some (JDict [("username", of_str (username p));
                       ("displayName", JStr (display_name p))])
      | None => None
      end
  | _ => Some (JDict [])
  end.

(** The five entries written for an application with a registration. *)
Definition with_registration (application : Application.t)
    (header : list (string * json)) : option (list (string * json)) :=
  match Application.registration_id application with
  | Some (S _ as r) =>
      match registrations r with
      | Some registration =>
          let header := dict_set "registrationId" (JNum (Z.of_nat r))
                          header in
          let header := dict_set "registrationStartDate"
                          (JStr (isoformat (start_date registration)))
                          header in
          let header := dict_set "registrationEndDate"
                          (JStr (isoformat (expiry_date registration)))
                          header in
          let header := dict_set "registrationStatus"
                          (JStr (registration_status registration))
                          header in
          let header := dict_set "registrationNumber"
                          (of_str (registration_number registration))
                          header in
          Some header
      | None => None
      end
  | _ => Some header
  end.

(** The ten entries written from the columns of the row. *)
Definition with_columns (application : Application.t)
    (header : list (string * json)) : list (string * json) :=
  let header := dict_set "id"
                  (JNum (Z.of_nat (Application.id application))) header in
  let header := dict_set "name" (JStr (Application.type application))
                  header in
  let header := dict_set "paymentToken"
                  (match Application.invoice_id application with
                   | Some i => JNum i
                   | None => JNull
                   end) header in
  let header := dict_set "paymentStatus"
                  (of_str (Application.payment_status_code application))
                  header in
  let header := dict_set "paymentAccount"
                  (of_str (Application.payment_account application))
                  header in
  let header := dict_set "status"
                  (JStr (Status.name (Application.status application)))
                  header in
  let header := dict_set "hostStatus" (JStr (hostStatus application))
                  header in
  let header := dict_set "examinerStatus"
                  (JStr (examinerStatus application)) header in
  let header := dict_set "applicationDateTime"
                  (JStr (isoformat
                           (Application.application_date application)))
                  header in
  dict_set "decisionDate"
    (match Application.decision_date application with
     | Some d => JStr (isoformat d)
     | None => JNull
     end) header.

(** [to_dict]; [None] when it raises: the stored document is no dict, its
    [header] is truthy and no dict, or a related row is missing. *)
Definition to_dict (application : Application.t) : option json :=
  match Application.application_json application with
  | JDict application_dict =>
      let application_dict :=
        if json_truthy (default JNull (dict_get "header" application_dict))
        then application_dict
        else dict_set "header" (JDict []) application_dict in
      match dict_get "header" application_dict with
      | Some (JDict header) =>
          let header := with_columns application header in
          match related (Application.submitter_id application),
                related (Application.reviewer_id application) with
          | Some submitter, Some reviewer =>
              let header := dict_set "submitter" submitter header in
              let header := dict_set "reviewer" reviewer header in
              match with_registration application header with
              | Some header =>
                  Some (JDict (dict_set "header" (JDict header)
                                 application_dict))
              | None => None
              end
          | _, _ => None
          end
      | _ => None
      end
  | _ => None
  end.

End Relationships.

(** The header the serializer starts from: the one of the stored
    document when it is a dict with entries, else an empty one. *)
Definition stored_header (application_dict : list (string * json))
  : list (string * json) :=
  match dict_get "header" application_dict with
  | Some (JDict header) => header
  | _ => []
  end.

(** The keys [to_dict] writes for every application, and those it writes
    for an application with a registration. *)
Definition row_keys : list string :=
  ["id"; "name"; "paymentToken"; "paymentStatus"; "paymentAccount";
   "status"; "hostStatus"; "examinerStatus"; "applicationDateTime";
   "decisionDate"; "submitter"; "reviewer"].

Definition registration_keys : list string :=
  ["registrationId"; "registrationStartDate"; "registrationEndDate";
   "registrationStatus"; "registrationNumber"].

(** [if application.registration_id]. *)
Definition has_registration (application : Application.t) : bool :=
  match Application.registration_id application with
  | Some (S _) => true
  | _ => false
  end.

End ApplicationSerializer.

(** ** resources/application.py *)

Module Resource.

Import ApplicationService.

Inductive HTTPStatus :=
| OK
| CREATED
| BAD_REQUEST
| NOT_FOUND
| INTERNAL_SERVER_ERROR
| BAD_GATEWAY
| UNAUTHORIZED.

Inductive ErrorMessage :=
| INVALID_REQUEST
| INVALID_APPLICATION_STATUS
| APPLICATION_NOT_FOUND
| APPLICATION_TERMINAL_STATE
| PROCESSING_ERROR
| ACCOUNT_ID_MISSING
| EXTERNAL_SERVICE_ERROR
| NOT_AUTHORIZED.

(** A response: an error body or the serialized application, with the
    HTTP status. *)
Inductive Response :=
| error_response (message : ErrorMessage) (http_status : HTTPStatus)
| jsonify (application : Application.t) (http_status : HTTPStatus).

Definition http_status_of (r : Response) : HTTPStatus :=
  match r with
  | error_response _ c => c
  | jsonify _ c => c
  end.

Section Collaborators.

Variable fromisoformat : string -> option Z.
Variable registration_request : json -> option json.
Variable create_registration :
  list Effect -> option nat -> option string -> json ->
  option Registration.t.

(** [validate] and [validate_request] of the request layer. *)
Variable validate : json -> bool.

(** [str.upper]. *)
Variable upper : string -> string.

(** What the serializer reads beside the application: [isoformat] of a
    date, and the rows the relationships of an application lead to in a
    given database. *)
Variable isoformat : Z -> string.
Variable users : list Effect -> nat -> option ApplicationSerializer.Person.
Variable registrations :
  list Effect -> nat -> option ApplicationSerializer.Details.

(** [jsonify(ApplicationService.serialize(application)), http_status]:
    [serialize] is [ApplicationSerializer.to_dict], called once the
    service has returned.  When it raises, the status endpoint catches the
    exception and answers 500; the two other endpoints do not catch it,
    which ends in a 500 as well. *)
Definition serialized (application : Application.t)
    (http_status : HTTPStatus) (w : list Effect) : Response :=
  match ApplicationSerializer.to_dict isoformat (users w) (registrations w)
          application with
  | Some _ => jsonify application http_status
  | None => error_response PROCESSING_ERROR INTERNAL_SERVER_ERROR
  end.

(** The checks [update_application_status] makes before it calls the
    service: on the left the response it returns at once, on the right
    the application and the status it hands to the service.  An exception
    of [get_application] is caught by the handler and answered 500. *)
Definition status_guard (ctx : UserContext) (application_id : nat)
    (status : option string) (w : list Effect)
  : Response + Application.t * Status.t :=
  if negb (truthy status)
     || negb (Status.str_in (default "" (upper <$> status))
                            APPLICATION_STATES_STAFF_ACTION)
  then inl (error_response INVALID_APPLICATION_STATUS BAD_REQUEST)
  else
    match get_application ctx w application_id None with
    | Raised _ => inl (error_response PROCESSING_ERROR INTERNAL_SERVER_ERROR)
    | Returned None => inl (error_response APPLICATION_NOT_FOUND NOT_FOUND)
    | Returned (Some application) =>
        if Status.mem (Application.status application)
                      APPLICATION_TERMINAL_STATES
        then inl (error_response APPLICATION_TERMINAL_STATE BAD_REQUEST)
        else
          match Status.of_string (default "" (upper <$> status)) with
          | Some st => inr (application, st)
          | None =>
              inl (error_response PROCESSING_ERROR INTERNAL_SERVER_ERROR)
          end
    end.

(** PUT /<application_id>/status.  Any exception of the service is
    caught and answered with 500; what was saved or logged before the
    raise stays. *)
Definition update_application_status (ctx : UserContext)
    (application_id : nat) (status : option string) (now : Z)
    (w : list Effect) : Response * list Effect :=
  match status_guard ctx application_id status w with
  | inl response => (response, w)
  | inr (application, st) =>
      match ApplicationService.update_application_status
              registration_request create_registration now st (user ctx)
              {| obj := application; effects := w |} with
      | (Returned _, m) => (serialized (obj m) OK (effects m), effects m)
      | (Raised _, m) =>
          (error_response PROCESSING_ERROR INTERNAL_SERVER_ERROR,
           effects m)
      end
  end.

(** PUT /<application_id>/payment-details.  [invoice] is what the
    payment service answers, [None] when the call fails.  An exception
    of [get_application] or of the service is not caught here and ends
    in a 500. *)
Definition update_application_payment_details (ctx : UserContext)
    (application_id : nat) (account_id : option string) (now : Z)
    (invoice : option InvoiceDetails) (w : list Effect)
  : Response * list Effect :=
  if negb (truthy account_id)
  then (error_response ACCOUNT_ID_MISSING BAD_REQUEST, w)
  else
    match get_application ctx w application_id account_id with
    | Raised _ => (error_response PROCESSING_ERROR INTERNAL_SERVER_ERROR, w)
    | Returned None => (error_response NOT_AUTHORIZED UNAUTHORIZED, w)
    | Returned (Some application) =>
        match invoice with
        | None => (error_response EXTERNAL_SERVICE_ERROR BAD_GATEWAY, w)
        | Some invoice_details =>
            match update_application_payment_details_and_status
                    fromisoformat now invoice_details
                    {| obj := application; effects := w |} with
            | (Returned _, m) =>
                (serialized (obj m) OK (effects m), effects m)
            | (Raised _, m) =>
                (error_response PROCESSING_ERROR INTERNAL_SERVER_ERROR,
                 effects m)
            end
        end
    end.

(** POST: validate, save the draft, ask for an invoice, reconcile.  The
    calls of [AccountService] between the validation and the save write
    to no application and are taken to return. *)
Definition create_application (ctx : UserContext)
    (account_id : option string) (json_input : json) (now : Z)
    (invoice : option InvoiceDetails) (w : list Effect)
  : Response * list Effect :=
  if negb (validate json_input)
  then (error_response INVALID_REQUEST BAD_REQUEST, w)
  else
    let '(application, w1) :=
      save_application ctx now account_id json_input w in
    match invoice with
    | None => (error_response EXTERNAL_SERVICE_ERROR BAD_GATEWAY, w1)
    | Some invoice_details =>
        match update_application_payment_details_and_status
                fromisoformat now invoice_details
                {| obj := application; effects := w1 |} with
        | (Returned _, m) =>
            (serialized (obj m) CREATED (effects m), effects m)
        | (Raised _, m) =>
            (error_response PROCESSING_ERROR INTERNAL_SERVER_ERROR,
             effects m)
        end
    end.

(** The requests that change applications. *)
Inductive Request :=
| CreateApplication (ctx : UserContext) (account_id : option string)
    (json_input : json) (now : Z) (invoice : option InvoiceDetails)
| UpdatePaymentDetails (ctx : UserContext) (application_id : nat)
    (account_id : option string) (now : Z)
    (invoice : option InvoiceDetails)
| UpdateStatus (ctx : UserContext) (application_id : nat)
    (status : option string) (now : Z).

Definition handle (r : Request) (w : list Effect)
  : Response * list Effect :=
  match r with
  | CreateApplication ctx account_id json_input now invoice =>
      create_application ctx account_id json_input now invoice w
  | UpdatePaymentDetails ctx application_id account_id now invoice =>
      update_application_payment_details ctx application_id account_id
        now invoice w
  | UpdateStatus ctx application_id status now =>
      update_application_status ctx application_id status now w
  end.

(** The database after a sequence of requests, from an empty one. *)
Definition run (rs : list Request) : list Effect :=
  foldl (fun w r => (handle r w).2) [] rs.

(** One call of the status endpoint, as a step relation. *)
Definition status_step (w w' : list Effect) : Prop :=
  exists ctx application_id status now,
    (update_application_status ctx application_id status now w).2 = w'.

(** The status request of [ctx] for [application_id], made on the
    database [w], takes the application through the transition to
    FULL_REVIEW_APPROVED: the request passes the checks of the endpoint
    with that status, and the service function, called on the application,
    returns. *)
Definition transitions_to_approved (ctx : UserContext)
    (application_id : nat) (status : option string) (now : Z)
    (w : list Effect) : Prop :=
  exists application a' m',
    status_guard ctx application_id status w
    = inr (application, Status.FULL_REVIEW_APPROVED)
    /\ ApplicationService.update_application_status registration_request
         create_registration now Status.FULL_REVIEW_APPROVED (user ctx)
         {| obj := application; effects := w |} = (Returned a', m').

(** The request [r], made on the database [w], approves the application
    [application_id]. *)
Definition approves (w : list Effect) (r : Request) (application_id : nat)
  : Prop :=
  exists ctx status now,
    r = UpdateStatus ctx application_id status now
    /\ transitions_to_approved ctx application_id status now w.

(** The application [application_id] was approved in [rs]: one of the
    requests was a status request that took it through the transition to
    FULL_REVIEW_APPROVED. *)
Definition approved (rs : list Request) (application_id : nat) : Prop :=
  exists rs1 rs2 ctx status now,
    rs = rs1 ++ UpdateStatus ctx application_id status now :: rs2
    /\ transitions_to_approved ctx application_id status now (run rs1).

End Collaborators.

End Resource.

(** ** Rows and their history

    Notions used to state what the endpoints keep true of the rows of the
    [application] table. *)

Module Rows.

Import ApplicationService.

(** The application [save_application] builds, under the key [k]. *)
Definition new_application (ctx : UserContext) (now : Z)
    (account_id : option string) (request_json : json) (k : nat)
  : Application.t :=
  Application.mk k request_json now ApplicationType_REGISTRATION
    Status.DRAFT None None None None account_id None
    (Some (User.id (user ctx))) None.

(** The assignments of the COMPLETED branch of the reconciliation. *)
Definition paid_on_completion (date : Z) (invoice : option Z)
    (account : option string) (a : Application.t) : Application.t :=
  Application.set_payment_completion_date (Some date)
    (Application.set_status Status.PAID
       (Application.set_payment_status_code (Some "COMPLETED")
          (Application.set_payment_account account
             (Application.set_invoice_id invoice a)))).

(** The three assignments every reconciliation past the guard makes. *)
Definition invoiced (invoice : option Z) (account : option string)
    (code : option string) (a : Application.t) : Application.t :=
  Application.set_payment_status_code code
    (Application.set_payment_account account
       (Application.set_invoice_id invoice a)).

(** The ways a reconciliation can reach its [save]: the application it
    leaves and the effects it performs, by branch. *)
Inductive reconciled (fromisoformat : string -> option Z) (now : Z)
    (inv : InvoiceDetails) (a : Application.t)
  : Application.t -> list Effect -> Prop :=
| reconciled_created invoice account :
    Application.payment_status_code a <> Some "COMPLETED" ->
    inv_id inv = Some invoice ->
    inv_paymentAccount inv = Some account ->
    inv_statusCode inv = Some "CREATED" ->
    Application.status a = Status.DRAFT ->
    reconciled fromisoformat now inv a
      (due_on_creation invoice account a)
      [logged Events.APPLICATION Events.APPLICATION_SUBMITTED
              (Application.id a) None;
       Saved (due_on_creation invoice account a)]
| reconciled_completed invoice account text date :
    Application.payment_status_code a <> Some "COMPLETED" ->
    inv_id inv = Some invoice ->
    inv_paymentAccount inv = Some account ->
    inv_statusCode inv = Some "COMPLETED" ->
    inv_paymentDate inv = Some text ->
    fromisoformat text = Some date ->
    reconciled fromisoformat now inv a
      (paid_on_completion date invoice account a)
      [Saved (paid_on_completion date invoice account a);
       logged Events.APPLICATION Events.PAYMENT_COMPLETE
              (Application.id a) None]
| reconciled_approved invoice account :
    Application.payment_status_code a <> Some "COMPLETED" ->
    inv_id inv = Some invoice ->
    inv_paymentAccount inv = Some account ->
    inv_statusCode inv = Some "APPROVED" ->
    reconciled fromisoformat now inv a
      (paid_on_approval now invoice account a)
      [Saved (paid_on_approval now invoice account a);
       logged Events.APPLICATION Events.PAYMENT_COMPLETE
              (Application.id a) None]
| reconciled_other invoice account :
    Application.payment_status_code a <> Some "COMPLETED" ->
    inv_id inv = Some invoice ->
    inv_paymentAccount inv = Some account ->
    inv_statusCode inv <> Some "COMPLETED" ->
    inv_statusCode inv <> Some "APPROVED" ->
    (inv_statusCode inv = Some "CREATED" ->
     Application.status a <> Status.DRAFT) ->
    status_fits a = true ->
    reconciled fromisoformat now inv a
      (invoiced invoice account (inv_statusCode inv) a)
      [Saved (invoiced invoice account (inv_statusCode inv) a)].

(** An event of the log. *)
Definition event (type : Events.EventType) (name : Events.EventName)
    (application_id : nat) (registration_id : option nat) : Events.t :=
  {| Events.event_type := type; Events.event_name := name;
     Events.application_id := application_id;
     Events.registration_id := registration_id |}.

(** The event a transition logs after its save: the one named after the
    status, when the status has one. *)
Definition status_events (st : Status.t) (k : nat) : list Events.t :=
  match _get_event_name st with
  | Returned name => [event Events.APPLICATION name k None]
  | Raised _ => []
  end.

(** One change of a row, with the events logged on the way: by a
    reconciliation that reaches its save, by a transition to a
    staff-actionable status other than the approval, or by an approval;
    the last two only from a status that is not terminal. *)
Inductive row_step (fromisoformat : string -> option Z)
    (a : Application.t) : Application.t -> list Events.t -> Prop :=
| row_reconciled now inv a' new :
    reconciled fromisoformat now inv a a' new ->
    row_step fromisoformat a a' (events_of new)
| row_transitioned (now : Z) (u : User.t) (st : Status.t) :
    In st APPLICATION_STATES_STAFF_ACTION ->
    Status.mem (Application.status a) APPLICATION_TERMINAL_STATES = false ->
    st <> Status.FULL_REVIEW_APPROVED ->
    row_step fromisoformat a
      (if Status.mem st APPLICATION_TERMINAL_STATES
       then decided now u (Application.set_status st a)
       else Application.set_status st a)
      (status_events st (Application.id a))
| row_approved (now : Z) (u : User.t) (reg : Registration.t) :
    Status.mem (Application.status a) APPLICATION_TERMINAL_STATES = false ->
    row_step fromisoformat a (approved_with now u reg a)
      [event Events.REGISTRATION Events.REGISTRATION_CREATED
             (Application.id a) (Some (Registration.id reg));
       event Events.APPLICATION Events.MANUALLY_APPROVED
             (Application.id a) None].

(** One change of the database (the table and the event log): nothing, a
    change of one row, or a new row under a key that was free (as created,
    or already reconciled with its first invoice). *)
Definition db_step (fromisoformat : string -> option Z)
    (t : gmap nat Application.t) (log : list Events.t)
    (t' : gmap nat Application.t) (log' : list Events.t) : Prop :=
  (t' = t /\ log' = log)
  \/ (exists k a a' evs,
        t !! k = Some a /\ row_step fromisoformat a a' evs
        /\ t' = <[k := a']> t /\ log' = log ++ evs)
  \/ (exists ctx now account request_json k a' evs,
        t !! k = None
        /\ (a' = new_application ctx now account request_json k
            /\ evs = []
            \/ row_step fromisoformat
                 (new_application ctx now account request_json k) a' evs)
        /\ t' = <[k := a']> t /\ log' = log ++ evs).

(** The number of events of the given name logged for the application
    [k]. *)
Definition is_event (name : Events.EventName) (k : nat) (ev : Events.t)
  : bool :=
  bool_decide (Events.event_name ev = name)
  && Nat.eqb (Events.application_id ev) k.

Definition logged_times (name : Events.EventName) (k : nat)
    (log : list Events.t) : nat :=
  length (List.filter (is_event name k) log).

(** 1 when the payment of the row, if there is one, is completed. *)
Definition completed_payments (o : option Application.t) : nat :=
  match o with
  | Some a =>
      if py_eq (Application.payment_status_code a) "COMPLETED" then 1 else 0
  | None => 0
  end.

(** What the event log says of the table: rows sit under their keys,
    events are about rows of the table, PAYMENT_COMPLETE is logged once
    for a completed payment and never otherwise, and APPLICATION_SUBMITTED
    at most once, for a row that is no longer a draft. *)
Definition log_consistent (t : gmap nat Application.t)
    (log : list Events.t) : Prop :=
  (forall k a, t !! k = Some a -> Application.id a = k)
  /\ (forall ev, In ev log -> is_Some (t !! Events.application_id ev))
  /\ forall k,
      logged_times Events.PAYMENT_COMPLETE k log
      = completed_payments (t !! k)
      /\ logged_times Events.APPLICATION_SUBMITTED k log <= 1
      /\ (logged_times Events.APPLICATION_SUBMITTED k log = 1 ->
          exists a, t !! k = Some a
                    /\ Application.status a <> Status.DRAFT).

(** The fields written when the row is created and never after. *)
Definition same_origin (a a' : Application.t) : Prop :=
  Application.id a' = Application.id a
  /\ Application.application_json a' = Application.application_json a
  /\ Application.application_date a' = Application.application_date a
  /\ Application.type a' = Application.type a
  /\ Application.submitter_id a' = Application.submitter_id a.

(** A completed payment stays as it is. *)
Definition payment_kept (a a' : Application.t) : Prop :=
  Application.payment_status_code a = Some "COMPLETED" ->
  Application.payment_status_code a' = Some "COMPLETED"
  /\ Application.invoice_id a' = Application.invoice_id a
  /\ Application.payment_account a' = Application.payment_account a
  /\ Application.payment_completion_date a'
     = Application.payment_completion_date a.


(** What holds of the decision fields of a row. *)
Definition decision_consistent (a : Application.t) : Prop :=
  (Application.decision_date a <> None <->
   Application.reviewer_id a <> None)
  /\ (In (Application.status a) APPLICATION_TERMINAL_STATES ->
      Application.decision_date a <> None)
  /\ (Application.registration_id a <> None ->
      Application.decision_date a <> None).

(** The statuses the create, payment and status endpoints write. *)
Definition written_statuses : list Status.t :=
  [Status.DRAFT; Status.PAYMENT_DUE; Status.PAID;
   Status.FULL_REVIEW_APPROVED; Status.PROVISIONALLY_APPROVED;
   Status.DECLINED; Status.ADDITIONAL_INFO_REQUESTED].

End Rows.

(** ** The receipt endpoint *)

Module Receipt.

Import ApplicationService.



End Receipt.

(** ** Paging through a listing *)

Module Paging.

(** The search criteria of the [page]-th page. *)
Definition on_page (status : option string) (limit : Z) (page : nat)
  : Application.ApplicationSearch :=
  {| Application.filter_status := status;
     Application.page := Z.of_nat page;
     Application.limit := limit |}.

(** A client that asks for the pages 1 to [n], one call each, and puts
    the rows it gets end to end; [None] when a call fails. *)
Fixpoint listing (upper : string -> string) (max_per_page : option Z)
    (rows : list Application.t) (user_id : nat)
    (account_id : option string) (status : option string) (limit : Z)
    (is_examiner : bool) (n : nat) : option (list Application.t) :=
  match n with
  | 0 => Some []
  | S n' =>
      match listing upper max_per_page rows user_id account_id status limit
              is_examiner n',
            Application.find_by_user_and_account upper max_per_page rows
              user_id account_id (on_page status limit (S n'))
              is_examiner with
      | Some before, Returned p => Some (before ++ Application.items p)
      | _, _ => None
      end
  end.

End Paging.

(** ** Scenarios

    Concrete applications, invoices, callers and collaborators, after the
    scenarios of the specification. *)

Module Scenario.

Import ApplicationService.

Definition examiner : UserContext :=
  {| user := {| User.id := 9 |}; is_examiner := true; is_system := false |}.

Definition host : UserContext :=
  {| user := {| User.id := 3 |}; is_examiner := false; is_system := false |}.

(** The caller that reports payments. *)
Definition system : UserContext :=
  {| user := {| User.id := 1 |}; is_examiner := false; is_system := true |}.

(** The document of an application: a dict with a registration part. *)
Definition document : json :=
  JDict [("registration", JDict [("unitAddress", JStr "12 Marine Drive")])].

(** An application of user 3 on account A1, with the given key and
    status and no payment yet. *)
Definition application (k : nat) (st : Status.t) : Application.t :=
  Application.mk k document 0%Z "REGISTRATION" st None None None None
    (Some "A1") None (Some 3) None.

(** The same, paid. *)
Definition paid_application (k : nat) (st : Status.t) : Application.t :=
  Application.mk k document 0%Z "REGISTRATION" st None (Some 55%Z)
    (Some "COMPLETED") (Some 4%Z) (Some "A1") None (Some 3) None.

Definition invoice (code : string) : InvoiceDetails :=
  {| inv_id := Some (Some 55%Z);
     inv_paymentAccount := Some (Some "A1");
     inv_statusCode := Some code;
     inv_paymentDate := None |}.

(** Collaborators: dates that parse, a request model that takes the
    registration part of a document that has one, a validation that
    passes, a provisioner that returns and one that fails. *)
Definition iso (text : string) : option Z := Some 4%Z.

Definition request_ok (payload : json) : option json :=
  match payload with
  | JDict d => ApplicationSerializer.dict_get "registration" d
  | _ => None
  end.

Definition valid (payload : json) : bool := true.

Definition provision (w : list Effect) (submitter : option nat)
    (account : option string) (data : json) : option Registration.t :=
  Some {| Registration.id := length w |}.

Definition provision_fails (w : list Effect) (submitter : option nat)
    (account : option string) (data : json) : option Registration.t :=
  None.

(** The rows with keys 1 to [n], all of user 3 on account A1. *)
Definition rows (n : nat) : list Application.t :=
  (fun k => application k Status.PAID) <$> seq 1 n.

Definition criteria (page limit : Z) : Application.ApplicationSearch :=
  {| Application.filter_status := None;
     Application.page := page;
     Application.limit := limit |}.

(** The requests of the approval scenario: an application is created
    (the invoice call fails, the draft stays) and an examiner approves
    it. *)
Definition approval_requests : list Resource.Request :=
  [Resource.CreateApplication host (Some "A1") document 0%Z None;
   Resource.UpdateStatus examiner 0 (Some "full_review_approved") 7%Z].

(** The requests of the late-payment scenario: an application is created
    with its invoice, an examiner declines it before it is paid, and the
    payment service then reports the invoice approved. *)
Definition late_payment_requests : list Resource.Request :=
  [Resource.CreateApplication host (Some "A1") document 0%Z
     (Some (invoice "CREATED"));
   Resource.UpdateStatus examiner 0 (Some "DECLINED") 7%Z;
   Resource.UpdatePaymentDetails system 0 (Some "A1") 8%Z
     (Some (invoice "APPROVED"))].

(** The row the submission with a created invoice leaves, the row the
    late-payment scenario leaves, and the row the approval scenario
    leaves. *)
Definition submitted : Application.t :=
  due_on_creation (Some 55%Z) (Some "A1") (application 0 Status.DRAFT).

Definition reopened : Application.t :=
  paid_on_approval 8%Z (Some 55%Z) (Some "A1")
    (decided 7%Z (user examiner)
       (Application.set_status Status.DECLINED submitted)).

Definition approved_row : Application.t :=
  approved_with 7%Z (user examiner) {| Registration.id := 1 |}
    (application 0 Status.DRAFT).

(** Requests made after the late-payment scenario: an examiner declines
    again, and the payment service reports the invoice as created. *)
Definition later_requests : list Resource.Request :=
  [Resource.UpdateStatus examiner 0 (Some "DECLINED") 9%Z;
   Resource.UpdatePaymentDetails system 0 (Some "A1") 10%Z
     (Some (invoice "CREATED"))].

(** The second page of ten of the fifteen rows. *)
Definition second_page : Application.Pagination :=
  {| Application.items :=
       (fun k => application k Status.PAID) <$> [5; 4; 3; 2; 1];
     Application.total := 15 |}.

(** A stored document whose header claims an approval and a registration,
    on a paid application without one; the submitter has a first name
    only. *)
Definition isoformat (date : Z) : string := "2024-07-01T00:00:00+00:00".

Definition users (i : nat) : option ApplicationSerializer.Person :=
  Some {| ApplicationSerializer.username := Some "host3";
          ApplicationSerializer.firstname := Some "Ada";
          ApplicationSerializer.lastname := None |}.

Definition registrations (r : nat) : option ApplicationSerializer.Details :=
  Some {| ApplicationSerializer.start_date := 7%Z;
          ApplicationSerializer.expiry_date := 8%Z;
          ApplicationSerializer.registration_status := "ACTIVE";
          ApplicationSerializer.registration_number := Some "H1" |}.

(** The same rows, whatever the database. *)
Definition users_of (w : list Effect) := users.

Definition registrations_of (w : list Effect) := registrations.

Definition stored : list (string * json) :=
  [("header", JDict [("status", JStr "FULL_REVIEW_APPROVED");
                     ("registrationId", JNum 999%Z)]);
   ("registration", JDict [])].

Definition documented : Application.t :=
  Application.mk 4 (JDict stored) 0%Z "REGISTRATION" Status.PAID None
    (Some 55%Z) (Some "COMPLETED") (Some 4%Z) (Some "A1") None (Some 3)
    None.

Definition shown : list (string * json) :=
  Eval vm_compute in
    match ApplicationSerializer.to_dict isoformat users registrations
            documented with
    | Some (JDict d) => d
    | _ => []
    end.

End Scenario.

(** * Properties of the service functions *)

Section ServiceFacts.

Import ApplicationService.

Variable fromisoformat : string -> option Z.
Variable registration_request : json -> option json.
Variable create_registration :
  list Effect -> option nat -> option string -> json ->
  option Registration.t.

Abbreviation reconcile :=
  (update_application_payment_details_and_status fromisoformat).
Abbreviation transition :=
  (update_application_status registration_request create_registration).

Lemma py_eq_true (o : option string) (s : string) :
  py_eq o s = true <-> o = Some s.
Proof.
  destruct o as [s'|]; simpl.
  - rewrite String.eqb_eq. split; congruence.
  - split; discriminate.
Qed.

Lemma py_eq_false (o : option string) (s : string) :
  py_eq o s = false <-> o <> Some s.
Proof.
  rewrite <- py_eq_true. destruct (py_eq o s); split; congruence.
Qed.

Lemma Status_eqb_true (a b : Status.t) : Status.eqb a b = true <-> a = b.
Proof. unfold Status.eqb. apply bool_decide_eq_true. Qed.

Lemma Status_mem_In (s : Status.t) (l : list Status.t) :
  Status.mem s l = true <-> In s l.
Proof.
  unfold Status.mem. rewrite existsb_exists. split.
  - intros (x & Hx & He). apply Status_eqb_true in He. congruence.
  - intros Hin. exists s. split; [done|]. by apply Status_eqb_true.
Qed.

(** Unfolding of the monad's operations. *)
Ltac exec :=
  unfold update_application_payment_details_and_status,
    update_application_status, bind, get, assign, expect, save,
    save_event, perform, this, ret, raise;
  simpl.

(** *** Payment reconciliation *)

(** The guard: a completed payment makes the call a no-op. *)
Lemma reconcile_guard (now : Z) (inv : InvoiceDetails) (m : Mem) :
  Application.payment_status_code (obj m) = Some "COMPLETED" ->
  reconcile now inv m = (Returned (obj m), m).
Proof. intros H. exec. by rewrite H. Qed.

Lemma reconcile_approved (now : Z) (inv : InvoiceDetails) (m : Mem)
    (invoice : option Z) (account : option string) :
  Application.payment_status_code (obj m) <> Some "COMPLETED" ->
  inv_id inv = Some invoice ->
  inv_paymentAccount inv = Some account ->
  inv_statusCode inv = Some "APPROVED" ->
  let a' := paid_on_approval now invoice account (obj m) in
  reconcile now inv m =
    (Returned a',
     {| obj := a';
        effects := effects m ++
          [Saved a';
           logged Events.APPLICATION Events.PAYMENT_COMPLETE
                  (Application.id (obj m)) None] |}).
Proof.
  intros Hc Hi Ha Hs. apply py_eq_false in Hc. exec.
  rewrite Hc, Hi, Ha, Hs. simpl.
  rewrite andb_false_r. simpl. by rewrite <- app_assoc.
Qed.

Lemma reconcile_draft_created (now : Z) (inv : InvoiceDetails) (m : Mem)
    (invoice : option Z) (account : option string) :
  Application.payment_status_code (obj m) <> Some "COMPLETED" ->
  Application.status (obj m) = Status.DRAFT ->
  inv_id inv = Some invoice ->
  inv_paymentAccount inv = Some account ->
  inv_statusCode inv = Some "CREATED" ->
  let a' := due_on_creation invoice account (obj m) in
  reconcile now inv m =
    (Returned a',
     {| obj := a';
        effects := effects m ++
          [logged Events.APPLICATION Events.APPLICATION_SUBMITTED
                  (Application.id (obj m)) None;
           Saved a'] |}).
Proof.
  intros Hc Hd Hi Ha Hs. apply py_eq_false in Hc. exec.
  rewrite Hc, Hi, Ha, Hs. simpl. rewrite Hd. simpl.
  unfold perform. simpl. by rewrite <- app_assoc.
Qed.

(** *** Status transition *)

(** A successful approval, effect by effect. *)
Lemma transition_approved (now : Z) (u : User.t) (m : Mem)
    (d : list (string * json)) (data : json) (r : Registration.t) :
  Application.application_json (obj m) = JDict d ->
  registration_request (Application.application_json (obj m)) = Some data ->
  create_registration (effects m) (Application.submitter_id (obj m))
    (Application.payment_account (obj m)) data = Some r ->
  let a' := approved_with now u r (obj m) in
  transition now Status.FULL_REVIEW_APPROVED u m =
    (Returned a',
     {| obj := a';
        effects := effects m ++
          [Provisioned (Application.submitter_id (obj m))
                       (Application.payment_account (obj m)) data r;
           logged Events.REGISTRATION Events.REGISTRATION_CREATED
                  (Application.id (obj m)) (Some (Registration.id r));
           Saved a';
           logged Events.APPLICATION Events.MANUALLY_APPROVED
                  (Application.id (obj m)) None] |}).
Proof.
  intros Hj Hd Hr. exec. rewrite Hj in *. rewrite Hd. simpl. rewrite Hr.
  simpl. by rewrite <- !app_assoc.
Qed.

(** Provisioning fails: the status is already assigned, nothing else is
    done. *)
Lemma transition_provisioning_fails (now : Z) (u : User.t) (m : Mem)
    (d : list (string * json)) (data : json) :
  Application.application_json (obj m) = JDict d ->
  registration_request (Application.application_json (obj m)) = Some data ->
  create_registration (effects m) (Application.submitter_id (obj m))
    (Application.payment_account (obj m)) data = None ->
  transition now Status.FULL_REVIEW_APPROVED u m =
    (Raised ProvisioningError,
     {| obj := Application.set_status Status.FULL_REVIEW_APPROVED (obj m);
        effects := effects m |}).
Proof.
  intros Hj Hd Hr. exec. rewrite Hj in *. rewrite Hd. simpl. by rewrite Hr.
Qed.

(** The payload is no registration request: likewise. *)
Lemma transition_request_invalid (now : Z) (u : User.t) (m : Mem)
    (d : list (string * json)) :
  Application.application_json (obj m) = JDict d ->
  registration_request (Application.application_json (obj m)) = None ->
  transition now Status.FULL_REVIEW_APPROVED u m =
    (Raised ValidationError,
     {| obj := Application.set_status Status.FULL_REVIEW_APPROVED (obj m);
        effects := effects m |}).
Proof. intros Hj Hd. exec. rewrite Hj in *. by rewrite Hd. Qed.

(** The stored document is no dict: the keyword expansion raises before
    the request model is called. *)
Lemma transition_document_no_dict (now : Z) (u : User.t) (m : Mem) :
  (forall d, Application.application_json (obj m) <> JDict d) ->
  transition now Status.FULL_REVIEW_APPROVED u m =
    (Raised TypeError,
     {| obj := Application.set_status Status.FULL_REVIEW_APPROVED (obj m);
        effects := effects m |}).
Proof.
  intros Hj. exec.
  destruct (Application.application_json (obj m)) as [| | | | |d]; try done.
  by destruct (Hj d).
Qed.

(** Every other status: the row is saved, when its status fits the
    column, then the event name is looked up. *)
Lemma transition_other (now : Z) (st : Status.t) (u : User.t) (m : Mem) :
  st <> Status.FULL_REVIEW_APPROVED ->
  let a' :=
    if Status.mem st APPLICATION_TERMINAL_STATES
    then decided now u (Application.set_status st (obj m))
    else Application.set_status st (obj m) in
  transition now st u m =
    if status_fits a' then
      match _get_event_name st with
      | Returned name =>
          (Returned a',
           {| obj := a';
              effects := effects m ++
                [Saved a';
                 logged Events.APPLICATION name (Application.id (obj m))
                        None] |})
      | Raised e =>
          (Raised e, {| obj := a'; effects := effects m ++ [Saved a'] |})
      end
    else (Raised DataError, {| obj := a'; effects := effects m |}).
Proof.
  intros Hne. destruct st; try congruence; exec;
    by rewrite <- ?app_assoc.
Qed.

(** *** What a call can leave behind, whatever its inputs *)

Lemma appended_app (m m' : Mem) (new : list Effect) :
  effects m' = effects m ++ new -> appended m m' = new.
Proof.
  intros H. unfold appended. rewrite H. by rewrite drop_app_length.
Qed.

(** Reconciliation saves at most once, the row it saves is the object it
    leaves, and it touches neither the key nor the decision fields nor the
    registration. *)
Lemma reconcile_shape (now : Z) (inv : InvoiceDetails) (m : Mem) :
  let r := (reconcile now inv m).1 in
  let m' := (reconcile now inv m).2 in
  let a := obj m in
  let a' := obj m' in
  Application.id a' = Application.id a
  /\ Application.registration_id a' = Application.registration_id a
  /\ Application.decision_date a' = Application.decision_date a
  /\ Application.reviewer_id a' = Application.reviewer_id a
  /\ exists new,
      effects m' = effects m ++ new
      /\ (new = []
          \/ settled a'
             /\ r = Returned a'
             /\ (new = [logged Events.APPLICATION Events.APPLICATION_SUBMITTED
                               (Application.id a) None;
                        Saved a']
                 \/ new = [Saved a']
                 \/ new = [Saved a';
                           logged Events.APPLICATION Events.PAYMENT_COMPLETE
                                  (Application.id a) None])).
Proof.
  exec.
  destruct (py_eq (Application.payment_status_code (obj m)) "COMPLETED")
    eqn:Hdone; simpl.
  { repeat split; try done. exists []. by rewrite app_nil_r; auto. }
  destruct (inv_id inv) as [invoice|]; simpl;
    [|repeat split; try done; exists []; by rewrite app_nil_r; auto].
  destruct (inv_paymentAccount inv) as [account|]; simpl;
    [|repeat split; try done; exists []; by rewrite app_nil_r; auto].
  destruct (Status.eqb (Application.status (obj m)) Status.DRAFT
            && py_eq (inv_statusCode inv) PaymentStatus_CREATED) eqn:Hrule1;
    simpl.
  { apply andb_true_iff in Hrule1 as [_ Hc]. apply py_eq_true in Hc.
    rewrite Hc. simpl. repeat split; try done.
    eexists. split; [by rewrite <- app_assoc|]. right.
    repeat split; [|by left]. intros _. done. }
  destruct (py_eq (inv_statusCode inv) PaymentStatus_COMPLETED) eqn:Hrule2;
    simpl.
  { destruct (inv_paymentDate inv) as [text|]; simpl;
      [|repeat split; try done; exists []; by rewrite app_nil_r; auto].
    destruct (fromisoformat text) as [date|]; simpl;
      [|repeat split; try done; exists []; by rewrite app_nil_r; auto].
    rewrite Hrule2. simpl. repeat split; try done.
    eexists. split; [by rewrite <- app_assoc|]. right.
    repeat split; [|by right; right]. intros _. done. }
  destruct (py_eq (inv_statusCode inv) PaymentStatus_APPROVED) eqn:Hrule3;
    simpl.
  { repeat split; try done.
    eexists. split; [by rewrite <- app_assoc|]. right.
    repeat split; [|by right; right]. intros _. done. }
  match goal with
  | |- context [if ?fits then _ else _] => destruct fits eqn:Hfits
  end; simpl;
    [|repeat split; try done; exists []; by rewrite app_nil_r; auto].
  rewrite Hrule2. simpl. repeat split; try done.
  eexists. split; [done|]. right.
  repeat split; [|by right; left].
  intros Hc. simpl in Hc. apply py_eq_false in Hrule2. done.
Qed.

Lemma get_event_name_cases (st : Status.t) :
  _get_event_name st = Raised UnboundLocalError
  \/ exists n, _get_event_name st = Returned n
               /\ n <> Events.REGISTRATION_CREATED
               /\ closing_event n = true.
Proof. destruct st; simpl; eauto 6. Qed.

(** The four ways a status transition can go. *)
Lemma transition_shape (now : Z) (st : Status.t) (u : User.t) (m : Mem) :
  let r := (transition now st u m).1 in
  let m' := (transition now st u m).2 in
  let a := obj m in
  let a' := obj m' in
  (st = Status.FULL_REVIEW_APPROVED
   /\ (r = Raised TypeError \/ r = Raised ValidationError
       \/ r = Raised ProvisioningError)
   /\ a' = Application.set_status st a
   /\ effects m' = effects m)
  \/ (st = Status.FULL_REVIEW_APPROVED
      /\ exists data reg,
          (exists d, Application.application_json a = JDict d)
          /\ registration_request (Application.application_json a) = Some data
          /\ create_registration (effects m) (Application.submitter_id a)
               (Application.payment_account a) data = Some reg
          /\ r = Returned a'
          /\ a' = approved_with now u reg a
          /\ effects m' = effects m ++
               [Provisioned (Application.submitter_id a)
                            (Application.payment_account a) data reg;
                logged Events.REGISTRATION Events.REGISTRATION_CREATED
                       (Application.id a) (Some (Registration.id reg));
                Saved a';
                logged Events.APPLICATION Events.MANUALLY_APPROVED
                       (Application.id a) None])
  \/ (st <> Status.FULL_REVIEW_APPROVED
      /\ a' = (if Status.mem st APPLICATION_TERMINAL_STATES
               then decided now u (Application.set_status st a)
               else Application.set_status st a)
      /\ (r = Raised UnboundLocalError
          /\ _get_event_name st = Raised UnboundLocalError
          /\ effects m' = effects m ++ [Saved a']
          \/ exists n,
               _get_event_name st = Returned n
               /\ r = Returned a'
               /\ effects m' = effects m ++
                    [Saved a';
                     logged Events.APPLICATION n (Application.id a) None]))
  \/ (st <> Status.FULL_REVIEW_APPROVED
      /\ a' = (if Status.mem st APPLICATION_TERMINAL_STATES
               then decided now u (Application.set_status st a)
               else Application.set_status st a)
      /\ status_fits a' = false
      /\ r = Raised DataError
      /\ effects m' = effects m).
Proof.
  destruct (decide (st = Status.FULL_REVIEW_APPROVED)) as [->|Hne].
  - destruct (Application.application_json (obj m)) as [| | | | |d] eqn:Hj;
      try (left; rewrite transition_document_no_dict;
           [simpl; auto|intros d; by rewrite Hj]).
    destruct (registration_request (Application.application_json (obj m)))
      as [data|] eqn:Hd.
    + destruct (create_registration (effects m)
                  (Application.submitter_id (obj m))
                  (Application.payment_account (obj m)) data)
        as [reg|] eqn:Hr.
      * right; left. rewrite (transition_approved _ _ _ _ _ _ Hj Hd Hr).
        simpl. split; [done|]. exists data, reg. split; [by exists d|done].
      * left. rewrite (transition_provisioning_fails _ _ _ _ _ Hj Hd Hr).
        simpl. auto.
    + left. rewrite (transition_request_invalid _ _ _ _ Hj Hd). simpl. auto.
  - rewrite (transition_other _ _ _ _ Hne).
    destruct (status_fits _) eqn:Hfits.
    + right; right; left. split; [done|].
      destruct (get_event_name_cases st) as [He|(n & He & _)]; rewrite He;
        simpl; split; try done.
      * left. done.
      * right. exists n. done.
    + right; right; right. done.
Qed.

(** *** The claims about the two service functions *)

(** C2.  Reconciliation is idempotent on completed payments: when the
    application's payment status is already COMPLETED the call returns the
    same application, changes no field and performs no effect (so no
    event), whatever the invoice; in particular a second call after a
    first one that left the payment COMPLETED changes nothing. *)
Theorem reconcile_completed_idempotent (now : Z) (inv : InvoiceDetails)
    (m : Mem)
    (Hdone : Application.payment_status_code (obj m) = Some "COMPLETED") :
  reconcile now inv m = (Returned (obj m), m)
  /\ appended m (reconcile now inv m).2 = []
  /\ forall now0 m0,
      (reconcile now0 inv m0).2 = m ->
      forall now1,
        reconcile now1 inv (reconcile now0 inv m0).2 = (Returned (obj m), m).
Proof.
  pose proof (reconcile_guard now inv m Hdone) as Hg.
  split; [done|]. split.
  - rewrite Hg. simpl. unfold appended. apply drop_all.
  - intros now0 m0 -> now1. by apply reconcile_guard.
Qed.

(** C7.  An APPROVED invoice on an application whose payment is not yet
    COMPLETED: the stored payment status is normalised to COMPLETED, the
    status becomes PAID, the completion date is the current time, the
    application is saved and one PAYMENT_COMPLETE event is logged. *)
Theorem reconcile_approved_pays (now : Z) (inv : InvoiceDetails) (m : Mem)
    (invoice : option Z) (account : option string)
    (Hopen : Application.payment_status_code (obj m) <> Some "COMPLETED")
    (Hid : inv_id inv = Some invoice)
    (Haccount : inv_paymentAccount inv = Some account)
    (Hcode : inv_statusCode inv = Some "APPROVED") :
  let r := (reconcile now inv m).1 in
  let m' := (reconcile now inv m).2 in
  r = Returned (obj m')
  /\ Application.payment_status_code (obj m') = Some "COMPLETED"
  /\ Application.status (obj m') = Status.PAID
  /\ Application.payment_completion_date (obj m') = Some now
  /\ Application.invoice_id (obj m') = invoice
  /\ Application.payment_account (obj m') = account
  /\ appended m m' =
       [Saved (obj m');
        logged Events.APPLICATION Events.PAYMENT_COMPLETE
               (Application.id (obj m)) None].
Proof.
  rewrite (reconcile_approved now inv m invoice account Hopen Hid Haccount
             Hcode).
  simpl. repeat split. by apply appended_app.
Qed.


(** C4, as the code has it.  When provisioning fails during an approval
    the call raises ProvisioningError and nothing reaches the database: no
    row is saved and no event is logged (REGISTRATION_CREATED in
    particular), and the in-memory application keeps its registration,
    decision date and reviewer.  Its status, though, has already been
    assigned FULL_REVIEW_APPROVED. *)
Theorem provisioning_failure_saves_nothing (now : Z) (u : User.t) (m : Mem)
    (d : list (string * json)) (data : json)
    (Hdocument : Application.application_json (obj m) = JDict d)
    (Hrequest :
      registration_request (Application.application_json (obj m))
      = Some data)
    (Hfails :
      create_registration (effects m) (Application.submitter_id (obj m))
        (Application.payment_account (obj m)) data = None) :
  let r := (transition now Status.FULL_REVIEW_APPROVED u m).1 in
  let m' := (transition now Status.FULL_REVIEW_APPROVED u m).2 in
  r = Raised ProvisioningError
  /\ effects m' = effects m
  /\ events_of (effects m') = events_of (effects m)
  /\ applications (effects m') = applications (effects m)
  /\ obj m' = Application.set_status Status.FULL_REVIEW_APPROVED (obj m)
  /\ Application.registration_id (obj m')
     = Application.registration_id (obj m)
  /\ Application.decision_date (obj m') = Application.decision_date (obj m)
  /\ Application.reviewer_id (obj m') = Application.reviewer_id (obj m).
Proof.
  rewrite (transition_provisioning_fails now u m d data Hdocument Hrequest
             Hfails).
  simpl. done.
Qed.

Lemma appended_same (m m' : Mem) :
  effects m' = effects m -> appended m m' = [].
Proof. intros H. unfold appended. rewrite H. apply drop_all. Qed.

(** C5, as the code has it.  A transition to DECLINED logs exactly one
    event (MANUALLY_DENIED); a successful transition to
    FULL_REVIEW_APPROVED logs two (REGISTRATION_CREATED, then
    MANUALLY_APPROVED).  Whenever a transition to a terminal status returns
    or saves the application, the decision date and the reviewer are set on
    it.  A transition to a status that is not terminal, and every payment
    reconciliation, leave both fields as they were. *)
Theorem terminal_transition_events_and_decision (now : Z) (st : Status.t)
    (u : User.t) (m : Mem) :
  let r := (transition now st u m).1 in
  let m' := (transition now st u m).2 in
  (st = Status.DECLINED ->
   r = Returned (obj m')
   /\ events_of (appended m m') =
        [{| Events.event_type := Events.APPLICATION;
            Events.event_name := Events.MANUALLY_DENIED;
            Events.application_id := Application.id (obj m);
            Events.registration_id := None |}])
  /\ (st = Status.FULL_REVIEW_APPROVED ->
      forall a, r = Returned a ->
      exists reg,
        events_of (appended m m') =
          [{| Events.event_type := Events.REGISTRATION;
              Events.event_name := Events.REGISTRATION_CREATED;
              Events.application_id := Application.id (obj m);
              Events.registration_id := Some reg |};
           {| Events.event_type := Events.APPLICATION;
              Events.event_name := Events.MANUALLY_APPROVED;
              Events.application_id := Application.id (obj m);
              Events.registration_id := None |}])
  /\ (In st APPLICATION_TERMINAL_STATES ->
      forall a, r = Returned a \/ In a (saves_of (appended m m')) ->
      Application.decision_date a = Some now
      /\ Application.reviewer_id a = Some (User.id u))
  /\ (~ In st APPLICATION_TERMINAL_STATES ->
      forall a, a = obj m' \/ In a (saves_of (appended m m')) ->
      Application.decision_date a = Application.decision_date (obj m)
      /\ Application.reviewer_id a = Application.reviewer_id (obj m))
  /\ (forall now' inv a,
      a = obj (reconcile now' inv m).2
      \/ In a (saves_of (appended m (reconcile now' inv m).2)) ->
      Application.decision_date a = Application.decision_date (obj m)
      /\ Application.reviewer_id a = Application.reviewer_id (obj m)).
Proof.
  intros r m'.
  pose proof (transition_shape now st u m) as Hshape.
  cbv zeta in Hshape. fold r m' in Hshape.
  split; [|split; [|split; [|split]]].
  - intros ->.
    destruct Hshape
      as [(Hst & _)|[(Hst & _)|[(_ & Ha & Hev)|(_ & Ha & Hfits & _)]]];
      try done.
    destruct Hev as [(_ & He & _)|(n & He & Hr & Heff)]; [done|].
    injection He as <-. split; [done|].
    by rewrite (appended_app _ _ _ Heff).
  - intros -> a Hr.
    destruct Hshape
      as [(_ & Hraise & _)|[(_ & Hok)|[(Hst & _)|(Hst & _)]]]; try done.
    + destruct Hraise as [Hx|[Hx|Hx]]; rewrite Hx in Hr; done.
    + destruct Hok as (data & reg & _ & _ & _ & _ & _ & Heff).
      exists (Registration.id reg). by rewrite (appended_app _ _ _ Heff).
  - intros Hin a Ha. apply Status_mem_In in Hin.
    destruct Hshape
      as [(_ & Hraise & _ & Heff)
         |[(_ & Hok)|[(_ & Ha' & Hev)|(_ & _ & _ & Hr & Heff)]]].
    + rewrite (appended_same _ _ Heff) in Ha.
      destruct Ha as [Ha|[]]. destruct Hraise as [Hx|[Hx|Hx]];
        rewrite Hx in Ha; done.
    + destruct Hok as (data & reg & _ & _ & _ & Hr & Ha' & Heff).
      rewrite (appended_app _ _ _ Heff) in Ha. rewrite Hr in Ha.
      assert (a = obj m') as ->.
      { destruct Ha as [Ha|Ha]; [congruence|].
        simpl in Ha. by destruct Ha as [<-|[]]. }
      by rewrite Ha'.
    + rewrite Hin in Ha'.
      assert (a = obj m') as ->.
      { destruct Hev as [(Hr & _ & Heff)|(n & _ & Hr & Heff)];
          rewrite (appended_app _ _ _ Heff) in Ha; rewrite Hr in Ha;
          simpl in Ha; destruct Ha as [Ha|[<-|[]]]; congruence. }
      by rewrite Ha'.
    + rewrite (appended_same _ _ Heff), Hr in Ha. by destruct Ha as [Ha|[]].
  - intros Hout a Ha.
    assert (Status.mem st APPLICATION_TERMINAL_STATES = false) as Hmem.
    { destruct (Status.mem st APPLICATION_TERMINAL_STATES) eqn:E; [|done].
      apply Status_mem_In in E. done. }
    destruct Hshape
      as [(-> & _)|[(-> & _)|[(_ & Ha' & Hev)|(_ & Ha' & _ & _ & Heff)]]].
    + exfalso. apply Hout. simpl. auto.
    + exfalso. apply Hout. simpl. auto.
    + rewrite Hmem in Ha'.
      assert (a = obj m') as ->.
      { destruct Ha as [Ha|Ha]; [done|].
        destruct Hev as [(_ & _ & Heff)|(n & _ & _ & Heff)];
          rewrite (appended_app _ _ _ Heff) in Ha;
          simpl in Ha; by destruct Ha as [<-|[]]. }
      by rewrite Ha'.
    + rewrite Hmem in Ha'. rewrite (appended_same _ _ Heff) in Ha.
      destruct Ha as [->|[]]. by rewrite Ha'.
  - intros now' inv a Ha.
    pose proof (reconcile_shape now' inv m) as Hrec. cbv zeta in Hrec.
    destruct Hrec as (_ & _ & Hd & Hrv & new & Heff & Hnew).
    assert (a = obj (reconcile now' inv m).2) as ->; [|done].
    destruct Ha as [Ha|Ha]; [done|].
    rewrite (appended_app _ _ _ Heff) in Ha.
    destruct Hnew as [->|(_ & _ & [->|[->| ->]])];
      simpl in Ha; by destruct Ha as [<-|[]] || destruct Ha.
Qed.

(** C9, as the code has it.  In both functions the events that close the
    call (PAYMENT_COMPLETE, and the event named after the new status) are
    logged only after the application has been saved; the two other events,
    APPLICATION_SUBMITTED and REGISTRATION_CREATED, are logged before the
    save that follows them. *)
Theorem closing_events_follow_save (now : Z) (inv : InvoiceDetails)
    (st : Status.t) (u : User.t) (m : Mem) :
  let after_reconcile := appended m (reconcile now inv m).2 in
  let after_transition := appended m (transition now st u m).2 in
  logged_after_save closing_event false after_reconcile = true
  /\ logged_after_save closing_event false after_transition = true
  /\ logged_before_save (fun n => negb (closing_event n)) after_reconcile
     = true
  /\ logged_before_save (fun n => negb (closing_event n)) after_transition
     = true.
Proof.
  intros after_reconcile after_transition.
  assert (logged_after_save closing_event false after_reconcile = true
          /\ logged_before_save (fun n => negb (closing_event n))
               after_reconcile = true) as [H1 H2].
  { pose proof (reconcile_shape now inv m) as Hrec. cbv zeta in Hrec.
    destruct Hrec as (_ & _ & _ & _ & new & Heff & Hnew).
    unfold after_reconcile. rewrite (appended_app _ _ _ Heff).
    destruct Hnew as [->|(_ & _ & [->|[->| ->]])]; done. }
  assert (logged_after_save closing_event false after_transition = true
          /\ logged_before_save (fun n => negb (closing_event n))
               after_transition = true) as [H3 H4]; [|done].
  pose proof (transition_shape now st u m) as Hshape. cbv zeta in Hshape.
  unfold after_transition.
  destruct Hshape
    as [(_ & _ & _ & Heff)
       |[(_ & Hok)|[(_ & _ & Hev)|(_ & _ & _ & _ & Heff)]]].
  - by rewrite (appended_same _ _ Heff).
  - destruct Hok as (data & reg & _ & _ & _ & _ & _ & Heff).
    by rewrite (appended_app _ _ _ Heff).
  - destruct Hev as [(_ & _ & Heff)|(n & He & _ & Heff)];
      rewrite (appended_app _ _ _ Heff); [done|].
    destruct (get_event_name_cases st) as [Hx|(n' & Hx & _ & Hclosing)];
      rewrite Hx in He; [done|].
    injection He as ->. simpl. by rewrite Hclosing.
  - by rewrite (appended_same _ _ Heff).
Qed.

End ServiceFacts.

(** * Properties of the endpoints and of the database they leave *)

Section ResourceFacts.

Import ApplicationService.
Import Resource.

Variable fromisoformat : string -> option Z.
Variable registration_request : json -> option json.
Variable create_registration :
  list Effect -> option nat -> option string -> json ->
  option Registration.t.
Variable validate : json -> bool.
Variable upper : string -> string.
Variable isoformat : Z -> string.
Variable users : list Effect -> nat -> option ApplicationSerializer.Person.
Variable registrations :
  list Effect -> nat -> option ApplicationSerializer.Details.

Abbreviation reconcile :=
  (update_application_payment_details_and_status fromisoformat).
Abbreviation transition :=
  (ApplicationService.update_application_status registration_request
     create_registration).
Abbreviation status_guard := (Resource.status_guard upper).
Abbreviation serialized :=
  (Resource.serialized isoformat users registrations).
Abbreviation put_status :=
  (Resource.update_application_status registration_request
     create_registration upper isoformat users registrations).
Abbreviation put_payment :=
  (Resource.update_application_payment_details fromisoformat isoformat
     users registrations).
Abbreviation post_application :=
  (Resource.create_application fromisoformat validate isoformat users
     registrations).
Abbreviation handle :=
  (Resource.handle fromisoformat registration_request create_registration
     validate upper isoformat users registrations).
Abbreviation run :=
  (Resource.run fromisoformat registration_request create_registration
     validate upper isoformat users registrations).
Abbreviation transitions_to_approved :=
  (Resource.transitions_to_approved registration_request
     create_registration upper).
Abbreviation approved :=
  (Resource.approved fromisoformat registration_request create_registration
     validate upper isoformat users registrations).
Abbreviation approves :=
  (Resource.approves registration_request create_registration upper).
Abbreviation status_step :=
  (Resource.status_step registration_request create_registration upper
     isoformat users registrations).

(** *** The table behind a trace *)

Lemma applications_app (w new : list Effect) :
  applications (w ++ new) = foldl write (applications w) new.
Proof. unfold applications. apply foldl_app. Qed.

Lemma write_keyed (t : gmap nat Application.t) (new : list Effect) :
  (forall k a, t !! k = Some a -> Application.id a = k) ->
  forall k a, foldl write t new !! k = Some a -> Application.id a = k.
Proof.
  revert t. induction new as [|e new IH]; intros t Ht k a; simpl.
  - apply Ht.
  - apply IH. intros k' a'. destruct e as [b| |]; simpl; try apply Ht.
    destruct (decide (Application.id b = k')) as [<-|Hne].
    + rewrite lookup_insert_eq. congruence.
    + rewrite lookup_insert_ne by done. apply Ht.
Qed.

(** A row sits under its own primary key. *)
Lemma applications_key (w : list Effect) (k : nat) (a : Application.t) :
  find_by_id w k = Some a -> Application.id a = k.
Proof.
  unfold find_by_id, applications. apply write_keyed.
  intros k' a'. by rewrite lookup_empty.
Qed.

Lemma get_application_found (ctx : UserContext) (w : list Effect)
    (k : nat) (account : option string) (a : Application.t) :
  get_application ctx w k account = Returned (Some a) ->
  find_by_id w k = Some a.
Proof.
  unfold get_application.
  destruct (is_user_authorized_for_application ctx w _ account k)
    as [[|]|]; congruence.
Qed.

Lemma get_application_examiner (ctx : UserContext) (w : list Effect)
    (k : nat) (account : option string) :
  is_examiner ctx = true ->
  get_application ctx w k account = Returned (find_by_id w k).
Proof.
  intros H. unfold get_application, is_user_authorized_for_application.
  by rewrite H.
Qed.

(** The answer and the database an endpoint leaves once its service
    function has run. *)
Lemma answered_effects (r : outcome Application.t) (m : Mem)
    (c : HTTPStatus) :
  (let (o, m) := (r, m) in
   match o with
   | Returned _ => (serialized (obj m) c (effects m), effects m)
   | Raised _ =>
       (error_response PROCESSING_ERROR INTERNAL_SERVER_ERROR, effects m)
   end).2 = effects m.
Proof. by destruct r. Qed.

Lemma serialized_application (a b : Application.t) (c c' : HTTPStatus)
    (w : list Effect) :
  serialized a c w = jsonify b c' -> b = a /\ c' = c.
Proof.
  unfold Resource.serialized.
  destruct (ApplicationSerializer.to_dict _ _ _ _); [|done].
  by intros [= -> ->].
Qed.

(** *** The guard of the status endpoint *)

Lemma staff_action_member (s : string) (st : Status.t) :
  Status.str_in s APPLICATION_STATES_STAFF_ACTION = true ->
  Status.of_string s = Some st ->
  In st APPLICATION_STATES_STAFF_ACTION.
Proof.
  unfold Status.str_in. simpl. rewrite !orb_true_iff, !String.eqb_eq.
  intros [->|[->|[->|[->|?]]]] Hof; try done;
    vm_compute in Hof; injection Hof as <-; simpl; auto.
Qed.

Lemma status_guard_passes (ctx : UserContext) (k : nat)
    (status : option string) (w : list Effect) (a : Application.t)
    (st : Status.t) :
  status_guard ctx k status w = inr (a, st) ->
  find_by_id w k = Some a
  /\ Status.mem (Application.status a) APPLICATION_TERMINAL_STATES = false
  /\ Status.of_string (default "" (upper <$> status)) = Some st
  /\ In st APPLICATION_STATES_STAFF_ACTION.
Proof.
  unfold Resource.status_guard.
  destruct (negb (truthy status)
            || negb (Status.str_in (default "" (upper <$> status))
                       APPLICATION_STATES_STAFF_ACTION)) eqn:Hcheck;
    [done|].
  apply orb_false_iff in Hcheck as [_ Hin].
  apply negb_false_iff in Hin.
  destruct (get_application ctx w k None) as [[b|]|] eqn:Hget; [|done..].
  destruct (Status.mem (Application.status b) APPLICATION_TERMINAL_STATES)
    eqn:Hterm; [done|].
  destruct (Status.of_string (default "" (upper <$> status)))
    as [st'|] eqn:Hof; [|done].
  intros [= <- <-]. repeat split; try done.
  - by apply get_application_found in Hget.
  - by apply (staff_action_member _ _ Hin).
Qed.

(** A status outside the staff-actionable ones is answered 400 before
    anything is read. *)
Lemma status_guard_rejects_status (ctx : UserContext) (k : nat)
    (status : option string) (w : list Effect) :
  truthy status = false
  \/ Status.str_in (default "" (upper <$> status))
       APPLICATION_STATES_STAFF_ACTION = false ->
  status_guard ctx k status w
  = inl (error_response INVALID_APPLICATION_STATUS BAD_REQUEST).
Proof.
  intros H. unfold Resource.status_guard.
  destruct H as [-> | ->]; simpl; [done|]. by rewrite orb_true_r.
Qed.

(** A terminal application never passes the guard. *)
Lemma status_guard_rejects_terminal (ctx : UserContext) (k : nat)
    (status : option string) (w : list Effect) (a : Application.t) :
  find_by_id w k = Some a ->
  In (Application.status a) APPLICATION_TERMINAL_STATES ->
  exists message code,
    status_guard ctx k status w = inl (error_response message code)
    /\ (code = BAD_REQUEST \/ code = NOT_FOUND
        \/ code = INTERNAL_SERVER_ERROR)
    /\ (is_examiner ctx = true -> code = BAD_REQUEST).
Proof.
  intros Hfind Hterm.
  destruct (status_guard ctx k status w) as [response|[b st]] eqn:Hguard.
  - revert Hguard. unfold Resource.status_guard.
    destruct (negb (truthy status) || _);
      [intros [= <-]; eexists _, _; split; [done|auto]|].
    destruct (get_application ctx w k None) as [[b|]|] eqn:Hget.
    + apply get_application_found in Hget.
      assert (b = a) as -> by congruence.
      apply Status_mem_In in Hterm. rewrite Hterm.
      intros [= <-]. eexists _, _; split; [done|auto].
    + intros [= <-]. eexists _, _; split; [done|].
      split; [auto|].
      intros Hex. rewrite (get_application_examiner _ _ _ _ Hex) in Hget.
      congruence.
    + intros [= <-]. eexists _, _; split; [done|].
      split; [auto|].
      intros Hex. by rewrite (get_application_examiner _ _ _ _ Hex) in Hget.
  - apply status_guard_passes in Hguard as (Hfind' & Hopen & _).
    assert (b = a) as -> by congruence.
    apply Status_mem_In in Hterm. congruence.
Qed.

Lemma status_guard_error (ctx : UserContext) (k : nat)
    (status : option string) (w : list Effect) (response : Response) :
  status_guard ctx k status w = inl response ->
  http_status_of response <> OK.
Proof.
  unfold Resource.status_guard.
  repeat (case_match; try done); by intros [= <-].
Qed.

(** *** What each request does to the table *)

(** The status endpoint either changes nothing, and makes no approval, or
    rewrites the row of an application that was not terminal. *)
Lemma put_status_cases (ctx : UserContext) (k : nat)
    (status : option string) (now : Z) (w : list Effect) :
  let w' := (put_status ctx k status now w).2 in
  (w' = w /\ ~ transitions_to_approved ctx k status now w)
  \/ exists a a' st,
      find_by_id w k = Some a
      /\ Status.mem (Application.status a) APPLICATION_TERMINAL_STATES
         = false
      /\ Status.of_string (default "" (upper <$> status)) = Some st
      /\ In st APPLICATION_STATES_STAFF_ACTION
      /\ applications w' = <[k := a']> (applications w)
      /\ Application.id a' = k
      /\ Application.status a' = st
      /\ Application.payment_status_code a'
         = Application.payment_status_code a
      /\ (st = Status.FULL_REVIEW_APPROVED
          /\ transitions_to_approved ctx k status now w
          /\ Application.registration_id a' <> None
          \/ st <> Status.FULL_REVIEW_APPROVED
             /\ Application.registration_id a'
                = Application.registration_id a).
Proof.
  unfold Resource.update_application_status.
  destruct (status_guard ctx k status w) as [response|[a st]] eqn:Hguard.
  { left. simpl. split; [done|].
    intros (b & b' & m' & Hg & _). congruence. }
  pose proof Hguard as Hpass.
  apply status_guard_passes in Hpass as (Hfind & Hopen & Hof & Hstaff).
  pose proof (applications_key _ _ _ Hfind) as Hkey.
  pose proof (transition_shape registration_request create_registration
                now st (user ctx) {| obj := a; effects := w |}) as Hshape.
  cbv zeta in Hshape.
  destruct (transition now st (user ctx) {| obj := a; effects := w |})
    as [r m'] eqn:Hrun.
  cbn [fst snd obj effects] in Hshape.
  rewrite answered_effects.
  destruct Hshape
    as [(-> & Hraise & _ & Heff)
       |[(-> & Hok)|[(Hne & Ha' & Hev)|(Hne & _ & _ & _ & Heff)]]].
  - left. split; [done|].
    intros (b & b' & m'' & Hg & Ht).
    rewrite Hguard in Hg. injection Hg as <-. rewrite Hrun in Ht.
    destruct Hraise as [->|[->| ->]]; done.
  - destruct Hok as (data & reg & _ & _ & _ & -> & Ha' & Heff).
    right. exists a, (obj m'), Status.FULL_REVIEW_APPROVED.
    rewrite Heff, applications_app. simpl.
    rewrite Ha'. simpl. rewrite Hkey.
    repeat split;
      first [done | exact Hopen | exact Hstaff | idtac].
    left. split; [done|]. split; [|done].
    by exists a, (obj m'), m'.
  - right. exists a, (obj m'), st.
    assert (Application.id (obj m') = k
            /\ Application.status (obj m') = st
            /\ Application.payment_status_code (obj m')
               = Application.payment_status_code a
            /\ Application.registration_id (obj m')
               = Application.registration_id a) as (Hid & Hst & Hpsc & Hreg).
    { rewrite Ha'.
      by destruct (Status.mem st APPLICATION_TERMINAL_STATES); simpl;
        rewrite Hkey. }
    destruct Hev as [(-> & _ & Heff)|(n & _ & -> & Heff)];
      rewrite Heff, applications_app; simpl; rewrite Hid;
      repeat split;
        first [done | exact Hopen | exact Hstaff | by right].
  - left. split; [done|].
    intros (b & b' & m'' & Hg & _).
    rewrite Hguard in Hg. congruence.
Qed.

(** The payment endpoint either changes nothing or rewrites one row,
    keeping its registration. *)
Lemma put_payment_cases (ctx : UserContext) (k : nat)
    (account : option string) (now : Z) (invoice : option InvoiceDetails)
    (w : list Effect) :
  let w' := (put_payment ctx k account now invoice w).2 in
  w' = w
  \/ exists a a',
      find_by_id w k = Some a
      /\ applications w' = <[k := a']> (applications w)
      /\ Application.id a' = k
      /\ settled a'
      /\ Application.registration_id a' = Application.registration_id a.
Proof.
  unfold Resource.update_application_payment_details.
  destruct (negb (truthy account)); [by left|].
  destruct (get_application ctx w k account) as [[a|]|] eqn:Hget;
    [|by left..].
  apply get_application_found in Hget.
  pose proof (applications_key _ _ _ Hget) as Hkey.
  destruct invoice as [inv|]; [|by left].
  pose proof (reconcile_shape fromisoformat now inv
                {| obj := a; effects := w |}) as Hshape.
  cbv zeta in Hshape.
  destruct (reconcile now inv {| obj := a; effects := w |})
    as [r m'] eqn:Hrun.
  simpl in Hshape.
  destruct Hshape as (Hid & Hreg & _ & _ & new & Heff & Hnew).
  rewrite answered_effects.
  destruct Hnew as [->|(Hsettled & _ & Hnew)].
  { left. by rewrite Heff, app_nil_r. }
  right. exists a, (obj m'). split; [done|].
  rewrite Hid, Hkey in *.
  split; [|done].
  rewrite Heff, applications_app.
  destruct Hnew as [->|[->| ->]]; simpl; by rewrite Hid.
Qed.

(** Creation either changes nothing or adds one row under a fresh key,
    with no registration. *)
Lemma post_application_cases (ctx : UserContext)
    (account : option string) (json_input : json) (now : Z)
    (invoice : option InvoiceDetails) (w : list Effect) :
  let w' := (post_application ctx account json_input now invoice w).2 in
  w' = w
  \/ exists a',
      applications w !! Application.id a' = None
      /\ applications w' = <[Application.id a' := a']> (applications w)
      /\ settled a'
      /\ Application.registration_id a' = None.
Proof.
  unfold Resource.create_application.
  destruct (negb (validate json_input)); [by left|].
  unfold save_application.
  set (k := fresh (dom (applications w))).
  set (a0 := Application.mk k json_input now ApplicationType_REGISTRATION
               Status.DRAFT None None None None account None
               (Some (User.id (user ctx))) None).
  assert (applications w !! k = None) as Hfresh.
  { apply not_elem_of_dom. apply is_fresh. }
  right.
  destruct invoice as [inv|]; simpl.
  2:{ exists a0. rewrite applications_app. simpl. done. }
  pose proof (reconcile_shape fromisoformat now inv
                {| obj := a0; effects := w ++ [Saved a0] |}) as Hshape.
  cbv zeta in Hshape.
  destruct (reconcile now inv {| obj := a0; effects := w ++ [Saved a0] |})
    as [r m'] eqn:Hrun.
  simpl in Hshape.
  destruct Hshape as (Hid & Hreg & _ & _ & new & Heff & Hnew).
  assert ((match r with
           | Returned _ =>
               (serialized (obj m') CREATED (effects m'), effects m')
           | Raised _ =>
               (error_response PROCESSING_ERROR INTERNAL_SERVER_ERROR,
                effects m')
           end).2 = effects m') as -> by (by destruct r).
  destruct Hnew as [->|(Hsettled & _ & Hnew)].
  { exists a0. rewrite Heff, app_nil_r, applications_app. simpl. done. }
  exists (obj m'). rewrite Hid. simpl.
  split; [done|]. split; [|done].
  rewrite Heff, !applications_app.
  destruct Hnew as [->|[->| ->]]; simpl; rewrite Hid; simpl;
    by rewrite insert_insert_eq.
Qed.

(** *** Invariants of the database *)

Lemma run_snoc (rs : list Request) (r : Request) :
  run (rs ++ [r]) = (handle r (run rs)).2.
Proof. unfold Resource.run. by rewrite foldl_snoc. Qed.

Lemma approved_snoc (rs : list Request) (r : Request) (k : nat) :
  approved (rs ++ [r]) k <-> approved rs k \/ approves (run rs) r k.
Proof.
  split.
  - intros (rs1 & rs2 & ctx & status & now & Hrs & Hok).
    induction rs2 as [|x rs2' _] using rev_ind.
    + apply app_inj_tail in Hrs as [-> ->]. right.
      exists ctx, status, now. done.
    + rewrite app_comm_cons, app_assoc in Hrs.
      apply app_inj_tail in Hrs as [-> ->]. left.
      exists rs1, rs2', ctx, status, now. done.
  - intros [(rs1 & rs2 & ctx & status & now & -> & Hok)
           |(ctx & status & now & -> & Hok)].
    + exists rs1, (rs2 ++ [r]), ctx, status, now.
      by rewrite <- app_assoc.
    + exists rs, [], ctx, status, now. done.
Qed.

(** After any sequence of requests: every row is settled; a row has a
    registration only if its application was approved; and an approved
    application has a row with a registration. *)
Lemma run_invariant (rs : list Request) (k : nat) :
  (forall a, find_by_id (run rs) k = Some a ->
     settled a
     /\ (Application.registration_id a <> None -> approved rs k))
  /\ (approved rs k ->
      exists a, find_by_id (run rs) k = Some a
                /\ Application.registration_id a <> None).
Proof.
  revert k. induction rs as [|r rs IH] using rev_ind; intros k.
  { split.
    - intros a. unfold find_by_id, applications. simpl.
      by rewrite lookup_empty.
    - intros (rs1 & rs2 & ctx & status & now & Hrs & _).
      by destruct rs1. }
  rewrite run_snoc. unfold find_by_id in *.
  setoid_rewrite approved_snoc.
  destruct r as [ctx account json_input now invoice
                |ctx k0 account now invoice
                |ctx k0 status now]; simpl.
  - (* creation *)
    assert (forall k', ~ approves (run rs)
              (CreateApplication ctx account json_input now invoice) k')
      as Hno by (intros k' (? & ? & ? & ? & _); done).
    destruct (post_application_cases ctx account json_input now invoice
                (run rs)) as [-> |(a' & Hfresh & -> & Hsettled & Hreg)].
    { destruct (IH k) as [IH1 IH2]. split.
      - intros a Ha. destruct (IH1 a Ha). auto.
      - intros [H|H]; [auto|by destruct (Hno k)]. }
    split.
    + intros a. rewrite lookup_insert. case_decide as Hk.
      * intros [= <-]. split; [done|]. by rewrite Hreg.
      * intros Ha. destruct (IH k) as [IH1 _].
        destruct (IH1 a Ha). auto.
    + intros [H|H]; [|by destruct (Hno k)].
      destruct (IH k) as [_ IH2]. destruct (IH2 H) as (a & Ha & Hr).
      exists a. split; [|done]. rewrite lookup_insert_ne; [done|].
      intros <-. congruence.
  - (* payment *)
    assert (forall k', ~ approves (run rs)
              (UpdatePaymentDetails ctx k0 account now invoice) k')
      as Hno by (intros k' (? & ? & ? & ? & _); done).
    destruct (put_payment_cases ctx k0 account now invoice (run rs))
      as [-> |(a0 & a' & Hfind & -> & Hid & Hsettled & Hreg)].
    { destruct (IH k) as [IH1 IH2]. split.
      - intros a Ha. destruct (IH1 a Ha). auto.
      - intros [H|H]; [auto|by destruct (Hno k)]. }
    unfold find_by_id in Hfind.
    split.
    + intros a. rewrite lookup_insert. case_decide as Hk.
      * intros [= <-]. subst k. split; [done|]. rewrite Hreg. intros Hr.
        destruct (IH k0) as [IH1 _]. destruct (IH1 a0 Hfind). auto.
      * intros Ha. destruct (IH k) as [IH1 _].
        destruct (IH1 a Ha). auto.
    + intros [H|H]; [|by destruct (Hno k)].
      destruct (IH k) as [_ IH2]. destruct (IH2 H) as (a & Ha & Hr).
      rewrite lookup_insert. case_decide as Hk.
      * subst k. exists a'. split; [done|].
        rewrite Hreg. congruence.
      * exists a. done.
  - (* status *)
    destruct (put_status_cases ctx k0 status now (run rs))
      as [(-> & Herr)
         |(a0 & a' & st & Hfind & _ & Hof & Hstaff & -> & Hid & Hst & Hpsc
           & Hcase)].
    { assert (forall k', ~ approves (run rs)
                (UpdateStatus ctx k0 status now) k') as Hno.
      { intros k' (? & ? & ? & [= <- <- <- <-] & Hok). done. }
      destruct (IH k) as [IH1 IH2]. split.
      - intros a Ha. destruct (IH1 a Ha). auto.
      - intros [H|H]; [auto|by destruct (Hno k)]. }
    unfold find_by_id in Hfind.
    assert (forall k', approves (run rs) (UpdateStatus ctx k0 status now) k'
                       -> k' = k0 /\ st = Status.FULL_REVIEW_APPROVED)
      as Happ.
    { intros k' (? & ? & ? & [= <- <- <- <-] & (b & ? & ? & Hg & _)).
      split; [done|].
      apply status_guard_passes in Hg as (_ & _ & Hof' & _). congruence. }
    split.
    + intros a. rewrite lookup_insert. case_decide as Hk.
      * intros [= <-]. subst k. split.
        { intros _. rewrite Hst. intros ->.
          by destruct Hstaff as [?|[?|[?|[?|[]]]]]. }
        intros Hr. destruct Hcase as [(-> & Hok & _)|(_ & Hsame)].
        { right. exists ctx, status, now. done. }
        left. rewrite Hsame in Hr.
        destruct (IH k0) as [IH1 _]. destruct (IH1 a0 Hfind). auto.
      * intros Ha. destruct (IH k) as [IH1 _].
        destruct (IH1 a Ha). auto.
    + intros H. rewrite lookup_insert. case_decide as Hk.
      * subst k. exists a'. split; [done|].
        destruct Hcase as [(_ & _ & Hr)|(Hne & Hsame)]; [done|].
        destruct H as [H|H]; [|by destruct (Happ _ H)].
        destruct (IH k0) as [_ IH2]. destruct (IH2 H) as (a & Ha & Hr).
        rewrite Hsame. congruence.
      * destruct H as [H|H]; [|by destruct (Happ _ H)].
        destruct (IH k) as [_ IH2]. by apply IH2.
Qed.

(** *** The claims about the endpoints *)

(** One call of the status endpoint leaves a terminal row as it is. *)
Lemma status_step_keeps_terminal (w w' : list Effect) (k : nat)
    (a : Application.t) :
  status_step w w' ->
  find_by_id w k = Some a ->
  In (Application.status a) APPLICATION_TERMINAL_STATES ->
  find_by_id w' k = Some a.
Proof.
  intros (ctx & k0 & status & now & <-) Hfind Hterm.
  destruct (put_status_cases ctx k0 status now w)
    as [(-> & _)|(a0 & a' & st & Hfind0 & Hopen & _ & _ & Htable & _)];
    [done|].
  unfold find_by_id in *. rewrite Htable.
  destruct (decide (k0 = k)) as [->|Hne].
  - assert (a0 = a) as -> by congruence.
    apply Status_mem_In in Hterm. congruence.
  - by rewrite lookup_insert_ne.
Qed.

(** C1.  For an application whose status is terminal the status endpoint
    stops at its guard, before the service function: an examiner's call is
    answered 400 and the database is left as it was.  A requested status
    outside the staff-actionable ones is answered 400 as well, before
    anything is read or written.  So under the steps of the status endpoint
    a terminal row never changes. *)
Theorem terminal_rejected_at_boundary (ctx : UserContext) (k : nat)
    (status : option string) (now : Z) (w : list Effect)
    (a : Application.t)
    (Hfind : find_by_id w k = Some a)
    (Hterminal : In (Application.status a) APPLICATION_TERMINAL_STATES)
    (Hexaminer : is_examiner ctx = true) :
  (exists message,
     status_guard ctx k status w = inl (error_response message BAD_REQUEST)
     /\ put_status ctx k status now w
        = (error_response message BAD_REQUEST, w))
  /\ (forall ctx' k' status' now' w0,
       truthy status' = false
       \/ Status.str_in (default "" (upper <$> status'))
            APPLICATION_STATES_STAFF_ACTION = false ->
       put_status ctx' k' status' now' w0
       = (error_response INVALID_APPLICATION_STATUS BAD_REQUEST, w0))
  /\ (forall w', rtc status_step w w' -> find_by_id w' k = Some a).
Proof.
  split; [|split].
  - destruct (status_guard_rejects_terminal ctx k status w a Hfind
                Hterminal) as (message & code & Hguard & _ & Hcode).
    rewrite (Hcode Hexaminer) in Hguard. exists message.
    split; [done|].
    unfold Resource.update_application_status. by rewrite Hguard.
  - intros ctx' k' status' now' w0 Hbad.
    unfold Resource.update_application_status.
    by rewrite (status_guard_rejects_status ctx' k' status' w0 Hbad).
  - intros w' Hsteps. induction Hsteps as [w|w w1 w' Hstep _ IH]; [done|].
    apply IH. by apply (status_step_keeps_terminal w w1).
Qed.

(** C3.  After any sequence of requests a row has a registration exactly
    when its application was approved, that is, when a status request took
    it through the transition to FULL_REVIEW_APPROVED and the transition
    returned (whatever the endpoint then answered).  Such a transition
    provisions a registration from the application's submitter and payment
    account, logs REGISTRATION_CREATED with the registration's id, and
    stores that id on the application it saves and returns. *)
Theorem registration_iff_approved (rs : list Request) (k : nat)
    (a : Application.t)
    (Hfind : find_by_id (run rs) k = Some a) :
  (Application.registration_id a <> None <-> approved rs k)
  /\ forall now u m r m',
      transition now Status.FULL_REVIEW_APPROVED u m = (Returned r, m') ->
      exists data reg,
        (exists d, Application.application_json (obj m) = JDict d)
        /\ registration_request (Application.application_json (obj m))
           = Some data
        /\ create_registration (effects m)
             (Application.submitter_id (obj m))
             (Application.payment_account (obj m)) data = Some reg
        /\ r = obj m'
        /\ Application.registration_id r = Some (Registration.id reg)
        /\ Application.status r = Status.FULL_REVIEW_APPROVED
        /\ appended m m' =
             [Provisioned (Application.submitter_id (obj m))
                          (Application.payment_account (obj m)) data reg;
              logged Events.REGISTRATION Events.REGISTRATION_CREATED
                     (Application.id (obj m)) (Some (Registration.id reg));
              Saved r;
              logged Events.APPLICATION Events.MANUALLY_APPROVED
                     (Application.id (obj m)) None].
Proof.
  split.
  - destruct (run_invariant rs k) as [H1 H2]. split.
    + intros Hreg. by apply (H1 a Hfind).
    + intros Happ. destruct (H2 Happ) as (a' & Ha' & Hreg). congruence.
  - intros now u m r m' Hrun.
    pose proof (transition_shape registration_request create_registration
                  now Status.FULL_REVIEW_APPROVED u m) as Hshape.
    cbv zeta in Hshape. rewrite Hrun in Hshape.
    cbn [fst snd] in Hshape.
    destruct Hshape as [(_ & [?|[?|?]] & _)|[(_ & Hok)|[(? & _)|(? & _)]]];
      try done.
    destruct Hok as (data & reg & Hj & Hd & Hr & [= ->] & Ha' & Heff).
    exists data, reg. repeat split; try done.
    + by rewrite Ha'.
    + by rewrite Ha'.
    + by apply appended_app.
Qed.

(** C6.  For a draft application of the database, an invoice whose status
    code is CREATED sets the invoice id, the payment account and the
    payment status code from the invoice, moves the status to PAYMENT_DUE,
    and logs exactly one event, APPLICATION_SUBMITTED; no PAYMENT_COMPLETE
    event is logged in the call. *)
Theorem draft_created_becomes_payment_due (rs : list Request) (k : nat)
    (a : Application.t) (now : Z) (inv : InvoiceDetails)
    (invoice : option Z) (account : option string)
    (Hfind : find_by_id (run rs) k = Some a)
    (Hdraft : Application.status a = Status.DRAFT)
    (Hid : inv_id inv = Some invoice)
    (Haccount : inv_paymentAccount inv = Some account)
    (Hcode : inv_statusCode inv = Some "CREATED") :
  let m := {| obj := a; effects := run rs |} in
  let r := (reconcile now inv m).1 in
  let m' := (reconcile now inv m).2 in
  r = Returned (obj m')
  /\ Application.status (obj m') = Status.PAYMENT_DUE
  /\ Application.invoice_id (obj m') = invoice
  /\ Application.payment_account (obj m') = account
  /\ Application.payment_status_code (obj m') = Some "CREATED"
  /\ appended m m' =
       [logged Events.APPLICATION Events.APPLICATION_SUBMITTED k None;
        Saved (obj m')]
  /\ events_of (appended m m') =
       [{| Events.event_type := Events.APPLICATION;
           Events.event_name := Events.APPLICATION_SUBMITTED;
           Events.application_id := k;
           Events.registration_id := None |}].
Proof.
  intros m r m'.
  assert (Application.payment_status_code a <> Some "COMPLETED") as Hopen.
  { intros Hdone. destruct (run_invariant rs k) as [H1 _].
    destruct (H1 a Hfind) as [Hsettled _]. by apply Hsettled. }
  pose proof (applications_key _ _ _ Hfind) as Hkey.
  pose proof (reconcile_draft_created fromisoformat now inv m invoice
                account Hopen Hdraft Hid Haccount Hcode) as Hrun.
  cbv zeta in Hrun. unfold r, m'. rewrite Hrun.
  cbn [fst snd obj effects].
  match goal with
  | |- context [appended m ?x] =>
      assert (appended m x =
              [logged Events.APPLICATION Events.APPLICATION_SUBMITTED k None;
               Saved (due_on_creation invoice account a)]) as ->
        by (apply appended_app; simpl; by rewrite Hkey)
  end.
  done.
Qed.

End ResourceFacts.

(** * Properties of the paginated query *)

Section PaginationFacts.

Import Application.

Variable upper : string -> string.

Abbreviation matching := (Application.matching upper).
Abbreviation find_by_user_and_account :=
  (Application.find_by_user_and_account upper).

Lemma id_desc_total : Total id_desc.
Proof. intros a b. unfold id_desc. lia. Qed.

Lemma order_by_id_desc_sorted (rows : list Application.t) :
  Sorted id_desc (order_by_id_desc rows).
Proof. apply (@Sorted_merge_sort _ id_desc _ id_desc_total). Qed.

Lemma order_by_id_desc_perm (rows : list Application.t) :
  order_by_id_desc rows ≡ₚ rows.
Proof. apply merge_sort_Permutation. Qed.

Lemma order_by_id_desc_length (rows : list Application.t) :
  length (order_by_id_desc rows) = length rows.
Proof. apply Permutation_length, order_by_id_desc_perm. Qed.

Lemma capped_id (max_per_page : option Z) (per_page : Z) :
  within_cap max_per_page per_page ->
  match max_per_page with
  | Some cap => Z.min per_page cap
  | None => per_page
  end = per_page.
Proof.
  intros Hcap. destruct max_per_page as [cap|]; [|done].
  specialize (Hcap cap eq_refl). lia.
Qed.

(** A page that holds a row, or the first page: the slice and the count. *)
Lemma paginate_page (max_per_page : option Z) (rows : list Application.t)
    (per_page page : Z) :
  within_cap max_per_page per_page ->
  (1 <= page)%Z -> (1 <= per_page)%Z ->
  page = 1%Z \/ Z.to_nat ((page - 1) * per_page) < length rows ->
  paginate max_per_page true rows per_page page =
    Returned {| items := take (Z.to_nat per_page)
                           (drop (Z.to_nat ((page - 1) * per_page)) rows);
                total := length rows |}.
Proof.
  intros Hcap Hpage Hper Hin. unfold paginate. rewrite (capped_id _ _ Hcap).
  destruct (Z.ltb_spec page 1); [lia|].
  destruct (Z.ltb_spec per_page 1); [lia|]. simpl.
  destruct Hin as [-> | Hin]; [by rewrite andb_false_r|].
  rewrite bool_decide_eq_false_2; [done|].
  intros Hnil. apply (f_equal length) in Hnil.
  rewrite length_take, length_drop in Hnil. simpl in Hnil. lia.
Qed.

(** A later page that holds no row: 404. *)
Lemma paginate_beyond (max_per_page : option Z) (rows : list Application.t)
    (per_page page : Z) :
  within_cap max_per_page per_page ->
  (1 < page)%Z -> (1 <= per_page)%Z ->
  length rows <= Z.to_nat ((page - 1) * per_page) ->
  paginate max_per_page true rows per_page page = Raised NotFound.
Proof.
  intros Hcap Hpage Hper Hout. unfold paginate.
  rewrite (capped_id _ _ Hcap).
  destruct (Z.ltb_spec page 1); [lia|].
  destruct (Z.ltb_spec per_page 1); [lia|]. simpl.
  rewrite (drop_ge rows) by done. rewrite take_nil.
  rewrite bool_decide_eq_true_2 by done.
  destruct (Z.eqb_spec page 1); [lia|done].
Qed.

(** What the query selects. *)
Lemma matching_In (user_id : nat) (account_id : option string)
    (c : ApplicationSearch) (is_examiner : bool)
    (rows : list Application.t) (a : Application.t) :
  In a (matching user_id account_id c is_examiner rows) <->
  In a rows
  /\ (is_examiner = true
      \/ submitter_id a = Some user_id /\ payment_account a = account_id)
  /\ (truthy (filter_status c) = true ->
      upper <$> filter_status c = Some (Status.name (status a))).
Proof.
  unfold Application.matching.
  destruct is_examiner; simpl;
    destruct (truthy (filter_status c)) eqn:Hf;
    rewrite ?filter_In, ?bool_decide_eq_true;
    [destruct (filter_status c) as [s|]; [|done]; simpl;
     rewrite String.eqb_eq
    | |destruct (filter_status c) as [s|]; [|done]; simpl;
       rewrite String.eqb_eq
    | ]; intuition congruence.
Qed.

(** C8, as the code has it.  The query orders the matching rows by id,
    descending.  For a page p >= 1 and a limit l >= 1 (within the
    pagination library's cap on the page size, when it has one), when the
    page holds a row or is the first page, the result is the rows at the
    positions from (p-1)*l up to p*l of that order, with the number of
    matching rows as total (page 2 with limit 10 gives 5 rows of 15, and
    10 rows of 25 with total 25).  A page other than the first that lies
    beyond the data is answered with a 404 error, not with an empty
    list. *)
Theorem find_by_user_and_account_page (max_per_page : option Z)
    (rows : list Application.t) (user_id : nat)
    (account_id : option string) (c : ApplicationSearch)
    (is_examiner : bool)
    (Hcap : within_cap max_per_page (limit c))
    (Hpage : (1 <= page c)%Z) (Hlimit : (1 <= limit c)%Z) :
  let matched := matching user_id account_id c is_examiner rows in
  let ordered := order_by_id_desc matched in
  let offset := Z.to_nat ((page c - 1) * limit c) in
  let size := Z.to_nat (limit c) in
  let result := find_by_user_and_account max_per_page rows user_id
                  account_id c is_examiner in
  Sorted id_desc ordered
  /\ ordered ≡ₚ matched
  /\ (page c = 1%Z \/ offset < length matched ->
      result = Returned {| items := take size (drop offset ordered);
                           total := length matched |}
      /\ length (take size (drop offset ordered))
         = min size (length matched - offset))
  /\ ((1 < page c)%Z -> length matched <= offset ->
      result = Raised NotFound)
  /\ (page c = 2%Z -> limit c = 10%Z -> length matched = 15 ->
      exists p, result = Returned p /\ length (items p) = 5 /\ total p = 15)
  /\ (page c = 2%Z -> limit c = 10%Z -> length matched = 25 ->
      exists p, result = Returned p /\ length (items p) = 10
                /\ total p = 25).
Proof.
  intros matched ordered offset size result.
  assert (length ordered = length matched) as Hlen
    by apply order_by_id_desc_length.
  assert (page c = 1%Z \/ offset < length matched ->
          result = Returned {| items := take size (drop offset ordered);
                               total := length matched |}
          /\ length (take size (drop offset ordered))
             = min size (length matched - offset)) as Hin.
  { intros Hin. split.
    - unfold result, Application.find_by_user_and_account.
      fold matched. fold ordered.
      rewrite paginate_page;
        [by rewrite Hlen|done|done|done|by rewrite Hlen].
    - by rewrite length_take, length_drop, Hlen. }
  split; [apply order_by_id_desc_sorted|].
  split; [apply order_by_id_desc_perm|].
  split; [done|].
  split.
  { intros Hlater Hout.
    unfold result, Application.find_by_user_and_account.
    fold matched. fold ordered.
    apply paginate_beyond; [done|done|done|by rewrite Hlen]. }
  split.
  - intros Hp Hl Hn.
    destruct Hin as [Hres Hitems]; [right; unfold offset; lia|].
    eexists. split; [exact Hres|]. simpl. split; [|done].
    rewrite Hitems. unfold size, offset. lia.
  - intros Hp Hl Hn.
    destruct Hin as [Hres Hitems]; [right; unfold offset; lia|].
    eexists. split; [exact Hres|]. simpl. split; [|done].
    rewrite Hitems. unfold size, offset. lia.
Qed.

End PaginationFacts.

(** * The scenarios, run *)

Section Scenarios.

Import ApplicationService.
Import Resource.
Import Scenario.

(** The specification's submit scenario: a valid payload on account A1,
    an invoice with status code CREATED: the application is saved as a
    draft, then moved to PAYMENT_DUE, and APPLICATION_SUBMITTED is
    logged. *)
Example submit_scenario :
  create_application iso valid isoformat users_of registrations_of host
    (Some "A1") document 0%Z (Some (invoice "CREATED")) []
  = (jsonify (due_on_creation (Some 55%Z) (Some "A1")
                (application 0 Status.DRAFT))
       CREATED,
     [Saved (application 0 Status.DRAFT);
      logged Events.APPLICATION Events.APPLICATION_SUBMITTED 0 None;
      Saved (due_on_creation (Some 55%Z) (Some "A1")
               (application 0 Status.DRAFT))]).
Proof. vm_compute. reflexivity. Qed.

(** The specification's decline scenario: DECLINED on an application in
    FULL_REVIEW sets the status, the decision date and the reviewer, logs
    MANUALLY_DENIED and provisions nothing. *)
Example decline_scenario :
  let a := paid_application 1 Status.FULL_REVIEW in
  let a' := decided 7%Z (user examiner)
              (Application.set_status Status.DECLINED a) in
  update_application_status request_ok provision ascii_upper isoformat
    users_of registrations_of examiner 1 (Some "declined") 7%Z [Saved a]
  = (jsonify a' OK,
     [Saved a; Saved a';
      logged Events.APPLICATION Events.MANUALLY_DENIED 1 None]).
Proof. vm_compute. reflexivity. Qed.

(** The guard of the status endpoint is the only place that looks at
    terminal statuses: the payment endpoint does not, and moves a declined
    application whose payment was still due to PAID. *)
Example late_payment_reopens_declined :
  let declined := removelast late_payment_requests in
  (Application.status <$>
     find_by_id
       (run iso request_ok provision valid ascii_upper isoformat users_of
          registrations_of declined) 0)
  = Some Status.DECLINED
  /\ (Application.status <$>
      find_by_id
        (run iso request_ok provision valid ascii_upper isoformat users_of
           registrations_of late_payment_requests) 0)
     = Some Status.PAID.
Proof. vm_compute. done. Qed.

(** C1, on an instance: an examiner asks to decline an application that
    is already declined. *)
Lemma terminal_rejected_at_boundary_witness :
  exists message,
    update_application_status request_ok provision ascii_upper isoformat
      users_of registrations_of examiner 1 (Some "declined") 7%Z
      [Saved (paid_application 1 Status.DECLINED)]
    = (error_response message BAD_REQUEST,
       [Saved (paid_application 1 Status.DECLINED)]).
Proof.
  assert (In (Application.status (paid_application 1 Status.DECLINED))
             APPLICATION_TERMINAL_STATES) as Hterminal
    by (simpl; tauto).
  destruct (terminal_rejected_at_boundary request_ok provision ascii_upper
              isoformat users_of registrations_of examiner 1
              (Some "declined") 7%Z
              [Saved (paid_application 1 Status.DECLINED)]
              (paid_application 1 Status.DECLINED)
              eq_refl Hterminal eq_refl) as [(message & _ & H) _].
  exists message. exact H.
Defined.

(** C2, on an instance: a COMPLETED invoice on a paid application. *)
Lemma reconcile_completed_idempotent_witness :
  let m := {| obj := paid_application 1 Status.PAID; effects := [] |} in
  update_application_payment_details_and_status iso 0%Z
    (invoice "COMPLETED") m
  = (Returned (obj m), m).
Proof.
  exact (proj1 (reconcile_completed_idempotent iso 0%Z (invoice "COMPLETED")
                  {| obj := paid_application 1 Status.PAID; effects := [] |}
                  eq_refl)).
Defined.

(** C3, on an instance: the row the approval scenario leaves has a
    registration, so the application was approved. *)
Lemma registration_iff_approved_witness :
  approved iso request_ok provision valid ascii_upper isoformat users_of
    registrations_of approval_requests 0.
Proof.
  apply (registration_iff_approved iso request_ok provision valid
           ascii_upper isoformat users_of registrations_of
           approval_requests 0 approved_row).
  - vm_compute. reflexivity.
  - simpl. discriminate.
Defined.

(** C4, on an instance: the provisioner fails on an approval. *)
Lemma provisioning_failure_saves_nothing_witness :
  let m := {| obj := paid_application 1 Status.PAID;
              effects := [Saved (paid_application 1 Status.PAID)] |} in
  (ApplicationService.update_application_status request_ok provision_fails
     7%Z Status.FULL_REVIEW_APPROVED (user examiner) m).1
  = Raised ProvisioningError.
Proof.
  exact (proj1 (provisioning_failure_saves_nothing request_ok
                  provision_fails 7%Z (user examiner)
                  {| obj := paid_application 1 Status.PAID;
                     effects := [Saved (paid_application 1 Status.PAID)] |}
                  [("registration",
                    JDict [("unitAddress", JStr "12 Marine Drive")])]
                  (JDict [("unitAddress", JStr "12 Marine Drive")])
                  eq_refl eq_refl eq_refl)).
Defined.

(** C4, the counterexample: the stored document is a dict the request
    model accepts and the provisioner fails; after the call the
    application object is no longer what it was: its status, PAID before
    the call, is FULL_REVIEW_APPROVED. *)
Lemma provisioning_failure_assigns_status :
  let m := {| obj := paid_application 1 Status.PAID;
              effects := [Saved (paid_application 1 Status.PAID)] |} in
  let res :=
    ApplicationService.update_application_status request_ok provision_fails
      7%Z Status.FULL_REVIEW_APPROVED (user examiner) m in
  (exists d, Application.application_json (obj m) = JDict d)
  /\ res.1 = Raised ProvisioningError
  /\ Application.status (obj m) = Status.PAID
  /\ Application.status (obj res.2) = Status.FULL_REVIEW_APPROVED
  /\ obj res.2 <> obj m.
Proof.
  split; [by eexists|]. vm_compute. repeat split. discriminate.
Qed.

(** C5, the counterexample: on a stored document that is a dict the
    request model accepts, a successful transition to the terminal status
    FULL_REVIEW_APPROVED logs two events, not one. *)
Lemma approval_logs_two_events :
  let m := {| obj := paid_application 1 Status.PAID;
              effects := [Saved (paid_application 1 Status.PAID)] |} in
  let res :=
    ApplicationService.update_application_status request_ok provision
      7%Z Status.FULL_REVIEW_APPROVED (user examiner) m in
  (exists d, Application.application_json (obj m) = JDict d)
  /\ In Status.FULL_REVIEW_APPROVED APPLICATION_TERMINAL_STATES
  /\ res.1 = Returned (obj res.2)
  /\ length (events_of (appended m res.2)) = 2.
Proof. split; [by eexists|]. vm_compute. repeat split. by left. Qed.

(** C6, on an instance: the draft a failed invoice call left behind gets
    its invoice. *)
Lemma draft_created_becomes_payment_due_witness :
  let m := {| obj := application 0 Status.DRAFT;
              effects := [Saved (application 0 Status.DRAFT)] |} in
  (update_application_payment_details_and_status iso 3%Z
     (invoice "CREATED") m).1
  = Returned (obj (update_application_payment_details_and_status iso 3%Z
                     (invoice "CREATED") m).2).
Proof.
  exact (proj1 (draft_created_becomes_payment_due iso request_ok provision
                  valid ascii_upper isoformat users_of registrations_of
                  [CreateApplication host (Some "A1") document 0%Z None]
                  0 (application 0 Status.DRAFT) 3%Z (invoice "CREATED")
                  (Some 55%Z) (Some "A1") eq_refl eq_refl eq_refl eq_refl
                  eq_refl)).
Defined.

(** C7, on an instance: an APPROVED invoice on an application whose
    payment is due. *)
Lemma reconcile_approved_pays_witness :
  let m := {| obj := application 1 Status.PAYMENT_DUE; effects := [] |} in
  Application.status
    (obj (update_application_payment_details_and_status iso 3%Z
            (invoice "APPROVED") m).2)
  = Status.PAID.
Proof.
  assert (Application.payment_status_code (application 1 Status.PAYMENT_DUE)
          <> Some "COMPLETED") as Hopen by discriminate.
  exact (proj1 (proj2 (proj2
           (reconcile_approved_pays iso 3%Z (invoice "APPROVED")
              {| obj := application 1 Status.PAYMENT_DUE; effects := [] |}
              (Some 55%Z) (Some "A1") Hopen eq_refl eq_refl eq_refl)))).
Defined.

(** C8, on an instance: page 2 with limit 10 over 15 rows. *)
Lemma find_by_user_and_account_page_witness :
  exists p,
    Application.find_by_user_and_account ascii_upper (Some 100%Z) (rows 15)
      3 (Some "A1") (criteria 2 10) false = Returned p
    /\ length (Application.items p) = 5
    /\ Application.total p = 15.
Proof.
  assert (Application.within_cap (Some 100%Z)
            (Application.limit (criteria 2 10)))
    as Hcap by (intros cap [= <-]; simpl; lia).
  assert ((1 <= Application.page (criteria 2 10))%Z) as Hpage
    by (simpl; lia).
  assert ((1 <= Application.limit (criteria 2 10))%Z) as Hlimit
    by (simpl; lia).
  destruct (find_by_user_and_account_page ascii_upper (Some 100%Z) (rows 15)
              3 (Some "A1") (criteria 2 10) false Hcap Hpage Hlimit)
    as (_ & _ & _ & _ & H15 & _).
  apply H15; reflexivity.
Defined.

(** C8, the counterexample: page 3 with limit 10 over 15 matching rows
    lies beyond the data, and the query raises the 404 error instead of
    returning an empty list, with a cap on the page size or without. *)
Lemma page_beyond_data_not_found :
  length (Application.matching ascii_upper 3 (Some "A1") (criteria 3 10)
            false (rows 15)) = 15
  /\ Application.find_by_user_and_account ascii_upper None (rows 15) 3
       (Some "A1") (criteria 3 10) false = Raised NotFound
  /\ Application.find_by_user_and_account ascii_upper (Some 100%Z) (rows 15)
       3 (Some "A1") (criteria 3 10) false = Raised NotFound.
Proof. vm_compute. done. Qed.

(** C9, the counterexample: reconciling a CREATED invoice into a draft
    logs APPLICATION_SUBMITTED first and saves the application after. *)
Lemma submitted_event_precedes_save :
  let m := {| obj := application 1 Status.DRAFT;
              effects := [Saved (application 1 Status.DRAFT)] |} in
  let m' := (update_application_payment_details_and_status iso 3%Z
               (invoice "CREATED") m).2 in
  appended m m'
  = [logged Events.APPLICATION Events.APPLICATION_SUBMITTED 1 None;
     Saved (obj m')]
  /\ logged_after_save (fun _ => true) false (appended m m') = false.
Proof. vm_compute. done. Qed.


End Scenarios.

(** * Further properties of the reconciliation *)

Section ReconciliationFacts.

Import ApplicationService.
Import Rows.

Variable fromisoformat : string -> option Z.

Abbreviation reconcile :=
  (update_application_payment_details_and_status fromisoformat).

Ltac run_reconcile :=
  unfold update_application_payment_details_and_status, bind, get, assign,
    expect, save, save_event, perform, this, ret, raise;
  simpl.

(** Each way to the save is a run of the function. *)
Lemma reconciled_run (now : Z) (inv : InvoiceDetails) (a a' : Application.t)
    (new w : list Effect) :
  reconciled fromisoformat now inv a a' new ->
  reconcile now inv {| obj := a; effects := w |}
  = (Returned a', {| obj := a'; effects := w ++ new |}).
Proof.
  intros H. destruct H as
    [invoice account Hopen Hid Hacc Hcode Hdraft
    |invoice account text date Hopen Hid Hacc Hcode Htext Hdate
    |invoice account Hopen Hid Hacc Hcode
    |invoice account Hopen Hid Hacc Hnc Hna Hcreated Hfits];
    apply py_eq_false in Hopen; run_reconcile;
    rewrite Hopen, Hid, Hacc; simpl.
  - rewrite Hcode, Hdraft. simpl. unfold perform. simpl.
    by rewrite <- app_assoc.
  - rewrite Hcode. simpl. rewrite andb_false_r. simpl.
    rewrite Htext. simpl. rewrite Hdate. simpl. by rewrite <- app_assoc.
  - rewrite Hcode. simpl. rewrite andb_false_r. simpl.
    by rewrite <- app_assoc.
  - apply py_eq_false in Hnc, Hna.
    assert (Status.eqb (Application.status a) Status.DRAFT
            && py_eq (inv_statusCode inv) PaymentStatus_CREATED = false)
      as ->.
    { apply andb_false_iff.
      destruct (py_eq (inv_statusCode inv) PaymentStatus_CREATED) eqn:Hc;
        [|by right].
      left. apply py_eq_true in Hc. specialize (Hcreated Hc).
      unfold Status.eqb. by apply bool_decide_eq_false. }
    unfold PaymentStatus_COMPLETED, PaymentStatus_APPROVED.
    rewrite Hnc, Hna. simpl. unfold status_fits in *. simpl.
    rewrite Hfits. simpl. by rewrite Hnc.
Qed.

(** A run either performs nothing (it stops at the guard, or it raises) or
    is one of the ways to the save. *)
Lemma reconcile_run_cases (now : Z) (inv : InvoiceDetails) (m : Mem) :
  let r := (reconcile now inv m).1 in
  let m' := (reconcile now inv m).2 in
  effects m' = effects m
  /\ (r = Returned (obj m) /\ m' = m
      /\ Application.payment_status_code (obj m) = Some "COMPLETED"
      \/ exists e, r = Raised e)
  \/ r = Returned (obj m')
     /\ exists new,
         effects m' = effects m ++ new
         /\ reconciled fromisoformat now inv (obj m) (obj m') new.
Proof.
  destruct m as [a w]. run_reconcile.
  destruct (py_eq (Application.payment_status_code a) "COMPLETED")
    eqn:Hdone; simpl.
  { apply py_eq_true in Hdone. left. split; [done|]. by left. }
  apply py_eq_false in Hdone.
  destruct (inv_id inv) as [invoice|] eqn:Hid; simpl;
    [|left; split; [done|right; by eexists]].
  destruct (inv_paymentAccount inv) as [account|] eqn:Hacc; simpl;
    [|left; split; [done|right; by eexists]].
  destruct (Status.eqb (Application.status a) Status.DRAFT
            && py_eq (inv_statusCode inv) PaymentStatus_CREATED) eqn:Hrule1;
    simpl.
  { apply andb_true_iff in Hrule1 as [Hd Hc].
    apply py_eq_true in Hc. apply Status_eqb_true in Hd.
    rewrite Hc. simpl. right. split; [done|].
    eexists. split; [by rewrite <- app_assoc|].
    by apply (reconciled_created _ _ _ _ invoice account). }
  destruct (py_eq (inv_statusCode inv) PaymentStatus_COMPLETED) eqn:Hrule2;
    simpl.
  { destruct (inv_paymentDate inv) as [text|] eqn:Htext; simpl;
      [|left; split; [done|right; by eexists]].
    destruct (fromisoformat text) as [date|] eqn:Hdate; simpl;
      [|left; split; [done|right; by eexists]].
    rewrite Hrule2. simpl. apply py_eq_true in Hrule2.
    right. split; [done|].
    eexists. split; [by rewrite <- app_assoc|].
    rewrite Hrule2.
    by apply (reconciled_completed _ _ _ _ invoice account text date). }
  destruct (py_eq (inv_statusCode inv) PaymentStatus_APPROVED) eqn:Hrule3;
    simpl.
  { apply py_eq_true in Hrule3. right. split; [done|].
    eexists. split; [by rewrite <- app_assoc|].
    rewrite Hrule3.
    by apply (reconciled_approved _ _ _ _ invoice account). }
  match goal with
  | |- context [status_fits ?x] => destruct (status_fits x) eqn:Hfits
  end; simpl;
    [|left; split; [done|right; by eexists]].
  rewrite Hrule2. simpl. right. split; [done|].
  eexists. split; [done|].
  apply py_eq_false in Hrule2, Hrule3.
  apply (reconciled_other _ _ _ _ invoice account); try done.
  intros Hc. apply andb_false_iff in Hrule1 as [Hd|Hx].
  - intros Hdraft. apply Status_eqb_true in Hdraft. congruence.
  - apply py_eq_false in Hx. done.
Qed.

End ReconciliationFacts.

(** * The table as a transition system of rows *)

Section TableFacts.

Import ApplicationService.
Import Resource.
Import Rows.

Variable fromisoformat : string -> option Z.
Variable registration_request : json -> option json.
Variable create_registration :
  list Effect -> option nat -> option string -> json ->
  option Registration.t.
Variable validate : json -> bool.
Variable upper : string -> string.
Variable isoformat : Z -> string.
Variable users : list Effect -> nat -> option ApplicationSerializer.Person.
Variable registrations :
  list Effect -> nat -> option ApplicationSerializer.Details.

Abbreviation reconcile :=
  (update_application_payment_details_and_status fromisoformat).
Abbreviation transition :=
  (ApplicationService.update_application_status registration_request
     create_registration).
Abbreviation status_guard := (Resource.status_guard upper).
Abbreviation serialized :=
  (Resource.serialized isoformat users registrations).
Abbreviation put_status :=
  (Resource.update_application_status registration_request
     create_registration upper isoformat users registrations).
Abbreviation put_payment :=
  (Resource.update_application_payment_details fromisoformat isoformat
     users registrations).
Abbreviation post_application :=
  (Resource.create_application fromisoformat validate isoformat users
     registrations).
Abbreviation handle :=
  (Resource.handle fromisoformat registration_request create_registration
     validate upper isoformat users registrations).
Abbreviation run :=
  (Resource.run fromisoformat registration_request create_registration
     validate upper isoformat users registrations).

Lemma reconciled_id (now : Z) (inv : InvoiceDetails) (a a' : Application.t)
    (new : list Effect) :
  reconciled fromisoformat now inv a a' new ->
  Application.id a' = Application.id a
  /\ foldl write (applications []) new = {[Application.id a := a']}.
Proof. intros H. destruct H; simpl; split; try done. Qed.

Lemma reconciled_table (now : Z) (inv : InvoiceDetails)
    (a a' : Application.t) (new w : list Effect) :
  reconciled fromisoformat now inv a a' new ->
  applications (w ++ new) = <[Application.id a := a']> (applications w)
  /\ events_of (w ++ new) = events_of w ++ events_of new.
Proof.
  intros H. rewrite applications_app. unfold events_of.
  rewrite omap_app. by destruct H.
Qed.

Lemma row_step_id (a a' : Application.t) (evs : list Events.t) :
  row_step fromisoformat a a' evs -> Application.id a' = Application.id a.
Proof.
  intros [now inv b new H|now u st _ _ _|now u reg _].
  - by destruct (reconciled_id _ _ _ _ _ H).
  - by destruct (Status.mem st APPLICATION_TERMINAL_STATES).
  - done.
Qed.

Lemma events_of_app (w new : list Effect) :
  events_of (w ++ new) = events_of w ++ events_of new.
Proof. unfold events_of. apply omap_app. Qed.

(** The status endpoint either leaves the trace as it is and answers an
    error, or changes the row it read; any application it answers with is
    the row it leaves. *)
Lemma put_status_table (ctx : UserContext) (k : nat)
    (status : option string) (now : Z) (w : list Effect) :
  let response := (put_status ctx k status now w).1 in
  let w' := (put_status ctx k status now w).2 in
  w' = w /\ (forall b c, response <> jsonify b c)
  \/ exists a a' evs,
      find_by_id w k = Some a
      /\ row_step fromisoformat a a' evs
      /\ applications w' = <[k := a']> (applications w)
      /\ events_of w' = events_of w ++ evs
      /\ find_by_id w' k = Some a'
      /\ (forall b c, response = jsonify b c -> b = a').
Proof.
  unfold Resource.update_application_status.
  destruct (status_guard ctx k status w) as [response|[a st]] eqn:Hguard.
  { left. split; [done|]. simpl. intros b c ->.
    revert Hguard. unfold Resource.status_guard. by repeat case_match. }
  apply status_guard_passes in Hguard as (Hfind & Hopen & Hof & Hstaff).
  pose proof (applications_key _ _ _ Hfind) as Hkey.
  pose proof (transition_shape registration_request create_registration
                now st (user ctx) {| obj := a; effects := w |}) as Hshape.
  cbv zeta in Hshape.
  destruct (transition now st (user ctx) {| obj := a; effects := w |})
    as [r m'] eqn:Hrun.
  cbn [fst snd obj effects] in Hshape.
  set (result := let (o, m) := (r, m') in
                 match o with
                 | Returned _ =>
                     (serialized (obj m) OK (effects m), effects m)
                 | Raised _ =>
                     (error_response PROCESSING_ERROR INTERNAL_SERVER_ERROR,
                      effects m)
                 end).
  assert (result.2 = effects m'
          /\ forall b c, result.1 = jsonify b c -> b = obj m')
    as [Hres2 Hres1].
  { unfold result. destruct r; simpl; split; try done.
    intros b c Hb. by apply serialized_application in Hb as [-> _]. }
  assert (forall evs,
            applications (effects m') = <[k := obj m']> (applications w) ->
            events_of (effects m') = events_of w ++ evs ->
            row_step fromisoformat a (obj m') evs ->
            result.2 = w /\ (forall b c, result.1 <> jsonify b c)
            \/ exists a0 a' evs,
                find_by_id w k = Some a0
                /\ row_step fromisoformat a0 a' evs
                /\ applications result.2 = <[k := a']> (applications w)
                /\ events_of result.2 = events_of w ++ evs
                /\ find_by_id result.2 k = Some a'
                /\ (forall b c, result.1 = jsonify b c -> b = a'))
    as Hsaved.
  { intros evs Htable Hlog Hstep. right. exists a, (obj m'), evs.
    unfold find_by_id. rewrite Hres2, Htable.
    by rewrite lookup_insert_eq. }
  destruct Hshape
    as [(_ & Hraise & _ & Heff)
       |[(-> & Hok)|[(Hne & Ha' & Hev)|(_ & _ & _ & -> & Heff)]]];
    [| | |left; unfold result; simpl; by rewrite Heff].
  - left. unfold result.
    destruct Hraise as [->|[->| ->]]; simpl; by rewrite Heff.
  - destruct Hok as (data & reg & _ & _ & _ & _ & Ha' & Heff).
    assert (row_step fromisoformat a (obj m')
              [event Events.REGISTRATION Events.REGISTRATION_CREATED
                     (Application.id a) (Some (Registration.id reg));
               event Events.APPLICATION Events.MANUALLY_APPROVED
                     (Application.id a) None]) as Hstep.
    { rewrite Ha'. by apply (row_approved _ _ now (user ctx) reg). }
    pose proof (row_step_id _ _ _ Hstep) as Hid. rewrite Hkey in Hid.
    eapply Hsaved; [| |exact Hstep].
    + rewrite Heff, applications_app. simpl. by rewrite Hid.
    + by rewrite Heff, events_of_app.
  - assert (row_step fromisoformat a (obj m')
              (status_events st (Application.id a))) as Hstep.
    { rewrite Ha'. by apply (row_transitioned _ _ now (user ctx) st). }
    pose proof (row_step_id _ _ _ Hstep) as Hid. rewrite Hkey in Hid.
    eapply Hsaved; [| |exact Hstep].
    + destruct Hev as [(_ & _ & Heff)|(n & _ & _ & Heff)];
        rewrite Heff, applications_app; simpl; by rewrite Hid.
    + unfold status_events.
      destruct Hev as [(_ & -> & Heff)|(n & -> & _ & Heff)];
        rewrite Heff, events_of_app; simpl; [by rewrite app_nil_r|done].
Qed.

(** The payment endpoint either leaves the trace as it is (and then any
    application it answers with is the one it read) or answers 200 with the
    application one of the ways to the save leaves. *)
Lemma put_payment_table (ctx : UserContext) (k : nat)
    (account : option string) (now : Z) (invoice : option InvoiceDetails)
    (w : list Effect) :
  (put_payment ctx k account now invoice w).2 = w
  /\ (forall b c,
       (put_payment ctx k account now invoice w).1 = jsonify b c ->
       find_by_id w k = Some b)
  \/ exists a a' inv new,
      get_application ctx w k account = Returned (Some a)
      /\ invoice = Some inv
      /\ reconciled fromisoformat now inv a a' new
      /\ put_payment ctx k account now invoice w
         = (serialized a' OK (w ++ new), w ++ new).
Proof.
  unfold Resource.update_application_payment_details.
  destruct (negb (truthy account)); [by left|].
  destruct (get_application ctx w k account) as [[a|]|] eqn:Hget;
    [|by left..].
  destruct invoice as [inv|]; [|by left].
  pose proof (reconcile_run_cases fromisoformat now inv
                {| obj := a; effects := w |}) as Hcases.
  cbv zeta in Hcases.
  destruct (reconcile now inv {| obj := a; effects := w |})
    as [r m'] eqn:Hrun.
  cbn [fst snd obj effects] in Hcases.
  destruct Hcases as [(Heff & Hwhy)|(-> & new & Heff & Hrec)].
  - left. destruct Hwhy as [(-> & -> & _)|(e & ->)]; simpl; [|done].
    split; [done|]. intros b c Hb.
    apply serialized_application in Hb as [-> _].
    by apply get_application_found in Hget.
  - right. exists a, (obj m'), inv, new. simpl. by rewrite Heff.
Qed.

(** Creation leaves the trace as it is and answers an error, or saves the
    new draft (and then any application it answers with is that draft), or
    saves it and reconciles it with its first invoice. *)
Lemma post_application_table (ctx : UserContext)
    (account : option string) (json_input : json) (now : Z)
    (invoice : option InvoiceDetails) (w : list Effect) :
  let a0 := new_application ctx now account json_input
              (fresh (dom (applications w))) in
  let result := post_application ctx account json_input now invoice w in
  result = (error_response INVALID_REQUEST BAD_REQUEST, w)
  \/ result.2 = w ++ [Saved a0]
     /\ (forall b c, result.1 = jsonify b c -> b = a0)
  \/ exists a' inv new,
      invoice = Some inv
      /\ reconciled fromisoformat now inv a0 a' new
      /\ result = (serialized a' CREATED ((w ++ [Saved a0]) ++ new),
                   (w ++ [Saved a0]) ++ new).
Proof.
  intros a0. unfold Resource.create_application.
  destruct (negb (validate json_input)); [by left|].
  unfold save_application. fold (new_application ctx now account json_input
                                   (fresh (dom (applications w)))).
  fold a0. cbv zeta.
  destruct invoice as [inv|]; [|by right; left].
  pose proof (reconcile_run_cases fromisoformat now inv
                {| obj := a0; effects := w ++ [Saved a0] |}) as Hcases.
  cbv zeta in Hcases.
  destruct (reconcile now inv {| obj := a0; effects := w ++ [Saved a0] |})
    as [r m'] eqn:Hrun.
  cbn [fst snd obj effects] in Hcases.
  destruct Hcases as [(Heff & Hwhy)|(-> & new & Heff & Hrec)].
  - right; left. destruct Hwhy as [(-> & -> & _)|(e & ->)]; simpl; [|done].
    split; [done|]. intros b c Hb.
    by apply serialized_application in Hb as [-> _].
  - right; right. exists (obj m'), inv, new. simpl. by rewrite Heff.
Qed.

(** Every request is a step of the database. *)
Lemma handle_db_step (r : Request) (w : list Effect) :
  db_step fromisoformat (applications w) (events_of w)
    (applications (handle r w).2) (events_of (handle r w).2).
Proof.
  destruct r as [ctx account json_input now invoice
                |ctx k account now invoice
                |ctx k status now]; simpl.
  - assert (applications w !! fresh (dom (applications w)) = None)
      as Hfresh by apply not_elem_of_dom, is_fresh.
    destruct (post_application_table ctx account json_input now invoice w)
      as [-> |[[-> _] |(a' & inv & new & _ & Hrec & ->)]].
    + by left.
    + right; right. eexists ctx, now, account, json_input, _, _, [].
      split; [exact Hfresh|]. split; [by left|].
      rewrite applications_app, events_of_app. simpl.
      by rewrite app_nil_r.
    + right; right.
      eexists ctx, now, account, json_input, _, a', (events_of new).
      split; [exact Hfresh|]. split; [right; by econstructor|].
      simpl. destruct (reconciled_table _ _ _ _ _ (w ++ [Saved
        (new_application ctx now account json_input
           (fresh (dom (applications w))))]) Hrec) as [-> ->].
      rewrite applications_app, events_of_app. simpl.
      by rewrite insert_insert_eq, app_nil_r.
  - destruct (put_payment_table ctx k account now invoice w)
      as [[-> _] |(a & a' & inv & new & Hget & _ & Hrec & ->)]; [by left|].
    apply get_application_found in Hget.
    pose proof (applications_key _ _ _ Hget) as Hkey.
    right; left. exists k, a, a', (events_of new). split; [done|].
    split; [by econstructor|].
    simpl. destruct (reconciled_table _ _ _ _ _ w Hrec) as [-> ->].
    by rewrite Hkey.
  - destruct (put_status_table ctx k status now w)
      as [[-> _] |(a & a' & evs & Hfind & Hstep & -> & -> & _)];
      [by left|].
    right; left. by exists k, a, a', evs.
Qed.

(** *** Lifting facts about one row to the database *)

(** What holds of the empty database and is kept by every step holds
    after any sequence of requests. *)
Lemma run_db_invariant
    (I : gmap nat Application.t -> list Events.t -> Prop) :
  I ∅ [] ->
  (forall t log t' log',
     I t log -> db_step fromisoformat t log t' log' -> I t' log') ->
  forall rs, I (applications (run rs)) (events_of (run rs)).
Proof.
  intros Hempty Hstep rs. induction rs as [|r rs IH] using rev_ind; [done|].
  rewrite run_snoc. apply (Hstep _ _ _ _ IH), handle_db_step.
Qed.

(** What holds of a new application and is kept by every change of a row
    holds of every row, after any sequence of requests. *)
Lemma run_rows_invariant (P : Application.t -> Prop) :
  (forall ctx now account json_input k,
     P (new_application ctx now account json_input k)) ->
  (forall a a' evs, P a -> row_step fromisoformat a a' evs -> P a') ->
  forall rs k a, find_by_id (run rs) k = Some a -> P a.
Proof.
  intros Hnew Hstep rs. unfold find_by_id.
  apply (run_db_invariant (fun t _ => forall k a, t !! k = Some a -> P a)).
  { intros k a. by rewrite lookup_empty. }
  intros t log t' log' IH
    [[-> _]|[(k0 & b & b' & evs & Hb & Hbb & -> & _)
            |(ctx & now & account & js & k0 & b' & evs & Hfree & Hborn
              & -> & _)]] k a.
  - apply IH.
  - rewrite lookup_insert. case_decide as Hk; [|apply IH].
    intros [= <-]. apply (Hstep b _ evs); [by apply (IH k0)|done].
  - rewrite lookup_insert. case_decide as Hk; [|apply IH].
    intros [= <-]. destruct Hborn as [[-> _] |Hborn]; [apply Hnew|].
    by apply (Hstep _ _ evs (Hnew ctx now account js k0)).
Qed.

(** A relation that is reflexive, transitive and kept by every change of
    a row links each row to what later requests make of it; in particular
    the row is still there. *)
Lemma run_rows_history (R : relation Application.t) :
  Reflexive R -> Transitive R ->
  (forall a a' evs, row_step fromisoformat a a' evs -> R a a') ->
  forall rs rs' k a,
    find_by_id (run rs) k = Some a ->
    exists a', find_by_id (run (rs ++ rs')) k = Some a' /\ R a a'.
Proof.
  intros Hrefl Htrans Hstep rs rs'.
  induction rs' as [|r rs' IH] using rev_ind; intros k a Ha.
  { rewrite app_nil_r. by exists a. }
  destruct (IH k a Ha) as (b & Hb & Hab).
  rewrite app_assoc, run_snoc. unfold find_by_id in *.
  destruct (handle_db_step r (run (rs ++ rs')))
    as [[-> _]|[(k0 & c & c' & evs & Hc & Hcc & -> & _)
               |(ctx & now & account & js & k0 & c' & evs & Hfree & _
                 & -> & _)]].
  - by exists b.
  - rewrite lookup_insert. case_decide as Hk; [|by exists b].
    subst k0. exists c'. split; [done|].
    assert (c = b) as -> by congruence.
    by apply (Htrans _ b); [|apply (Hstep _ _ evs)].
  - rewrite lookup_insert_ne; [by exists b|]. intros <-. congruence.
Qed.

End TableFacts.

(** * What the endpoints keep true of the database *)

Section LifecycleProperties.

Import ApplicationService.
Import Resource.
Import Rows.

Variable fromisoformat : string -> option Z.
Variable registration_request : json -> option json.
Variable create_registration :
  list Effect -> option nat -> option string -> json ->
  option Registration.t.
Variable validate : json -> bool.
Variable upper : string -> string.
Variable isoformat : Z -> string.
Variable users : list Effect -> nat -> option ApplicationSerializer.Person.
Variable registrations :
  list Effect -> nat -> option ApplicationSerializer.Details.

Abbreviation reconcile :=
  (update_application_payment_details_and_status fromisoformat).
Abbreviation status_guard := (Resource.status_guard upper).
Abbreviation serialized :=
  (Resource.serialized isoformat users registrations).
Abbreviation put_status :=
  (Resource.update_application_status registration_request
     create_registration upper isoformat users registrations).
Abbreviation put_payment :=
  (Resource.update_application_payment_details fromisoformat isoformat
     users registrations).
Abbreviation post_application :=
  (Resource.create_application fromisoformat validate isoformat users
     registrations).
Abbreviation handle :=
  (Resource.handle fromisoformat registration_request create_registration
     validate upper isoformat users registrations).
Abbreviation run :=
  (Resource.run fromisoformat registration_request create_registration
     validate upper isoformat users registrations).
Abbreviation status_step :=
  (Resource.status_step registration_request create_registration upper
     isoformat users registrations).
Abbreviation transition :=
  (ApplicationService.update_application_status registration_request
     create_registration).

(** Case analysis on a change of a row, down to the branch taken. *)
Ltac row_cases H :=
  let Hrec := fresh "Hrec" in
  destruct H as [?now ?inv ?a' ?new Hrec
                |?now ?u ?st ?Hstaff ?Hopen ?Hne
                |?now ?u ?reg ?Hopen];
  [destruct Hrec| |].

Lemma row_step_same_origin (a a' : Application.t) (evs : list Events.t) :
  row_step fromisoformat a a' evs -> same_origin a a'.
Proof.
  intros H. unfold same_origin. row_cases H; try done.
  by destruct (Status.mem st APPLICATION_TERMINAL_STATES).
Qed.

Lemma row_step_payment_kept (a a' : Application.t) (evs : list Events.t) :
  row_step fromisoformat a a' evs -> payment_kept a a'.
Proof.
  intros H Hdone. row_cases H; try done.
  by destruct (Status.mem st APPLICATION_TERMINAL_STATES).
Qed.

(** X1.  Rows are never deleted and their origin is never rewritten:
    whatever requests follow, a row of the table is still there, under
    the same key, with the payload, the application date, the type and
    the submitter it was created with. *)
Theorem origin_is_kept (rs rs' : list Request) (k : nat)
    (a : Application.t)
    (Hfind : find_by_id (run rs) k = Some a) :
  exists a',
    find_by_id (run (rs ++ rs')) k = Some a'
    /\ Application.id a' = k
    /\ Application.application_json a' = Application.application_json a
    /\ Application.application_date a' = Application.application_date a
    /\ Application.type a' = Application.type a
    /\ Application.submitter_id a' = Application.submitter_id a.
Proof.
  destruct (run_rows_history fromisoformat registration_request
              create_registration validate upper isoformat users
              registrations same_origin) with
    (rs := rs) (rs' := rs') (k := k) (a := a)
    as (a' & Ha' & _ & Horigin); try done.
  - intros b c d (? & ? & ? & ? & ?) (? & ? & ? & ? & ?).
    unfold same_origin. repeat split; congruence.
  - apply row_step_same_origin.
  - exists a'. split; [done|]. split; [|done].
    by apply (applications_key _ _ _ Ha').
Qed.

(** X2.  A completed payment is final: once a row's payment status is
    COMPLETED, no later request changes its payment status, invoice id,
    payment account or payment completion date. *)
Theorem completed_payment_is_kept (rs rs' : list Request) (k : nat)
    (a : Application.t)
    (Hfind : find_by_id (run rs) k = Some a)
    (Hdone : Application.payment_status_code a = Some "COMPLETED") :
  exists a',
    find_by_id (run (rs ++ rs')) k = Some a'
    /\ Application.payment_status_code a' = Some "COMPLETED"
    /\ Application.invoice_id a' = Application.invoice_id a
    /\ Application.payment_account a' = Application.payment_account a
    /\ Application.payment_completion_date a'
       = Application.payment_completion_date a.
Proof.
  destruct (run_rows_history fromisoformat registration_request
              create_registration validate upper isoformat users
              registrations payment_kept) with
    (rs := rs) (rs' := rs') (k := k) (a := a)
    as (a' & Ha' & Hkept); try done.
  - intros b c d Hbc Hcd Hb.
    destruct (Hbc Hb) as (Hc & ? & ? & ?).
    destruct (Hcd Hc) as (Hd & ? & ? & ?).
    repeat split; congruence.
  - apply row_step_payment_kept.
  - exists a'. split; [done|]. by apply Hkept.
Qed.

Lemma staff_action_not_unpaid (st : Status.t) :
  In st APPLICATION_STATES_STAFF_ACTION ->
  Status.mem st APPLICATION_UNPAID_STATES = false
  /\ st <> Status.PAID /\ st <> Status.PAYMENT_DUE /\ st <> Status.DRAFT.
Proof. intros [<-|[<-|[<-|[<-|[]]]]]; done. Qed.



Lemma row_step_decision_consistent (a a' : Application.t)
    (evs : list Events.t) :
  decision_consistent a -> row_step fromisoformat a a' evs ->
  decision_consistent a'.
Proof.
  clear upper isoformat.
  intros (Hboth & Hterm & Hreg) H. unfold decision_consistent.
  row_cases H.
  - (* created *) simpl. intuition (try discriminate; try congruence).
  - (* completed *) simpl. intuition (try discriminate; try congruence).
  - (* approved *) simpl. intuition (try discriminate; try congruence).
  - (* any other code: the status is the one before *) done.
  - (* a status without the approval *)
    destruct (Status.mem st APPLICATION_TERMINAL_STATES) eqn:Hmem;
      cbn -[In].
    + done.
    + repeat split; try apply Hboth; try done.
      intros Hin. apply Status_mem_In in Hin. congruence.
  - (* the approval *) done.
Qed.

(** X4.  The decision fields of every row agree: the decision date is set
    exactly when the reviewer is; a row in a terminal status has both; a
    row with a registration has both. *)
Theorem rows_decision_consistent (rs : list Request) (k : nat)
    (a : Application.t)
    (Hfind : find_by_id (run rs) k = Some a) :
  (Application.decision_date a <> None <->
   Application.reviewer_id a <> None)
  /\ (In (Application.status a) APPLICATION_TERMINAL_STATES ->
      Application.decision_date a <> None
      /\ Application.reviewer_id a <> None)
  /\ (Application.registration_id a <> None ->
      Application.decision_date a <> None
      /\ Application.reviewer_id a <> None).
Proof.
  assert (decision_consistent a) as (Hboth & Hterm & Hreg).
  { apply (run_rows_invariant fromisoformat registration_request
             create_registration validate upper isoformat users
              registrations decision_consistent)
      with (rs := rs) (k := k); try done.
    - intros ctx now account js k0. unfold decision_consistent. simpl.
      repeat split; try done. intros [?|[?|[?|[?|[]]]]]; done.
    - apply row_step_decision_consistent. }
  split; [done|]. split.
  - intros Hin. split; [by apply Hterm|]. by apply Hboth, Hterm.
  - intros Hr. split; [by apply Hreg|]. by apply Hboth, Hreg.
Qed.

(** X5.  What an endpoint answers is what it stored: whenever a request
    is answered with an application, that application is the row of the
    table under its key once the request is done. *)
Theorem answered_application_is_stored (r : Request) (w : list Effect)
    (a : Application.t) (c : HTTPStatus)
    (Hanswer : (handle r w).1 = jsonify a c) :
  find_by_id (handle r w).2 (Application.id a) = Some a.
Proof.
  destruct r as [ctx account json_input now invoice
                |ctx k account now invoice
                |ctx k status now]; simpl in *.
  - destruct (post_application_table fromisoformat validate isoformat users
                registrations ctx account
                json_input now invoice w)
      as [Hres|[[Hres Hb]|(a' & inv & new & _ & Hrec & Hres)]].
    + rewrite Hres in Hanswer. done.
    + rewrite Hres, (Hb _ _ Hanswer). unfold find_by_id.
      rewrite applications_app. simpl. by rewrite lookup_insert_eq.
    + rewrite Hres in Hanswer |- *. simpl in *.
      apply serialized_application in Hanswer as [-> _].
      destruct (reconciled_table fromisoformat _ _ _ _ _
                  (w ++ [Saved (new_application ctx now account json_input
                                  (fresh (dom (applications w))))]) Hrec)
        as [Htable _].
      destruct (reconciled_id fromisoformat _ _ _ _ _ Hrec) as [Hid _].
      unfold find_by_id. rewrite Htable, Hid. by rewrite lookup_insert_eq.
  - destruct (put_payment_table fromisoformat isoformat users registrations ctx k account now invoice w)
      as [[Hres Hb]|(b & a' & inv & new & Hget & _ & Hrec & Hres)].
    + rewrite Hres. pose proof (Hb _ _ Hanswer) as Hfind.
      by rewrite (applications_key _ _ _ Hfind).
    + rewrite Hres in Hanswer |- *. simpl in *.
      apply serialized_application in Hanswer as [-> _].
      destruct (reconciled_table fromisoformat _ _ _ _ _ w Hrec)
        as [Htable _].
      destruct (reconciled_id fromisoformat _ _ _ _ _ Hrec) as [Hid _].
      unfold find_by_id. rewrite Htable, Hid. by rewrite lookup_insert_eq.
  - destruct (put_status_table fromisoformat registration_request
                create_registration upper isoformat users registrations ctx k status now w)
      as [[_ Hno]|(b & a' & evs & _ & _ & _ & _ & Hfind & Hb)].
    + by destruct (Hno a c).
    + rewrite (Hb _ _ Hanswer).
      by rewrite (applications_key _ _ _ Hfind).
Qed.

(** Reconciling the same invoice into what a reconciliation left saves
    the same row again and logs nothing. *)
Lemma reconciled_again (now now' : Z) (inv : InvoiceDetails)
    (a a' b : Application.t) (new new' : list Effect) :
  reconciled fromisoformat now inv a a' new ->
  reconciled fromisoformat now' inv a' b new' ->
  b = a' /\ new' = [Saved a'].
Proof.
  intros H H'.
  destruct H as
    [invoice account Hopen Hid Hacc Hcode Hdraft
    |invoice account text date Hopen Hid Hacc Hcode Htext Hdate
    |invoice account Hopen Hid Hacc Hcode
    |invoice account Hopen Hid Hacc Hnc Hna Hcreated Hfits];
  inversion H' as
    [invoice' account' Hopen' Hid' Hacc' Hcode' Hdraft'
    |invoice' account' text' date' Hopen' Hid' Hacc' Hcode' Htext' Hdate'
    |invoice' account' Hopen' Hid' Hacc' Hcode'
    |invoice' account' Hopen' Hid' Hacc' Hnc' Hna' Hcreated' Hfits'];
  subst; simpl in *; try congruence;
  assert (invoice' = invoice) as -> by congruence;
  assert (account' = account) as -> by congruence.
  - rewrite Hcode. by destruct a.
  - exfalso. by apply Hcreated.
  - by destruct a.
Qed.

(** When a call leaves the trace as it is, so does the same call made at
    another time. *)
Lemma put_payment_unchanged_any_time (ctx : UserContext) (k : nat)
    (account : option string) (now now' : Z)
    (invoice : option InvoiceDetails) (w : list Effect) :
  (put_payment ctx k account now invoice w).2 = w ->
  (put_payment ctx k account now' invoice w).2 = w.
Proof.
  intros Hsame.
  destruct (put_payment_table fromisoformat isoformat users registrations ctx k account now' invoice w)
    as [[Hres _]|(a & a' & inv & new & Hget & -> & Hrec & Hres)]; [done|].
  exfalso.
  assert (exists a1 new1,
            reconciled fromisoformat now inv a a1 new1 /\ new1 <> [])
    as (a1 & new1 & Hrec1 & Hnew1).
  { destruct Hrec; eexists _, _; (split; [by econstructor|done]). }
  pose proof (reconciled_run fromisoformat now inv a a1 new1 w Hrec1)
    as Hrun.
  assert (new <> []) as Hnew by (by destruct Hrec).
  revert Hsame Hres. unfold Resource.update_application_payment_details.
  destruct (negb (truthy account)).
  { intros _ Hres. apply (f_equal snd) in Hres. simpl in Hres.
    apply Hnew, (app_inv_head w). by rewrite app_nil_r. }
  rewrite Hget, Hrun. simpl.
  intros Hsame _. apply Hnew1.
  apply (app_inv_head w). by rewrite app_nil_r.
Qed.

(** X6.  The payment endpoint is idempotent in the database: repeating a
    call with the same invoice, at any later time, changes neither the
    table nor the event log, whatever the invoice says. *)
Theorem payment_endpoint_idempotent (ctx : UserContext) (k : nat)
    (account : option string) (now now' : Z)
    (invoice : option InvoiceDetails) (w : list Effect) :
  let w1 := (put_payment ctx k account now invoice w).2 in
  let w2 := (put_payment ctx k account now' invoice w1).2 in
  applications w2 = applications w1 /\ events_of w2 = events_of w1.
Proof.
  intros w1 w2. unfold w2, w1. clear w1 w2.
  destruct (put_payment_table fromisoformat isoformat users registrations ctx k account now invoice w)
    as [[Hres _]|(a & a' & inv & new & Hget & -> & Hrec & Hres)].
  { rewrite Hres.
    by rewrite (put_payment_unchanged_any_time ctx k account now now'
                  invoice w Hres). }
  rewrite Hres. simpl.
  apply get_application_found in Hget.
  destruct (reconciled_table fromisoformat _ _ _ _ _ w Hrec)
    as [Htable _].
  destruct (reconciled_id fromisoformat _ _ _ _ _ Hrec) as [Hid _].
  rewrite (applications_key _ _ _ Hget) in Htable, Hid.
  destruct (put_payment_table fromisoformat isoformat users registrations ctx k account now' (Some inv)
              (w ++ new))
    as [[-> _]|(b & b' & inv' & new' & Hget' & [= <-] & Hrec' & ->)];
    [done|].
  apply get_application_found in Hget'. unfold find_by_id in Hget'.
  rewrite Htable, lookup_insert_eq in Hget'. injection Hget' as <-.
  destruct (reconciled_again _ _ _ _ _ _ _ _ Hrec Hrec') as [-> ->].
  simpl. rewrite applications_app, events_of_app. simpl.
  rewrite app_nil_r, Hid. split; [|done].
  apply insert_id. by rewrite Htable, lookup_insert_eq.
Qed.




(** *** The event log *)

Lemma logged_times_app (name : Events.EventName) (k : nat)
    (log log' : list Events.t) :
  logged_times name k (log ++ log')
  = logged_times name k log + logged_times name k log'.
Proof. unfold logged_times. by rewrite List.filter_app, length_app. Qed.

Lemma logged_times_none (name : Events.EventName) (k : nat)
    (log : list Events.t) :
  (forall ev, In ev log -> Events.application_id ev <> k) ->
  logged_times name k log = 0.
Proof.
  intros H. unfold logged_times.
  induction log as [|ev log IH]; [done|]. simpl.
  unfold is_event at 1.
  destruct (Nat.eqb_spec (Events.application_id ev) k) as [He|_].
  - by destruct (H ev (or_introl eq_refl)).
  - rewrite andb_false_r. apply IH. intros ev' Hin. apply H. by right.
Qed.

(** The events of a change of a row are about that row. *)
Lemma row_step_events_key (a a' : Application.t) (evs : list Events.t) :
  row_step fromisoformat a a' evs ->
  forall ev, In ev evs -> Events.application_id ev = Application.id a.
Proof.
  intros H ev. row_cases H.
  - simpl. by intros [<-|[]].
  - simpl. by intros [<-|[]].
  - simpl. by intros [<-|[]].
  - simpl. by intros [].
  - unfold status_events.
    destruct (_get_event_name st); simpl; [by intros [<-|[]]|by intros []].
  - simpl. by intros [<-|[<-|[]]].
Qed.

(** How a change of a row moves the two counts. *)
Lemma row_step_counts (a a' : Application.t) (evs : list Events.t) :
  row_step fromisoformat a a' evs ->
  completed_payments (Some a)
  + logged_times Events.PAYMENT_COMPLETE (Application.id a) evs
  = completed_payments (Some a')
  /\ (logged_times Events.APPLICATION_SUBMITTED (Application.id a) evs = 1
      /\ Application.status a = Status.DRAFT
      /\ Application.status a' <> Status.DRAFT
      \/ logged_times Events.APPLICATION_SUBMITTED (Application.id a) evs
         = 0
         /\ (Application.status a <> Status.DRAFT ->
             Application.status a' <> Status.DRAFT)).
Proof.
  intros H. unfold logged_times, is_event.
  destruct H as [now inv a' new Hrec
                |now u st Hstaff Hopen Hne
                |now u reg Hopen];
    [destruct Hrec as
       [invoice account Hopen Hid Hacc Hcode Hdraft
       |invoice account text date Hopen Hid Hacc Hcode Htext Hdate
       |invoice account Hopen Hid Hacc Hcode
       |invoice account Hopen Hid Hacc Hnc Hna Hcreated];
     apply py_eq_false in Hopen| |].
  - simpl. rewrite Nat.eqb_refl, Hopen. simpl. split; [done|]. by left.
  - simpl. rewrite Nat.eqb_refl, Hopen. simpl. split; [done|]. by right.
  - simpl. rewrite Nat.eqb_refl, Hopen. simpl. split; [done|]. by right.
  - simpl. rewrite Hopen. apply py_eq_false in Hnc. rewrite Hnc.
    split; [done|]. by right.
  - assert (List.filter
              (fun ev => bool_decide (Events.event_name ev
                                      = Events.PAYMENT_COMPLETE)
                         && Nat.eqb (Events.application_id ev)
                              (Application.id a))
              (status_events st (Application.id a)) = []
            /\ List.filter
                 (fun ev => bool_decide (Events.event_name ev
                                         = Events.APPLICATION_SUBMITTED)
                            && Nat.eqb (Events.application_id ev)
                                 (Application.id a))
                 (status_events st (Application.id a)) = []) as [-> ->].
    { by destruct Hstaff as [<-|[<-|[<-|[<-|[]]]]]. }
    destruct (staff_action_not_unpaid st Hstaff) as (_ & _ & _ & Hnd).
    destruct (Status.mem st APPLICATION_TERMINAL_STATES); simpl;
      (split; [lia|by right]).
  - simpl. split; [lia|]. by right.
Qed.

Lemma log_consistent_step (t t' : gmap nat Application.t)
    (log log' : list Events.t) :
  log_consistent t log -> db_step fromisoformat t log t' log' ->
  log_consistent t' log'.
Proof.
  intros (Hkey & Hrows & Hcount).
  assert (forall k0 a a' evs,
            (t !! k0 = Some a
             \/ t !! k0 = None /\ Application.id a = k0
                /\ completed_payments (Some a) = 0
                /\ Application.status a = Status.DRAFT) ->
            (a' = a /\ evs = [] \/ row_step fromisoformat a a' evs) ->
            log_consistent (<[k0 := a']> t) (log ++ evs)) as Hchange.
  { intros k0 a a' evs Hold Hnew.
    assert (Application.id a = k0) as Hida.
    { destruct Hold as [Hold|(_ & ? & _)]; [by apply Hkey|done]. }
    assert (Application.id a' = k0) as Hida'.
    { destruct Hnew as [[-> _]|Hnew]; [done|].
      by rewrite (row_step_id fromisoformat _ _ _ Hnew). }
    assert (forall ev, In ev evs -> Events.application_id ev = k0) as Hevs.
    { destruct Hnew as [[_ ->]|Hnew]; [done|].
      intros ev Hin.
      by rewrite (row_step_events_key _ _ _ Hnew ev Hin). }
    assert (logged_times Events.PAYMENT_COMPLETE k0 log
            = (match t !! k0 with
               | Some _ => completed_payments (Some a)
               | None => 0
               end)
            /\ (t !! k0 = None ->
                logged_times Events.APPLICATION_SUBMITTED k0 log = 0))
      as [Hpc Hsub0].
    { destruct (Hcount k0) as (Hpc & Hle & Hone).
      destruct Hold as [Hold|(Hnone & _)].
      - rewrite Hpc, Hold. split; [done|]. congruence.
      - rewrite Hpc, Hnone. split; [done|]. intros _.
        destruct (logged_times Events.APPLICATION_SUBMITTED k0 log)
          as [|[|n]] eqn:Hn; [done| |lia].
        destruct (Hone eq_refl) as (b & Hb & _). congruence. }
    split; [|split].
    - intros k b. rewrite lookup_insert. case_decide as Hk.
      + intros [= <-]. congruence.
      + apply Hkey.
    - intros ev Hin. apply in_app_or in Hin as [Hin|Hin].
      + rewrite lookup_insert. case_decide; [done|]. by apply Hrows.
      + rewrite (Hevs ev Hin), lookup_insert_eq. done.
    - intros k. rewrite !logged_times_app.
      destruct (decide (k = k0)) as [->|Hne].
      2:{ rewrite lookup_insert_ne by done.
          rewrite !(logged_times_none _ k evs);
            [rewrite !Nat.add_0_r; apply Hcount| |];
            intros ev Hin; by rewrite (Hevs ev Hin). }
      rewrite lookup_insert_eq.
      destruct (Hcount k0) as (_ & Hle & Hone).
      destruct Hnew as [[-> ->]|Hnew].
      + simpl. rewrite !Nat.add_0_r.
        destruct Hold as [Hold|(Hnone & _ & Hzero & Hdraft)].
        * rewrite Hpc, Hold. split; [done|]. split; [done|].
          intros H1. destruct (Hone H1) as (b & Hb & Hnd).
          exists a. split; [done|]. congruence.
        * rewrite Hpc, Hnone, (Hsub0 Hnone). split; [done|].
          split; [lia|done].
      + destruct (row_step_counts _ _ _ Hnew) as [Hmove Hsub].
        rewrite Hida in Hmove, Hsub.
        split.
        { rewrite Hpc.
          destruct Hold as [-> |(-> & _ & Hzero & _)]; [done|].
          by rewrite <- Hmove, Hzero. }
        assert (logged_times Events.APPLICATION_SUBMITTED k0 log = 1 ->
                Application.status a <> Status.DRAFT) as Hnd.
        { intros H1. destruct (Hone H1) as (b & Hb & Hnd).
          destruct Hold as [Hold|(Hnone & _)]; congruence. }
        destruct Hsub as [(-> & Hdraft & Hnd')|(-> & Hkeep)].
        * assert (logged_times Events.APPLICATION_SUBMITTED k0 log = 0)
            as -> by (destruct (logged_times Events.APPLICATION_SUBMITTED
                                  k0 log) as [|[|n]]; [done| |lia];
                      by destruct Hnd).
          split; [done|]. intros _. by exists a'.
        * rewrite Nat.add_0_r. split; [done|]. intros H1.
          exists a'. split; [done|]. by apply Hkeep, Hnd. }
  intros [[-> ->]|[(k0 & a & a' & evs & Ha & Hstep & -> & ->)
                  |(ctx & now & account & js & k0 & a' & evs & Hfree
                    & Hborn & -> & ->)]].
  - done.
  - apply (Hchange k0 a a' evs); [by left|by right].
  - apply (Hchange k0 (new_application ctx now account js k0) a' evs).
    + right. done.
    + destruct Hborn as [[-> ->]|Hborn]; [by left|by right].
Qed.

(** X8.  The event log agrees with the table, after any sequence of
    requests: every event is about an application of the table;
    PAYMENT_COMPLETE is logged exactly once for an application whose
    payment status is COMPLETED and never for another; and
    APPLICATION_SUBMITTED is logged at most once for an application, which
    is then no longer a draft. *)
Theorem log_agrees_with_table (rs : list Request) :
  (forall ev, In ev (events_of (run rs)) ->
     is_Some (find_by_id (run rs) (Events.application_id ev)))
  /\ forall k,
      logged_times Events.PAYMENT_COMPLETE k (events_of (run rs))
      = completed_payments (find_by_id (run rs) k)
      /\ logged_times Events.APPLICATION_SUBMITTED k (events_of (run rs))
         <= 1
      /\ (logged_times Events.APPLICATION_SUBMITTED k (events_of (run rs))
          = 1 ->
          exists a, find_by_id (run rs) k = Some a
                    /\ Application.status a <> Status.DRAFT).
Proof.
  assert (log_consistent (applications (run rs)) (events_of (run rs)))
    as (_ & Hrows & Hcount).
  { apply (run_db_invariant fromisoformat registration_request
             create_registration validate upper isoformat users
             registrations log_consistent).
    - split; [|split].
      + intros k a. by rewrite lookup_empty.
      + intros ev [].
      + intros k. rewrite lookup_empty. unfold logged_times. simpl.
        split; [done|]. split; [lia|done].
    - intros t log t' log'. apply log_consistent_step. }
  done.
Qed.

End LifecycleProperties.

(** * Further properties of creation and of the listing *)

Section CreationFacts.

Import ApplicationService.
Import Resource.
Import Rows.

Variable fromisoformat : string -> option Z.
Variable validate : json -> bool.
Variable isoformat : Z -> string.
Variable users : list Effect -> nat -> option ApplicationSerializer.Person.
Variable registrations :
  list Effect -> nat -> option ApplicationSerializer.Details.

Abbreviation post_application :=
  (Resource.create_application fromisoformat validate isoformat users
     registrations).
Abbreviation serialized :=
  (Resource.serialized isoformat users registrations).

(** X9.  A failed invoice leaves the draft behind: when the payload is
    valid but the invoice call fails, or the invoice it returns lacks its
    id or its payment account, the request is answered with an error, yet
    the new application stays in the table as a draft, under a key that
    was free, and no event is logged. *)
Theorem failed_invoice_leaves_draft (ctx : UserContext)
    (account : option string) (json_input : json) (now : Z)
    (invoice : option InvoiceDetails) (w : list Effect)
    (Hvalid : validate json_input = true)
    (Hfails :
      forall inv, invoice = Some inv ->
                  inv_id inv = None \/ inv_paymentAccount inv = None) :
  let a0 := new_application ctx now account json_input
              (fresh (dom (applications w))) in
  let result := post_application ctx account json_input now invoice w in
  (forall b c, result.1 <> jsonify b c)
  /\ result.2 = w ++ [Saved a0]
  /\ find_by_id w (Application.id a0) = None
  /\ find_by_id result.2 (Application.id a0) = Some a0
  /\ Application.status a0 = Status.DRAFT
  /\ events_of result.2 = events_of w.
Proof.
  intros a0 result.
  assert (find_by_id w (Application.id a0) = None) as Hfree
    by apply not_elem_of_dom, is_fresh.
  assert (find_by_id (w ++ [Saved a0]) (Application.id a0) = Some a0
          /\ events_of (w ++ [Saved a0]) = events_of w) as [Hrow Hlog].
  { unfold find_by_id. rewrite applications_app, events_of_app. simpl.
    by rewrite lookup_insert_eq, app_nil_r. }
  destruct (post_application_table fromisoformat validate isoformat users
                registrations ctx account
              json_input now invoice w)
    as [Hres|[[Hres Hb]|(a' & inv & new & Hinv & Hrec & Hres)]];
    fold a0 in Hres; fold result in Hres.
  - exfalso. revert Hres. unfold result, Resource.create_application.
    rewrite Hvalid. simpl. destruct invoice as [inv|]; [|done].
    destruct (update_application_payment_details_and_status _ _ _ _)
      as [[?|?] ?]; [|done].
    unfold Resource.serialized.
    by destruct (ApplicationSerializer.to_dict _ _ _ _).
  - fold a0 in Hb. fold result in Hb. rewrite Hres.
    repeat split; try done.
    intros b c Hanswer. pose proof (Hb b c Hanswer) as ->.
    revert Hanswer. unfold result, Resource.create_application.
    rewrite Hvalid. simpl. destruct invoice as [inv|]; [|done].
    pose proof (reconcile_run_cases fromisoformat now inv
                  {| obj := new_application ctx now account json_input
                              (fresh (dom (applications w)));
                     effects := w ++ [Saved (new_application ctx now
                                  account json_input
                                  (fresh (dom (applications w))))] |})
      as Hcases.
    cbv zeta in Hcases.
    unfold save_application.
    fold (new_application ctx now account json_input
            (fresh (dom (applications w)))).
    destruct (update_application_payment_details_and_status _ _ _ _)
      as [r m'].
    cbn [fst snd obj effects] in Hcases.
    destruct Hcases as [(_ & [(_ & _ & Hdone)|(e & ->)])
                       |(_ & new & _ & Hrec)]; try done.
    destruct (Hfails inv eq_refl) as [Hno|Hno]; destruct Hrec; congruence.
  - exfalso.
    destruct (Hfails inv Hinv) as [Hno|Hno]; destruct Hrec; congruence.
Qed.


End CreationFacts.

Section ListingFacts.

Import Application.
Import Paging.

Variable upper : string -> string.

Abbreviation matching := (Application.matching upper).
Abbreviation find_by_user_and_account :=
  (Application.find_by_user_and_account upper).
Abbreviation listing := (Paging.listing upper).

(** What [paginate] returns is a slice of its rows, with their count. *)
Lemma paginate_returned (max_per_page : option Z)
    (rows : list Application.t) (per_page page : Z) (p : Pagination) :
  paginate max_per_page true rows per_page page = Returned p ->
  exists n m,
    items p = take n (drop m rows)
    /\ n <= Z.to_nat per_page
    /\ total p = length rows.
Proof.
  unfold paginate.
  set (capped := match max_per_page with
                 | Some cap => Z.min per_page cap
                 | None => per_page
                 end).
  assert (Z.to_nat capped <= Z.to_nat per_page) as Hcapped.
  { unfold capped. destruct max_per_page; lia. }
  destruct (Z.ltb_spec page 1); [done|].
  destruct (Z.ltb_spec capped 1); [done|]. simpl.
  destruct (bool_decide _ && _); [done|].
  intros [= <-]. simpl. by eexists _, _.
Qed.

(** X11.  What a listing shows: every row of a page is a row of the
    table that passes the filters (for a caller who is no examiner, it is
    submitted by the user and paid by the account; with a status filter,
    the name of its status is the filter as [str.upper] returns it); the
    rows come by descending id; there are at most [limit] of them; and
    the total is the number of rows that pass the filters. *)
Theorem listed_rows_pass_the_filters (max_per_page : option Z)
    (rows : list Application.t) (user_id : nat)
    (account_id : option string) (c : ApplicationSearch)
    (is_examiner : bool) (p : Pagination)
    (Hlisted :
      find_by_user_and_account max_per_page rows user_id account_id c
        is_examiner = Returned p) :
  (forall a, In a (items p) ->
     In a rows
     /\ (is_examiner = false ->
         submitter_id a = Some user_id /\ payment_account a = account_id)
     /\ (truthy (filter_status c) = true ->
         upper <$> filter_status c = Some (Status.name (status a))))
  /\ StronglySorted id_desc (items p)
  /\ length (items p) <= Z.to_nat (limit c)
  /\ total p
     = length (matching user_id account_id c is_examiner rows).
Proof.
  unfold Application.find_by_user_and_account in Hlisted.
  apply paginate_returned in Hlisted as (n & m & Hitems & Hn & Htotal).
  set (matched := matching user_id account_id c is_examiner rows) in *.
  assert (StronglySorted id_desc (order_by_id_desc matched)) as Hsorted.
  { apply Sorted_StronglySorted; [|apply order_by_id_desc_sorted].
    intros x y z. unfold id_desc. lia. }
  split; [|split; [|split]].
  - intros a Ha. rewrite Hitems in Ha.
    assert (In a matched) as Hin.
    { apply list_elem_of_In in Ha. apply subseteq_take, subseteq_drop in Ha.
      apply list_elem_of_In.
      by rewrite <- (order_by_id_desc_perm matched). }
    apply matching_In in Hin as (Hrows & Howner & Hstatus).
    split; [done|]. split; [|done].
    intros ->. by destruct Howner.
  - rewrite Hitems.
    rewrite <- (take_drop m (order_by_id_desc matched)) in Hsorted.
    apply StronglySorted_app_1_r in Hsorted.
    rewrite <- (take_drop n (drop m (order_by_id_desc matched)))
      in Hsorted.
    by apply StronglySorted_app_1_l in Hsorted.
  - rewrite Hitems, length_take. lia.
  - by rewrite Htotal, order_by_id_desc_length.
Qed.

Lemma matching_on_page (user_id : nat) (account_id : option string)
    (status : option string) (limit : Z) (page : nat) (is_examiner : bool)
    (rows : list Application.t) :
  matching user_id account_id (on_page status limit page) is_examiner rows
  = matching user_id account_id (on_page status limit 0) is_examiner rows.
Proof. done. Qed.

(** X12.  Paging through a listing shows every matching row once, by
    descending id: with a limit l >= 1 within the library's cap, asking
    for the pages 1 to n, where n pages are just enough to hold the
    matching rows, and putting the answers end to end gives the ordered
    matching rows, no row missing and none repeated. *)
Theorem pages_make_the_listing (max_per_page : option Z)
    (rows : list Application.t) (user_id : nat)
    (account_id : option string) (status : option string) (limit : Z)
    (is_examiner : bool) (n : nat)
    (Hcap : within_cap max_per_page limit)
    (Hlimit : (1 <= limit)%Z)
    (Hneeded :
      n = 0
      \/ (n - 1) * Z.to_nat limit
         < length (matching user_id account_id (on_page status limit 0)
                     is_examiner rows))
    (Henough :
      length (matching user_id account_id (on_page status limit 0)
                is_examiner rows) <= n * Z.to_nat limit) :
  listing max_per_page rows user_id account_id status limit is_examiner n
  = Some (order_by_id_desc
            (matching user_id account_id (on_page status limit 0)
               is_examiner rows)).
Proof.
  set (matched := matching user_id account_id (on_page status limit 0)
                    is_examiner rows) in *.
  set (l := Z.to_nat limit) in *.
  assert (forall j,
            j = 0 \/ (j - 1) * l < length matched ->
            listing max_per_page rows user_id account_id status limit
              is_examiner j
            = Some (take (j * l) (order_by_id_desc matched))) as Hpages.
  { induction j as [|j IH]; intros Hj; [done|].
    simpl Paging.listing. rewrite IH by lia.
    assert (Z.to_nat ((Z.of_nat (S j) - 1) * limit) = j * l) as Hoff
      by (unfold l; lia).
    unfold Application.find_by_user_and_account.
    rewrite matching_on_page. fold matched.
    cbn [page Application.limit on_page].
    rewrite paginate_page; [|done|lia|done|].
    - rewrite Hoff. fold l. cbn [items]. f_equal.
      rewrite take_take_drop. f_equal. lia.
    - rewrite Hoff, order_by_id_desc_length.
      destruct Hj as [Hj|Hj]; [lia|]. right.
      by replace (S j - 1) with j in Hj by lia. }
  rewrite (Hpages n Hneeded). f_equal. apply take_ge.
  by rewrite order_by_id_desc_length.
Qed.

End ListingFacts.

(** * The statuses of the rows, the receipt and the labels *)

Section StatusFacts.

Import ApplicationService.
Import Resource.
Import Rows.
Import Receipt.
Import ApplicationSerializer.

Variable fromisoformat : string -> option Z.
Variable registration_request : json -> option json.
Variable create_registration :
  list Effect -> option nat -> option string -> json ->
  option Registration.t.
Variable validate : json -> bool.
Variable upper : string -> string.
Variable isoformat : Z -> string.
Variable users : list Effect -> nat -> option Person.
Variable registrations : list Effect -> nat -> option Details.

Abbreviation run :=
  (Resource.run fromisoformat registration_request create_registration
     validate upper isoformat users registrations).

Lemma row_step_written_status (a a' : Application.t)
    (evs : list Events.t) :
  In (Application.status a) written_statuses ->
  row_step fromisoformat a a' evs ->
  In (Application.status a') written_statuses.
Proof.
  intros Ha H.
  destruct H as [now inv a' new Hrec
                |now u st Hstaff Hopen Hne
                |now u reg Hopen].
  - destruct Hrec; simpl; auto.
  - assert (Application.status
              (if Status.mem st APPLICATION_TERMINAL_STATES
               then decided now u (Application.set_status st a)
               else Application.set_status st a) = st) as ->
      by by destruct (Status.mem st APPLICATION_TERMINAL_STATES).
    destruct Hstaff as [<-|[<-|[<-|[<-|[]]]]]; simpl; auto 10.
  - simpl. auto.
Qed.

Lemma rows_written_status (rs : list Request) (k : nat)
    (a : Application.t) :
  find_by_id (run rs) k = Some a ->
  In (Application.status a) written_statuses.
Proof.
  apply (run_rows_invariant fromisoformat registration_request
           create_registration validate upper isoformat users
              registrations
           (fun a => In (Application.status a) written_statuses)).
  - intros. simpl. auto.
  - apply row_step_written_status.
Qed.

(** X13.  The statuses the endpoints reach: after any sequence of create,
    payment and status requests, every row is in one of the statuses
    DRAFT, PAYMENT_DUE, PAID, FULL_REVIEW_APPROVED, PROVISIONALLY_APPROVED,
    DECLINED and ADDITIONAL_INFO_REQUESTED; no row is ever in
    AUTO_APPROVED, PROVISIONAL_REVIEW, FULL_REVIEW or PROVISIONAL. *)
Theorem rows_have_written_statuses (rs : list Request) (k : nat)
    (a : Application.t)
    (Hfind : find_by_id (run rs) k = Some a) :
  In (Application.status a) written_statuses
  /\ Application.status a <> Status.AUTO_APPROVED
  /\ Application.status a <> Status.PROVISIONAL_REVIEW
  /\ Application.status a <> Status.FULL_REVIEW
  /\ Application.status a <> Status.PROVISIONAL.
Proof.
  pose proof (rows_written_status rs k a Hfind) as Hin.
  split; [done|].
  repeat split; intros Hst; rewrite Hst in Hin; simpl in Hin;
    intuition congruence.
Qed.


(** X15.  The one status shown without a label: after any sequence of
    requests, the serializer's host label of a row is empty exactly when
    the row is in status ADDITIONAL_INFO_REQUESTED, and so is its
    examiner label. *)
Theorem blank_label_only_when_info_requested (rs : list Request)
    (k : nat) (a : Application.t)
    (Hfind : find_by_id (run rs) k = Some a) :
  (hostStatus a = ""
   <-> Application.status a = Status.ADDITIONAL_INFO_REQUESTED)
  /\ (examinerStatus a = ""
      <-> Application.status a = Status.ADDITIONAL_INFO_REQUESTED).
Proof.
  pose proof (rows_written_status rs k a Hfind) as Hin.
  unfold hostStatus, examinerStatus.
  destruct Hin as [<-|[<-|[<-|[<-|[<-|[<-|[<-|[]]]]]]]];
    vm_compute; split; split; congruence.
Qed.

End StatusFacts.

(** * The serializer *)

Section SerializerFacts.

Import ApplicationSerializer.

Variable isoformat : Z -> string.
Variable users : nat -> option Person.
Variable registrations : nat -> option Details.

Abbreviation to_dict :=
  (ApplicationSerializer.to_dict isoformat users registrations).
Abbreviation with_columns :=
  (ApplicationSerializer.with_columns isoformat).
Abbreviation with_registration :=
  (ApplicationSerializer.with_registration isoformat registrations).
Abbreviation related := (ApplicationSerializer.related users).

Lemma dict_get_set_eq (key : string) (value : json)
    (d : list (string * json)) :
  dict_get key (dict_set key value d) = Some value.
Proof.
  induction d as [|[k v] d IH]; simpl.
  - by rewrite String.eqb_refl.
  - destruct (String.eqb k key) eqn:Hk; simpl; by rewrite Hk.
Qed.

Lemma dict_get_set_ne (key key' : string) (value : json)
    (d : list (string * json)) :
  key <> key' -> dict_get key (dict_set key' value d) = dict_get key d.
Proof.
  intros Hne. induction d as [|[k v] d IH]; simpl.
  - destruct (String.eqb_spec key' key); congruence.
  - destruct (String.eqb_spec k key') as [->|Hk]; simpl.
    + by destruct (String.eqb_spec key' key); [congruence|].
    + by rewrite IH.
Qed.

Lemma dict_set_set (key : string) (value value' : json)
    (d : list (string * json)) :
  dict_set key value' (dict_set key value d) = dict_set key value' d.
Proof.
  induction d as [|[k v] d IH]; simpl.
  - by rewrite String.eqb_refl.
  - destruct (String.eqb k key) eqn:Hk; simpl; rewrite Hk; [done|].
    by rewrite IH.
Qed.

(** Reading an entry through a chain of assignments. *)
Ltac read_entry :=
  repeat first [rewrite dict_get_set_eq
               |rewrite dict_get_set_ne by discriminate].

(** The header a stored document is serialized from, and whether the
    serializer can write to it. *)
Lemma header_cases (doc : list (string * json)) :
  let doc' := if json_truthy (default JNull (dict_get "header" doc))
              then doc else dict_set "header" (JDict []) doc in
  (dict_get "header" doc' = Some (JDict (stored_header doc))
   /\ forall header,
        dict_set "header" header doc' = dict_set "header" header doc)
  \/ (json_truthy (default JNull (dict_get "header" doc)) = true
      /\ (forall header, dict_get "header" doc <> Some (JDict header))
      /\ doc' = doc).
Proof.
  intros doc'. unfold doc', stored_header.
  destruct (dict_get "header" doc) as [[|b|z|s|l|header]|] eqn:Hget; simpl.
  - left. split; [apply dict_get_set_eq|intros; apply dict_set_set].
  - destruct b; [by right|].
    left. split; [apply dict_get_set_eq|intros; apply dict_set_set].
  - destruct (z =? 0)%Z; simpl; [|by right].
    left. split; [apply dict_get_set_eq|intros; apply dict_set_set].
  - destruct (String.eqb s ""); simpl; [|by right].
    left. split; [apply dict_get_set_eq|intros; apply dict_set_set].
  - destruct l; [|by right].
    left. split; [apply dict_get_set_eq|intros; apply dict_set_set].
  - left. destruct header; [|by rewrite Hget].
    split; [apply dict_get_set_eq|intros; apply dict_set_set].
  - left. split; [apply dict_get_set_eq|intros; apply dict_set_set].
Qed.

(** What a returning [to_dict] has done. *)
Lemma to_dict_cases (a : Application.t) (out : json) :
  to_dict a = Some out <->
  exists doc submitter reviewer header,
    Application.application_json a = JDict doc
    /\ (json_truthy (default JNull (dict_get "header" doc)) = true ->
        exists h, dict_get "header" doc = Some (JDict h))
    /\ related (Application.submitter_id a) = Some submitter
    /\ related (Application.reviewer_id a) = Some reviewer
    /\ with_registration a
         (dict_set "reviewer" reviewer
            (dict_set "submitter" submitter
               (with_columns a (stored_header doc)))) = Some header
    /\ out = JDict (dict_set "header" (JDict header) doc).
Proof.
  unfold ApplicationSerializer.to_dict.
  destruct (Application.application_json a) as [| | | | |doc] eqn:Hdoc;
    try (split; [done|by intros (? & ? & ? & ? & ? & _)]).
  destruct (header_cases doc) as [[Hget Hset]|(Htruthy & Hno & Hsame)];
    cbv zeta in *.
  - rewrite Hget.
    destruct (related (Application.submitter_id a)) as [submitter|];
      [|split; [done|by intros (? & ? & ? & ? & ? & ? & ? & _)]].
    destruct (related (Application.reviewer_id a)) as [reviewer|];
      [|split; [done|by intros (? & ? & ? & ? & ? & ? & ? & ? & _)]].
    destruct (with_registration a _) as [header|] eqn:Hreg.
    + rewrite Hset. split.
      * intros [= <-]. exists doc, submitter, reviewer, header.
        repeat split; try done.
        intros Htruthy. rewrite Htruthy in Hget. eauto.
      * intros (doc' & s' & r' & h' & [= <-] & _ & [= <-] & [= <-] & Hreg'
                & ->).
        rewrite Hreg in Hreg'. by injection Hreg' as <-.
    + split; [done|].
      intros (doc' & s' & r' & h' & [= <-] & _ & [= <-] & [= <-] & Hreg'
              & _).
      by rewrite Hreg in Hreg'.
  - rewrite Hsame. split.
    + destruct (dict_get "header" doc) as [[| | | | |header]|]; try done.
      by destruct (Hno header).
    + intros (doc' & ? & ? & ? & [= <-] & Hh & _).
      destruct (Hh Htruthy) as [h Hh']. by destruct (Hno h).
Qed.

(** X16.  The header shows the row, whatever the stored document says:
    when [to_dict] returns, the result is a dict whose [header] is a dict,
    and the entries id, name, paymentToken, paymentStatus, paymentAccount,
    status, hostStatus, examinerStatus, applicationDateTime and
    decisionDate of that header are the values of the columns of the
    row, also when the stored document has a header with other values
    under those keys; for a row with a registration the same holds of
    registrationId. *)
Theorem to_dict_shows_the_row (a : Application.t) (out : json)
    (Hout : to_dict a = Some out) :
  exists d header,
    out = JDict d
    /\ dict_get "header" d = Some (JDict header)
    /\ dict_get "id" header = Some (JNum (Z.of_nat (Application.id a)))
    /\ dict_get "name" header = Some (JStr (Application.type a))
    /\ dict_get "paymentToken" header
       = Some (match Application.invoice_id a with
               | Some i => JNum i
               | None => JNull
               end)
    /\ dict_get "paymentStatus" header
       = Some (of_str (Application.payment_status_code a))
    /\ dict_get "paymentAccount" header
       = Some (of_str (Application.payment_account a))
    /\ dict_get "status" header
       = Some (JStr (Status.name (Application.status a)))
    /\ dict_get "hostStatus" header = Some (JStr (hostStatus a))
    /\ dict_get "examinerStatus" header = Some (JStr (examinerStatus a))
    /\ dict_get "applicationDateTime" header
       = Some (JStr (isoformat (Application.application_date a)))
    /\ dict_get "decisionDate" header
       = Some (match Application.decision_date a with
               | Some date => JStr (isoformat date)
               | None => JNull
               end)
    /\ (forall r, Application.registration_id a = Some (S r) ->
        dict_get "registrationId" header
        = Some (JNum (Z.of_nat (S r)))).
Proof.
  apply to_dict_cases in Hout
    as (doc & submitter & reviewer & header & Hdoc & _ & _ & _ & Hreg & ->).
  exists (dict_set "header" (JDict header) doc), header.
  split; [done|]. split; [apply dict_get_set_eq|].
  unfold ApplicationSerializer.with_registration in Hreg.
  destruct (Application.registration_id a) as [[|r]|] eqn:Hid.
  - injection Hreg as <-.
    unfold ApplicationSerializer.with_columns.
    repeat split; try (intros; discriminate); by read_entry.
  - destruct (registrations (S r)) as [registration|]; [|done].
    injection Hreg as <-.
    unfold ApplicationSerializer.with_columns.
    repeat split; try (intros ? [= <-]); by read_entry.
  - injection Hreg as <-.
    unfold ApplicationSerializer.with_columns.
    repeat split; try (intros; discriminate); by read_entry.
Qed.

(** X17.  The rest of the stored document is passed on: when [to_dict]
    returns, every entry of the stored document other than [header] is in
    the result as it is stored, and so is every entry of the stored header
    under a key the serializer does not write; for a row without a
    registration these include registrationId, registrationStartDate,
    registrationEndDate, registrationStatus and registrationNumber. *)
Theorem to_dict_keeps_the_document (a : Application.t)
    (doc d : list (string * json))
    (Hdoc : Application.application_json a = JDict doc)
    (Hout : to_dict a = Some (JDict d)) :
  (forall key, key <> "header" -> dict_get key d = dict_get key doc)
  /\ exists header,
      dict_get "header" d = Some (JDict header)
      /\ forall key,
          ~ In key row_keys ->
          has_registration a = false \/ ~ In key registration_keys ->
          dict_get key header = dict_get key (stored_header doc).
Proof.
  apply to_dict_cases in Hout
    as (doc' & submitter & reviewer & header & Hdoc' & _ & _ & _ & Hreg
        & [= ->]).
  assert (doc' = doc) as -> by congruence.
  split; [intros key Hkey; by apply dict_get_set_ne|].
  exists header. split; [apply dict_get_set_eq|].
  intros key Hrow Hregistration.
  assert (dict_get key
            (dict_set "reviewer" reviewer
               (dict_set "submitter" submitter
                  (with_columns a (stored_header doc))))
          = dict_get key (stored_header doc)) as Hcolumns.
  { unfold ApplicationSerializer.with_columns.
    rewrite !dict_get_set_ne;
      [done|intros ->; apply Hrow; simpl; tauto..]. }
  unfold ApplicationSerializer.with_registration, has_registration in *.
  destruct (Application.registration_id a) as [[|r]|];
    try (injection Hreg as <-; exact Hcolumns).
  destruct (registrations (S r)) as [registration|]; [|done].
  injection Hreg as <-.
  destruct Hregistration as [|Hkey]; [done|].
  do 5 (rewrite dict_get_set_ne by (intros ->; apply Hkey; simpl; tauto)).
  exact Hcolumns.
Qed.

(** X18.  When the serializer raises: [to_dict] returns exactly when the
    stored document is a dict whose [header], if truthy, is a dict, the
    users the row names as submitter and reviewer exist, and so does the
    registration it names; otherwise it raises. *)
Theorem to_dict_returns_iff (a : Application.t) :
  is_Some (to_dict a) <->
  (exists doc,
     Application.application_json a = JDict doc
     /\ (json_truthy (default JNull (dict_get "header" doc)) = true ->
         exists header, dict_get "header" doc = Some (JDict header)))
  /\ (forall u, Application.submitter_id a = Some (S u) ->
      is_Some (users (S u)))
  /\ (forall u, Application.reviewer_id a = Some (S u) ->
      is_Some (users (S u)))
  /\ (forall r, Application.registration_id a = Some (S r) ->
      is_Some (registrations (S r))).
Proof.
  assert (forall o, is_Some (related o) <->
                    forall u, o = Some (S u) -> is_Some (users (S u)))
    as Hrelated.
  { intros [[|u]|]; simpl.
    - split; [by intros|by eexists].
    - destruct (users (S u)) as [p|] eqn:Hu; split.
      + intros _ ? [= <-]. by rewrite Hu.
      + by eexists.
      + by intros [? ?].
      + intros H. destruct (H u eq_refl). congruence.
    - split; [by intros|by eexists]. }
  assert (forall header,
            is_Some (with_registration a header) <->
            forall r, Application.registration_id a = Some (S r) ->
                      is_Some (registrations (S r))) as Hregistration.
  { intros header. unfold ApplicationSerializer.with_registration.
    destruct (Application.registration_id a) as [[|r]|].
    - split; [by intros|by eexists].
    - destruct (registrations (S r)) as [p|] eqn:Hr; split.
      + intros _ ? [= <-]. by rewrite Hr.
      + by eexists.
      + by intros [? ?].
      + intros H. destruct (H r eq_refl). congruence.
    - split; [by intros|by eexists]. }
  split.
  - intros [out Hout].
    apply to_dict_cases in Hout
      as (doc & submitter & reviewer & header & Hdoc & Hheader & Hsub
          & Hrev & Hreg & _).
    split; [by exists doc|].
    split; [by apply Hrelated; eexists|].
    split; [by apply Hrelated; eexists|].
    by eapply Hregistration; eexists.
  - intros ((doc & Hdoc & Hheader) & Hsub & Hrev & Hreg).
    apply Hrelated in Hsub as [submitter Hsub].
    apply Hrelated in Hrev as [reviewer Hrev].
    destruct (proj2 (Hregistration
                (dict_set "reviewer" reviewer
                   (dict_set "submitter" submitter
                      (with_columns a (stored_header doc))))) Hreg)
      as [header Hreg'].
    eexists. apply to_dict_cases.
    by exists doc, submitter, reviewer, header.
Qed.

End SerializerFacts.

(** * The further properties on instances *)

Section FurtherScenarios.

Import ApplicationService.
Import Resource.
Import Rows.
Import Scenario.

(** X1, on an instance: the row of the late-payment scenario keeps its
    submitter through a further decline and a further invoice. *)
Lemma origin_is_kept_witness :
  exists a',
    find_by_id
      (run iso request_ok provision valid ascii_upper isoformat users_of
         registrations_of (late_payment_requests ++ later_requests)) 0
    = Some a'
    /\ Application.submitter_id a' = Some 3.
Proof.
  destruct (origin_is_kept iso request_ok provision valid ascii_upper
              isoformat users_of registrations_of late_payment_requests
              later_requests 0 reopened)
    as (a' & Hfind & _ & _ & _ & _ & Hsubmitter).
  { vm_compute. reflexivity. }
  exists a'. split; [exact Hfind|exact Hsubmitter].
Defined.

(** X2, on an instance: the payment completed in the late-payment
    scenario stays completed. *)
Lemma completed_payment_is_kept_witness :
  exists a',
    find_by_id
      (run iso request_ok provision valid ascii_upper isoformat users_of
         registrations_of (late_payment_requests ++ later_requests)) 0
    = Some a'
    /\ Application.payment_status_code a' = Some "COMPLETED"
    /\ Application.payment_completion_date a' = Some 8%Z.
Proof.
  destruct (completed_payment_is_kept iso request_ok provision valid
              ascii_upper isoformat users_of registrations_of
              late_payment_requests later_requests 0 reopened)
    as (a' & Hfind & Hcode & _ & _ & Hdate).
  { vm_compute. reflexivity. }
  { reflexivity. }
  exists a'. split; [exact Hfind|]. split; [exact Hcode|exact Hdate].
Defined.


(** X4, on an instance: the approved row has its decision date exactly
    when it has its reviewer. *)
Lemma rows_decision_consistent_witness :
  Application.decision_date approved_row <> None
  <-> Application.reviewer_id approved_row <> None.
Proof.
  destruct (rows_decision_consistent iso request_ok provision valid
              ascii_upper isoformat users_of registrations_of
              approval_requests 0 approved_row) as [Hboth _].
  { vm_compute. reflexivity. }
  exact Hboth.
Defined.

(** X5, on an instance: the application the submission is answered with
    is the stored one. *)
Lemma answered_application_is_stored_witness :
  find_by_id
    (handle iso request_ok provision valid ascii_upper isoformat users_of
       registrations_of
       (CreateApplication host (Some "A1") document 0%Z
          (Some (invoice "CREATED"))) []).2
    (Application.id submitted)
  = Some submitted.
Proof.
  apply (answered_application_is_stored iso request_ok provision valid
           ascii_upper isoformat users_of registrations_of
           (CreateApplication host (Some "A1") document 0%Z
              (Some (invoice "CREATED"))) [] submitted CREATED).
  vm_compute. reflexivity.
Defined.


(** X9, on an instance: the invoice call fails on a submission. *)
Lemma failed_invoice_leaves_draft_witness :
  (create_application iso valid isoformat users_of registrations_of host
     (Some "A1") document 0%Z None []).2
  = [Saved (application 0 Status.DRAFT)].
Proof.
  destruct (failed_invoice_leaves_draft iso valid isoformat users_of
              registrations_of host (Some "A1") document 0%Z None [])
    as (_ & Htrace & _).
  - reflexivity.
  - intros inv Hinv. discriminate Hinv.
  - exact Htrace.
Defined.


(** X11, on an instance: the second page of ten of fifteen rows, asked
    for by their submitter. *)
Lemma listed_rows_pass_the_filters_witness :
  StronglySorted Application.id_desc (Application.items second_page)
  /\ length (Application.items second_page) <= 10
  /\ Application.total second_page = 15.
Proof.
  destruct (listed_rows_pass_the_filters ascii_upper (Some 100%Z)
              (rows 15) 3 (Some "A1") (criteria 2 10) false second_page)
    as (_ & Hsorted & Hlength & Htotal).
  { vm_compute. reflexivity. }
  split; [exact Hsorted|]. split; [exact Hlength|exact Htotal].
Defined.

(** X12, on an instance: two pages of ten hold the fifteen rows. *)
Lemma pages_make_the_listing_witness :
  Paging.listing ascii_upper (Some 100%Z) (rows 15) 3 (Some "A1") None
    10%Z false 2
  = Some (Application.order_by_id_desc
            (Application.matching ascii_upper 3 (Some "A1")
               (Paging.on_page None 10%Z 0) false (rows 15))).
Proof.
  apply (pages_make_the_listing ascii_upper (Some 100%Z) (rows 15) 3
           (Some "A1") None 10%Z false 2).
  - intros cap Hcap. injection Hcap as <-. lia.
  - lia.
  - right. vm_compute. lia.
  - vm_compute. lia.
Defined.

(** X13, on an instance: the status of the row of the late-payment
    scenario. *)
Lemma rows_have_written_statuses_witness :
  In (Application.status reopened) written_statuses.
Proof.
  destruct (rows_have_written_statuses iso request_ok provision valid
              ascii_upper isoformat users_of registrations_of
              late_payment_requests 0 reopened) as [Hin _].
  { vm_compute. reflexivity. }
  exact Hin.
Defined.


(** X15, on an instance: the approved row has a host label. *)
Lemma blank_label_only_when_info_requested_witness :
  ApplicationSerializer.hostStatus approved_row = ""
  <-> Application.status approved_row = Status.ADDITIONAL_INFO_REQUESTED.
Proof.
  destruct (blank_label_only_when_info_requested iso request_ok provision
              valid ascii_upper isoformat users_of registrations_of
              approval_requests 0 approved_row) as [Hhost _].
  { vm_compute. reflexivity. }
  exact Hhost.
Defined.

(** X16, on an instance: the stored header says FULL_REVIEW_APPROVED, the
    row is PAID, and PAID is what is shown. *)
Lemma to_dict_shows_the_row_witness :
  exists d header,
    ApplicationSerializer.to_dict isoformat users registrations documented
    = Some (JDict d)
    /\ ApplicationSerializer.dict_get "header" d = Some (JDict header)
    /\ ApplicationSerializer.dict_get "status" header = Some (JStr "PAID").
Proof.
  assert (ApplicationSerializer.to_dict isoformat users registrations
            documented = Some (JDict shown)) as Hout
    by (vm_compute; reflexivity).
  destruct (to_dict_shows_the_row isoformat users registrations documented
              (JDict shown) Hout)
    as (d & header & Hd & Hheader & _ & _ & _ & _ & _ & Hstatus & _).
  exists d, header. rewrite Hout, Hd. split; [reflexivity|].
  split; [exact Hheader|exact Hstatus].
Defined.

(** X17, on an instance: the registration id of the stored header is
    shown for a row without a registration. *)
Lemma to_dict_keeps_the_document_witness :
  exists header,
    ApplicationSerializer.dict_get "header" shown = Some (JDict header)
    /\ ApplicationSerializer.dict_get "registrationId" header
       = Some (JNum 999%Z).
Proof.
  destruct (to_dict_keeps_the_document isoformat users registrations
              documented stored shown) as (_ & header & Hheader & Hkept).
  { reflexivity. }
  { vm_compute. reflexivity. }
  exists header. split; [exact Hheader|].
  rewrite (Hkept "registrationId").
  - reflexivity.
  - simpl. intros H.
    repeat (destruct H as [H|H]; [discriminate H|]). exact H.
  - left. reflexivity.
Defined.

End FurtherScenarios.
